(** * xv6: a shallow embedding of the kernel paths behind the specification

    The development follows the C sources function by function, the
    statements in the order of the text.  Machine integers are [Z] with
    the 32-bit wrap-around written out where the code does arithmetic on
    them.  [panic] (console.c) ends in [for(;;);] and never returns to
    its caller, so a panic is a result of its own.  A call of [sleep] is
    where a function stops: what it does next is a function of the state
    it finds when [sleep] returns, which is the state the other threads
    have left. *)

From Stdlib Require Import ZArith Lia Bool String.
From stdpp Require Import base tactics option list gmap.

#[local] Open Scope Z_scope.

(** ** Results of kernel code *)

Inductive result (A : Type) : Type :=
| Ok (a : A)
| Panic (msg : string)   (* [panic(msg)]: the machine stops *)
| Undefined.             (* a pointer to no object is followed *)
Arguments Ok {A} a.
Arguments Panic {A} msg.
Arguments Undefined {A}.

#[global] Instance result_ret : MRet result := fun A a => Ok a.
#[global] Instance result_bind : MBind result := fun A B f c =>
  match c with
  | Ok a => f a
  | Panic msg => Panic msg
  | Undefined => Undefined
  end.

Lemma bind_Ok {A B : Type} (c : result A) (k : A -> result B) (b : B) :
  c ≫= k = Ok b -> exists a, c = Ok a /\ k a = Ok b.
Proof. destruct c as [a| |]; cbn; intros H; [eauto | discriminate..]. Qed.

(** Splits a hypothesis [x ← c; k x = Ok b] into [c = Ok a] and
    [k a = Ok b]. *)
Ltac bind_inv H :=
  let a := fresh "a" in
  let E := fresh "E" in
  apply bind_Ok in H as (a & E & H).

(** ** Machine arithmetic (types.h: [typedef unsigned int uint]) *)

Definition wrap32 (x : Z) : Z := x mod 2 ^ 32.

(** [int]: two's complement on 32 bits. *)
Definition int32 (x : Z) : Z := (x + 2 ^ 31) mod 2 ^ 32 - 2 ^ 31.

(** Linear arithmetic with [mod] and [/] by constants. *)
Ltac lia_mod := Z.div_mod_to_equations; lia.

Lemma wrap32_range x : 0 <= wrap32 x < 2 ^ 32.
Proof. unfold wrap32. apply Z.mod_pos_bound. lia. Qed.

Lemma wrap32_small x : 0 <= x < 2 ^ 32 -> wrap32 x = x.
Proof. intros. unfold wrap32. apply Z.mod_small. lia. Qed.

Lemma int32_small x : - 2 ^ 31 <= x < 2 ^ 31 -> int32 x = x.
Proof. intros. unfold int32. rewrite Z.mod_small; lia. Qed.

(** ** Spin locks (spinlock.c)

    [acquire] panics when the executing CPU already holds the lock and
    [release] panics when it does not.  One flow of control is followed at
    a time, so a lock is the bit "held by the executing CPU". *)

Definition acquire (lk : bool) : result bool :=
  if lk then Panic "acquire" else Ok true.

Definition release (lk : bool) : result bool :=
  if lk then Ok false else Panic "release".

(** ** Byte-addressed memory *)

Definition memory := Z -> Z.

(** [memset(dst, c, n)] *)
Definition memset (m : memory) (dst c n : Z) : memory :=
  fun a => if (dst <=? a) && (a <? dst + n) then c else m a.

(** A little-endian 32-bit store and load (x86). *)
Definition store32 (m : memory) (a x : Z) : memory :=
  fun b =>
    if b =? a then x mod 256
    else if b =? a + 1 then (x / 2 ^ 8) mod 256
    else if b =? a + 2 then (x / 2 ^ 16) mod 256
    else if b =? a + 3 then (x / 2 ^ 24) mod 256
    else m b.

Definition load32 (m : memory) (a : Z) : Z :=
  m a + 2 ^ 8 * m (a + 1) + 2 ^ 16 * m (a + 2) + 2 ^ 24 * m (a + 3).

Lemma word_of_bytes x :
  0 <= x < 2 ^ 32 ->
  x mod 256 + 2 ^ 8 * ((x / 2 ^ 8) mod 256) + 2 ^ 16 * ((x / 2 ^ 16) mod 256)
    + 2 ^ 24 * ((x / 2 ^ 24) mod 256) = x.
Proof.
  change (2 ^ 8) with 256. change (2 ^ 16) with 65536.
  change (2 ^ 24) with 16777216. change (2 ^ 32) with 4294967296.
  intros Hx.
  assert (E1 : x / 65536 = x / 256 / 256)
    by (rewrite Z.div_div by lia; reflexivity).
  assert (E2 : x / 16777216 = x / 256 / 256 / 256)
    by (rewrite !Z.div_div by lia; reflexivity).
  rewrite E1, E2.
  pose proof (Z.div_mod x 256 ltac:(lia)).
  pose proof (Z.div_mod (x / 256) 256 ltac:(lia)).
  pose proof (Z.div_mod (x / 256 / 256) 256 ltac:(lia)).
  pose proof (Z.div_mod (x / 256 / 256 / 256) 256 ltac:(lia)).
  pose proof (Z.mod_pos_bound x 256 ltac:(lia)).
  pose proof (Z.mod_pos_bound (x / 256) 256 ltac:(lia)).
  pose proof (Z.mod_pos_bound (x / 256 / 256) 256 ltac:(lia)).
  pose proof (Z.mod_pos_bound (x / 256 / 256 / 256) 256 ltac:(lia)).
  generalize dependent (x / 256 / 256 / 256 / 256).
  generalize dependent ((x / 256 / 256 / 256) mod 256).
  generalize dependent (x / 256 / 256 / 256).
  generalize dependent ((x / 256 / 256) mod 256).
  generalize dependent (x / 256 / 256).
  generalize dependent ((x / 256) mod 256).
  generalize dependent (x / 256).
  generalize dependent (x mod 256).
  intros. lia.
Qed.

Lemma load32_store32 m a x :
  0 <= x < 2 ^ 32 -> load32 (store32 m a x) a = x.
Proof.
  intros Hx. unfold load32, store32.
  rewrite Z.eqb_refl.
  replace (a + 1 =? a) with false by (symmetry; apply Z.eqb_neq; lia).
  replace (a + 2 =? a) with false by (symmetry; apply Z.eqb_neq; lia).
  replace (a + 3 =? a) with false by (symmetry; apply Z.eqb_neq; lia).
  replace (a + 2 =? a + 1) with false by (symmetry; apply Z.eqb_neq; lia).
  replace (a + 3 =? a + 1) with false by (symmetry; apply Z.eqb_neq; lia).
  replace (a + 3 =? a + 2) with false by (symmetry; apply Z.eqb_neq; lia).
  rewrite !Z.eqb_refl.
  apply word_of_bytes, Hx.
Qed.

Lemma load32_store32_other m a b x :
  a + 4 <= b \/ b + 4 <= a -> load32 (store32 m a x) b = load32 m b.
Proof.
  intros H. unfold load32, store32.
  repeat match goal with
         | |- context [?u =? ?v] =>
             replace (u =? v) with false by (symmetry; apply Z.eqb_neq; lia)
         end.
  reflexivity.
Qed.

(** * kalloc.c: the physical page allocator *)

Module Kalloc.

(** kalloc.c: "Allocates 4096-byte pages." *)
Definition PGSIZE : Z := 4096.

Section Allocator.

(** memlayout.h and the linker script are not among the sources: the
    first address after the kernel image ([end]) and the two layout
    constants stay parameters. *)
Variables (kernel_end KERNBASE PHYSTOP : Z).

(** Modelled from the spec: the macro [V2P] of memlayout.h, which is not
    among the sources.  The kernel region starts at [KERNBASE] and maps
    physical memory from 0 on, so the physical address of the kernel
    address [a] is [a - KERNBASE], in [uint] arithmetic. *)
Definition V2P (a : Z) : Z := wrap32 (a - KERNBASE).

(** [struct { struct spinlock lock; int use_lock; struct run *freelist; } kmem],
    together with the memory the intrusive list lives in. *)
Record kmem := {
  mem : memory;
  lock : bool;
  use_lock : Z;
  freelist : Z;
}.

(** The test in front of [panic("kfree")], negated. *)
Definition kfree_accepts (v : Z) : bool :=
  negb (negb (v mod PGSIZE =? 0) || (v <? kernel_end) || (V2P v >=? PHYSTOP)).

Definition kfree (k : kmem) (v : Z) : result kmem :=
  if negb (kfree_accepts v) then Panic "kfree"
  else
    (* Fill with junk to catch dangling refs. *)
    let m1 := memset (mem k) v 1 PGSIZE in
    lk1 ← (if use_lock k =? 0 then Ok (lock k) else acquire (lock k));
    let r := v in
    let m2 := store32 m1 r (freelist k) in       (* r->next = kmem.freelist *)
    lk2 ← (if use_lock k =? 0 then Ok lk1 else release lk1);
    Ok {| mem := m2; lock := lk2; use_lock := use_lock k; freelist := r |}.

Definition kalloc (k : kmem) : result (Z * kmem) :=
  lk1 ← (if use_lock k =? 0 then Ok (lock k) else acquire (lock k));
  let r := freelist k in
  let fl := if r =? 0 then freelist k else load32 (mem k) r in  (* r->next *)
  lk2 ← (if use_lock k =? 0 then Ok lk1 else release lk1);
  Ok (r, {| mem := mem k; lock := lk2; use_lock := use_lock k; freelist := fl |}).

(** The caller does not hold [kmem.lock] (or locking is still off, as
    during [kinit1]). *)
Definition lock_free (k : kmem) : Prop := use_lock k = 0 \/ lock k = false.

Lemma kfree_ok (k : kmem) (v : Z) :
  kfree_accepts v = true -> lock_free k ->
  kfree k v =
    Ok {| mem := store32 (memset (mem k) v 1 PGSIZE) v (freelist k);
          lock := lock k; use_lock := use_lock k; freelist := v |}.
Proof.
  intros Hacc Hlk. unfold kfree. rewrite Hacc. cbn [negb].
  destruct Hlk as [H | H]; rewrite H.
  - reflexivity.
  - destruct (use_lock k =? 0); reflexivity.
Qed.

Lemma kalloc_ok (k : kmem) :
  lock_free k ->
  kalloc k =
    Ok (freelist k,
        {| mem := mem k; lock := lock k; use_lock := use_lock k;
           freelist := if freelist k =? 0 then freelist k
                       else load32 (mem k) (freelist k) |}).
Proof.
  intros Hlk. unfold kalloc.
  destruct Hlk as [H | H]; rewrite H.
  - reflexivity.
  - destruct (use_lock k =? 0); reflexivity.
Qed.

(** A page that passes the test of [kfree] is not the null pointer: the
    kernel image ends above address 0. *)
Lemma kfree_accepts_nonzero (v : Z) :
  0 < kernel_end -> kfree_accepts v = true -> v <> 0.
Proof.
  unfold kfree_accepts. intros Hend Hacc Hv. subst v.
  apply negb_true_iff in Hacc.
  apply orb_false_iff in Hacc as [Hacc _].
  apply orb_false_iff in Hacc as [_ Hacc].
  apply Z.ltb_ge in Hacc. lia.
Qed.

(** C8. The allocator is LIFO.  For a page [v] that passes the test of
    [kfree], [kfree v] makes [v] the head of the free list with the old
    head as its [next] field, and the [kalloc] that follows returns
    exactly [v] and leaves the free list as it was before the [kfree];
    [kalloc] on an empty list ([freelist = 0]) returns 0 and is no
    panic. *)
Theorem kalloc_kfree_lifo (k : kmem) (v : Z) :
  0 < kernel_end ->
  0 <= freelist k < 2 ^ 32 ->
  lock_free k ->
  kfree_accepts v = true ->
  (exists k1 k2,
      kfree k v = Ok k1 /\
      freelist k1 = v /\ load32 (mem k1) v = freelist k /\
      kalloc k1 = Ok (v, k2) /\
      freelist k2 = freelist k) /\
  (freelist k = 0 -> exists k', kalloc k = Ok (0, k') /\ freelist k' = 0).
Proof.
  intros Hend Hfl Hlk Hacc. split.
  - eexists. eexists.
    split; [apply kfree_ok; assumption|].
    cbn [freelist mem].
    split; [reflexivity|].
    split; [apply load32_store32; assumption|].
    split.
    + rewrite kalloc_ok by exact Hlk. cbn [freelist mem lock use_lock].
      reflexivity.
    + cbn [freelist].
      pose proof (kfree_accepts_nonzero v Hend Hacc) as Hv.
      apply Z.eqb_neq in Hv. rewrite Hv.
      apply load32_store32; assumption.
  - intros Hz. eexists. split.
    + rewrite kalloc_ok by exact Hlk. rewrite Hz. reflexivity.
    + reflexivity.
Qed.

End Allocator.

(** The layout of the stock kernel: [KERNBASE = 0x80000000],
    [PHYSTOP = 0xE000000], and an image that ends at [0x80116000]. *)
Definition boot_end : Z := 0x80116000.
Definition boot_KERNBASE : Z := 0x80000000.
Definition boot_PHYSTOP : Z := 0xE000000.

Definition boot_kmem : kmem :=
  {| mem := fun _ => 0; lock := false; use_lock := 1; freelist := 0x803ff000 |}.

Definition boot_page : Z := 0x80400000.

Lemma kalloc_kfree_lifo_witness :
  (exists k1 k2,
      kfree boot_end boot_KERNBASE boot_PHYSTOP boot_kmem boot_page = Ok k1 /\
      freelist k1 = boot_page /\
      load32 (mem k1) boot_page = freelist boot_kmem /\
      kalloc k1 = Ok (boot_page, k2) /\
      freelist k2 = freelist boot_kmem) /\
  (freelist boot_kmem = 0 ->
   exists k', kalloc boot_kmem = Ok (0, k') /\ freelist k' = 0).
Proof.
  apply (kalloc_kfree_lifo boot_end boot_KERNBASE boot_PHYSTOP boot_kmem boot_page).
  - unfold boot_end. lia.
  - cbn. lia.
  - right. reflexivity.
  - vm_compute. reflexivity.
Defined.

End Kalloc.

(** * log.c: the redo log *)

Module Log.

(** [struct logheader { int n; int block[LOGSIZE]; }] *)
Record logheader := {
  n : Z;
  block : list Z;
}.

(** [struct log] *)
Record log := {
  lock : bool;
  start : Z;
  size : Z;
  outstanding : Z;   (* how many FS sys calls are executing. *)
  committing : Z;    (* in commit(), please wait. *)
  dev : Z;
  lh : logheader;
}.

Definition set_lock (l : log) (lk : bool) : log :=
  {| lock := lk; start := start l; size := size l;
     outstanding := outstanding l; committing := committing l;
     dev := dev l; lh := lh l |}.

Definition set_outstanding (l : log) (x : Z) : log :=
  {| lock := lock l; start := start l; size := size l;
     outstanding := x; committing := committing l;
     dev := dev l; lh := lh l |}.

Definition set_committing (l : log) (x : Z) : log :=
  {| lock := lock l; start := start l; size := size l;
     outstanding := outstanding l; committing := x;
     dev := dev l; lh := lh l |}.

Definition set_n (l : log) (x : Z) : log :=
  {| lock := lock l; start := start l; size := size l;
     outstanding := outstanding l; committing := committing l;
     dev := dev l; lh := {| n := x; block := block (lh l) |} |}.

(** ** begin_op

    The body of [begin_op] is a [while(1)] around two branches.  In the
    branch taken when [log.committing] is set there are two calls of
    [sleep(&log, &log.lock)] one after the other; the other branch admits
    the caller.  [sleep] gives up [log.lock] while the thread is off the
    CPU and holds it again when it returns, so a thread inside [begin_op]
    is at one of two places whenever it is not running. *)

Inductive begin_pc :=
| AtLoopHead        (* about to test [log.committing] *)
| AfterFirstSleep.  (* back from the first [sleep], about to call the second *)

Inductive begin_outcome :=
| Entered (l : log)                 (* [break]: the function returns *)
| Asleep (pc : begin_pc) (l : log). (* inside [sleep], to be resumed at [pc] *)

(** One stretch of [begin_op] run with [log.lock] held, from [pc] to the
    next [sleep] or to the return. *)
Definition begin_op_run (pc : begin_pc) (l : log) : result begin_outcome :=
  match pc with
  | AtLoopHead =>
      if negb (committing l =? 0) then
        lk ← release (lock l);                       (* sleep(&log, &log.lock) *)
        Ok (Asleep AfterFirstSleep (set_lock l lk))
      else
        let l := set_outstanding l (int32 (outstanding l + 1)) in
        lk ← release (lock l);
        Ok (Entered (set_lock l lk))
  | AfterFirstSleep =>
      lk ← release (lock l);                         (* sleep(&log, &log.lock) *)
      Ok (Asleep AtLoopHead (set_lock l lk))
  end.

(** Entry: [acquire(&log.lock)], then the loop. *)
Definition begin_op (l : log) : result begin_outcome :=
  lk ← acquire (lock l);
  begin_op_run AtLoopHead (set_lock l lk).

(** Return from [sleep]: the lock is taken again and the code goes on
    from where it stopped, on the log as the other threads left it. *)
Definition begin_op_wake (pc : begin_pc) (l : log) : result begin_outcome :=
  lk ← acquire (lock l);
  begin_op_run pc (set_lock l lk).

(** ** end_op and commit *)

Section Commit.

(** The three disk routines under [commit].  The text of [write_log] and
    of [write_head] uses buffers ([from], [buf]) that no line of log.c
    declares, so what they do to the disk is left open here; nothing
    below depends on it. *)
Context {disk : Type}.
Variables (write_log write_head install_trans : log -> disk -> disk).

Definition commit (l : log) (d : disk) : log * disk :=
  if n (lh l) >? 0 then
    let d := write_log l d in       (* Write modified blocks from cache to log *)
    let d := write_head l d in      (* Write header to disk -- the real commit *)
    let d := install_trans l d in   (* Now install writes to home locations *)
    let l := set_n l 0 in
    let d := write_head l d in      (* Erase the transaction from the log *)
    (l, d)
  else (l, d).

(** The statements of [end_op] in the order of the text.  After
    [acquire(&log.lock)] the next statement is [panic("log.committing")],
    with no test in front of it and no [log.outstanding -= 1] before it.
    [wakeup(&log)] touches the process table only. *)
Definition end_op (l : log) (d : disk) : result (log * disk) :=
  let do_commit := 0 in
  lk ← acquire (lock l);
  let l := set_lock l lk in
  _ ← (Panic "log.committing" : result unit);
  let '(l, do_commit) :=
    if outstanding l =? 0 then (set_committing l 1, 1)
    else (l, do_commit) in                           (* wakeup(&log) *)
  lk ← release (lock l);
  let l := set_lock l lk in
  if do_commit =? 0 then Ok (l, d)
  else
    (* call commit w/o holding locks, since not allowed to sleep with locks. *)
    let '(l, d) := commit l d in
    lk ← acquire (lock l);
    let l := set_committing (set_lock l lk) 0 in     (* wakeup(&log) *)
    lk ← release (lock l);
    Ok (set_lock l lk, d).

End Commit.

(** ** What the code does *)

(** With the lock free, [begin_op] admits the caller exactly when
    [log.committing] is clear; nothing else is looked at. *)
Lemma begin_op_enters (l : log) :
  lock l = false -> committing l = 0 ->
  begin_op l = Ok (Entered (set_outstanding l (int32 (outstanding l + 1)))).
Proof.
  intros Hlk Hc. unfold begin_op, begin_op_run. rewrite Hlk. cbn.
  rewrite Hc. cbn. unfold set_outstanding, set_lock. cbn. rewrite Hlk.
  reflexivity.
Qed.

Lemma begin_op_waits (l : log) :
  lock l = false -> committing l <> 0 ->
  begin_op l = Ok (Asleep AfterFirstSleep l).
Proof.
  intros Hlk Hc. unfold begin_op, begin_op_run. rewrite Hlk. cbn.
  apply Z.eqb_neq in Hc. rewrite Hc. cbn.
  unfold set_lock. cbn. destruct l; cbn in *. subst. reflexivity.
Qed.

(** The parameters of the stock kernel (param.h is not among the
    sources): [MAXOPBLOCKS = 10], [LOGSIZE = MAXOPBLOCKS*3]. *)
Definition stock_MAXOPBLOCKS : Z := 10.
Definition stock_LOGSIZE : Z := 30.

(** Three system calls are inside their transactions, no commit runs. *)
Definition busy_log : log :=
  {| lock := false; start := 2; size := 30; outstanding := 3;
     committing := 0; dev := 1; lh := {| n := 0; block := [] |} |}.

(** C1. [begin_op] on a log with three operations outstanding and no
    commit in progress: a fourth operation would need
    [(3+1) * MAXOPBLOCKS = 40 > 30 = LOGSIZE] blocks, and the code admits
    it all the same, returning with [log.outstanding = 4]. *)
Theorem begin_op_enters_past_log_space :
  (outstanding busy_log + 1) * stock_MAXOPBLOCKS > stock_LOGSIZE /\
  begin_op busy_log = Ok (Entered (set_outstanding busy_log 4)).
Proof. split; [reflexivity | reflexivity]. Qed.

(** One system call is inside its transaction and now calls [end_op]. *)
Definition last_op_log : log :=
  {| lock := false; start := 2; size := 30; outstanding := 1;
     committing := 0; dev := 1; lh := {| n := 2; block := [40; 41] |} |}.

(** C2. [end_op] never gets as far as the decrement: on every log it
    stops in a panic, ["log.committing"] when the caller does not hold
    [log.lock]; so for the last operation outstanding nothing is
    committed and [log.outstanding] stays 1. *)
Theorem end_op_panics :
  forall (disk : Type) (write_log write_head install_trans : log -> disk -> disk)
         (l : log) (d : disk),
    end_op write_log write_head install_trans l d =
      Panic (if lock l then "acquire" else "log.committing") /\
    end_op write_log write_head install_trans last_op_log d =
      Panic "log.committing".
Proof.
  intros. split; [|reflexivity].
  unfold end_op. destruct (lock l); reflexivity.
Qed.

End Log.

(** * file.c and pipe.c: open files and pipes *)

Module Pipe.

Definition PIPESIZE : Z := 512.

(** [struct pipe]; [nread] and [nwrite] are [uint]. *)
Record pipe := {
  lock : bool;
  data : list Z;     (* char data[PIPESIZE] *)
  nread : Z;         (* number of bytes read *)
  nwrite : Z;        (* number of bytes written *)
  readopen : Z;      (* read fd is still open *)
  writeopen : Z;     (* write fd is still open *)
}.

Definition set_lock (p : pipe) (lk : bool) : pipe :=
  {| lock := lk; data := data p; nread := nread p; nwrite := nwrite p;
     readopen := readopen p; writeopen := writeopen p |}.

Definition set_nread (p : pipe) (x : Z) : pipe :=
  {| lock := lock p; data := data p; nread := x; nwrite := nwrite p;
     readopen := readopen p; writeopen := writeopen p |}.

Definition set_readopen (p : pipe) (x : Z) : pipe :=
  {| lock := lock p; data := data p; nread := nread p; nwrite := nwrite p;
     readopen := x; writeopen := writeopen p |}.

Definition set_writeopen (p : pipe) (x : Z) : pipe :=
  {| lock := lock p; data := data p; nread := nread p; nwrite := nwrite p;
     readopen := readopen p; writeopen := x |}.

(** [p->data[p->nwrite++ % PIPESIZE] = c] *)
Definition put_byte (p : pipe) (c : Z) : pipe :=
  {| lock := lock p;
     data := <[Z.to_nat (nwrite p mod PIPESIZE) := c]> (data p);
     nread := nread p; nwrite := wrap32 (nwrite p + 1);
     readopen := readopen p; writeopen := writeopen p |}.

(** [p->data[p->nread % PIPESIZE]] *)
Definition front_byte (p : pipe) : Z :=
  default 0 (data p !! Z.to_nat (nread p mod PIPESIZE)).

(** ** piperead, on the pipe [p] points to *)

Inductive read_outcome :=
| ReadReturn (out : list Z) (ret : Z)  (* [addr[0..)] as filled, and the value returned *)
| ReadAsleep.                          (* in [sleep(&p->nread, &p->lock)] *)

(** The copy loop [for(i = 0; i < n; i++)], with [n - i] iterations to go
    and [out] = [addr[0..i)]. *)
Fixpoint piperead_copy (togo : nat) (p : pipe) (out : list Z) : pipe * list Z :=
  match togo with
  | O => (p, out)
  | S togo' =>
      if nread p =? nwrite p then (p, out)
      else piperead_copy togo' (set_nread p (wrap32 (nread p + 1)))
                         (out ++ [front_byte p])
  end.

(** From the head of the [while] loop, [p->lock] held.  [killed] is
    [myproc()->killed] as read in this stretch. *)
Definition piperead_run (p : pipe) (killed n : Z) : result (pipe * read_outcome) :=
  if (nread p =? nwrite p) && negb (writeopen p =? 0) then
    if negb (killed =? 0) then
      lk ← release (lock p);
      Ok (set_lock p lk, ReadReturn [] (-1))
    else
      lk ← release (lock p);                       (* sleep *)
      Ok (set_lock p lk, ReadAsleep)
  else
    let '(p, out) := piperead_copy (Z.to_nat n) p [] in
    lk ← release (lock p);                         (* wakeup(&p->nwrite) *)
    Ok (set_lock p lk, ReadReturn out (Z.of_nat (length out))).

(** Entry, and return from [sleep]: both take the lock and stand at the
    head of the [while] loop. *)
Definition piperead_pipe (p : pipe) (killed n : Z) : result (pipe * read_outcome) :=
  lk ← acquire (lock p);
  piperead_run (set_lock p lk) killed n.

(** ** pipewrite, on the pipe [p] points to *)

Inductive write_outcome :=
| WriteReturn (ret : Z)
| WriteAsleep (rest : list Z).  (* in [sleep(&p->nwrite, &p->lock)]; [rest] = [addr[i..n)] *)

(** The [for] loop from index [i], where [rest] = [addr[i..n)]; [n] is
    only needed for the value returned. *)
Fixpoint pipewrite_run (p : pipe) (killed : Z) (rest : list Z) (n : Z)
  : result (pipe * write_outcome) :=
  match rest with
  | [] =>
      lk ← release (lock p);                       (* wakeup(&p->nread) *)
      Ok (set_lock p lk, WriteReturn n)
  | c :: rest' =>
      if nwrite p =? wrap32 (nread p + PIPESIZE) then
        if (readopen p =? 0) || negb (killed =? 0) then
          lk ← release (lock p);
          Ok (set_lock p lk, WriteReturn (-1))
        else
          lk ← release (lock p);                   (* wakeup; sleep *)
          Ok (set_lock p lk, WriteAsleep rest)
      else pipewrite_run (put_byte p c) killed rest' n
  end.

(** Entry ([rest] = [addr[0..n)]), and return from [sleep] inside the
    [while] ([rest] = what is still to be written). *)
Definition pipewrite_pipe (p : pipe) (killed : Z) (rest : list Z) (n : Z)
  : result (pipe * write_outcome) :=
  lk ← acquire (lock p);
  pipewrite_run (set_lock p lk) killed rest n.

(** ** Open files (file.c)

    file.h is not among the sources; the fields are those file.c,
    pipe.c and sysfile.c use. *)

Inductive ftype := FD_NONE | FD_PIPE | FD_INODE.

Record file := {
  type : ftype;
  ref : Z;          (* reference count *)
  readable : Z;
  writable : Z;
  fpipe : Z;        (* struct pipe *pipe *)
  ip : Z;           (* struct inode *ip *)
  off : Z;
}.

Definition set_ref (f : file) (x : Z) : file :=
  {| type := type f; ref := x; readable := readable f; writable := writable f;
     fpipe := fpipe f; ip := ip f; off := off f |}.

Definition set_type (f : file) (t : ftype) : file :=
  {| type := t; ref := ref f; readable := readable f; writable := writable f;
     fpipe := fpipe f; ip := ip f; off := off f |}.

(** [f->type = FD_PIPE; f->readable = r; f->writable = w; f->pipe = p] *)
Definition set_pipe_end (f : file) (r w p : Z) : file :=
  {| type := FD_PIPE; ref := ref f; readable := r; writable := w;
     fpipe := p; ip := ip f; off := off f |}.

(** The allocator, the file table [ftable] with its lock, and the pages
    that hold a pipe, by address. *)
Record fstate := {
  kmem : Kalloc.kmem;
  ftable_lock : bool;
  ftable : list file;
  pipes : gmap Z pipe;
}.

Definition set_kmem (s : fstate) (k : Kalloc.kmem) : fstate :=
  {| kmem := k; ftable_lock := ftable_lock s; ftable := ftable s; pipes := pipes s |}.

Definition set_ftable_lock (s : fstate) (lk : bool) : fstate :=
  {| kmem := kmem s; ftable_lock := lk; ftable := ftable s; pipes := pipes s |}.

Definition set_ftable (s : fstate) (t : list file) : fstate :=
  {| kmem := kmem s; ftable_lock := ftable_lock s; ftable := t; pipes := pipes s |}.

Definition set_pipes (s : fstate) (m : gmap Z pipe) : fstate :=
  {| kmem := kmem s; ftable_lock := ftable_lock s; ftable := ftable s; pipes := m |}.

(** A pointer to a pipe is the address of its page. *)

Definition piperead (s : fstate) (p : Z) (killed n : Z)
  : result (fstate * read_outcome) :=
  match pipes s !! p with
  | None => Undefined
  | Some pp =>
      '(pp', o) ← piperead_pipe pp killed n;
      Ok (set_pipes s (<[p := pp']> (pipes s)), o)
  end.

Definition pipewrite (s : fstate) (p : Z) (killed : Z) (rest : list Z) (n : Z)
  : result (fstate * write_outcome) :=
  match pipes s !! p with
  | None => Undefined
  | Some pp =>
      '(pp', o) ← pipewrite_pipe pp killed rest n;
      Ok (set_pipes s (<[p := pp']> (pipes s)), o)
  end.

Section WithLayout.

Variables (kernel_end KERNBASE PHYSTOP : Z).

Definition pipeclose (s : fstate) (p : Z) (writable : Z) : result fstate :=
  match pipes s !! p with
  | None => Undefined
  | Some pp =>
      lk ← acquire (lock pp);
      let pp := set_lock pp lk in
      let pp := if negb (writable =? 0)
                then set_writeopen pp 0              (* wakeup(&p->nread) *)
                else set_readopen pp 0 in            (* wakeup(&p->nwrite) *)
      if (readopen pp =? 0) && (writeopen pp =? 0) then
        _ ← release (lock pp);
        k ← Kalloc.kfree kernel_end KERNBASE PHYSTOP (kmem s) p;
        Ok (set_kmem (set_pipes s (delete p (pipes s))) k)
      else
        lk ← release (lock pp);
        Ok (set_pipes s (<[p := set_lock pp lk]> (pipes s)))
  end.

(** [filealloc]: the first entry with [ref == 0], as an index into
    [ftable.file]; [None] is the null pointer. *)
Fixpoint filealloc_scan (t : list file) (i : nat) : option nat :=
  match t with
  | [] => None
  | f :: t' => if ref f =? 0 then Some i else filealloc_scan t' (S i)
  end.

Definition filealloc (s : fstate) : result (fstate * option nat) :=
  lk ← acquire (ftable_lock s);
  match filealloc_scan (ftable s) 0 with
  | Some i =>
      let t := alter (fun f => set_ref f 1) i (ftable s) in
      lk ← release lk;
      Ok (set_ftable_lock (set_ftable s t) lk, Some i)
  | None =>
      lk ← release lk;
      Ok (set_ftable_lock s lk, None)
  end.

Definition filedup (s : fstate) (f : nat) : result fstate :=
  match ftable s !! f with
  | None => Undefined
  | Some fl =>
      lk ← acquire (ftable_lock s);
      if ref fl <? 1 then Panic "filedup"
      else
        let t := <[f := set_ref fl (int32 (ref fl + 1))]> (ftable s) in
        lk ← release lk;
        Ok (set_ftable_lock (set_ftable s t) lk)
  end.

(** [begin_op(); iput(ff.ip); end_op();] of [fileclose] belongs to the
    file system, which has no part in the state here, and stays a
    parameter. *)
Variable put_inode : Z -> result unit.

Definition fileclose (s : fstate) (f : nat) : result fstate :=
  match ftable s !! f with
  | None => Undefined
  | Some fl =>
      lk ← acquire (ftable_lock s);
      if ref fl <? 1 then Panic "fileclose"
      else
        let fl' := set_ref fl (int32 (ref fl - 1)) in
        if ref fl' >? 0 then
          lk ← release lk;
          Ok (set_ftable_lock (set_ftable s (<[f := fl']> (ftable s))) lk)
        else
          let ff := fl' in
          let fl' := set_type (set_ref fl' 0) FD_NONE in
          lk ← release lk;
          let s := set_ftable_lock (set_ftable s (<[f := fl']> (ftable s))) lk in
          match type ff with
          | FD_PIPE => pipeclose s (fpipe ff) (writable ff)
          | FD_INODE => _ ← put_inode (ip ff); Ok s
          | FD_NONE => Ok s
          end
  end.

(** What [kfree] leaves in a page: [memset(v, 1, PGSIZE)]. *)
Definition junk : list Z := replicate (Z.to_nat PIPESIZE) 1.

(** The label [bad:] of [pipealloc]. *)
Definition pipealloc_bad (s : fstate) (p : Z) (f0 f1 : option nat)
  : result (fstate * Z * option nat * option nat) :=
  s ← (if negb (p =? 0)
       then k ← Kalloc.kfree kernel_end KERNBASE PHYSTOP (kmem s) p;
            Ok (set_kmem s k)
       else Ok s);
  s ← (match f0 with Some f => fileclose s f | None => Ok s end);
  s ← (match f1 with Some f => fileclose s f | None => Ok s end);
  Ok (s, -1, f0, f1).

(** [pipealloc(&f0, &f1)]: the state, the value returned, and the two
    pointers as left in [*f0] and [*f1]. *)
Definition pipealloc (s : fstate)
  : result (fstate * Z * option nat * option nat) :=
  let p := 0 in
  '(s, f0) ← filealloc s;
  match f0 with
  | None => pipealloc_bad s p None None
  | Some i0 =>
      '(s, f1) ← filealloc s;
      match f1 with
      | None => pipealloc_bad s p f0 None
      | Some i1 =>
          '(p, k) ← Kalloc.kalloc (kmem s);
          let s := set_kmem s k in
          if p =? 0 then pipealloc_bad s p f0 f1
          else
            let pp := {| lock := false; data := junk; nread := 0; nwrite := 0;
                         readopen := 1; writeopen := 1 |} in
            let s := set_pipes s (<[p := pp]> (pipes s)) in
            let t := alter (fun f => set_pipe_end f 1 0 p) i0 (ftable s) in
            let t := alter (fun f => set_pipe_end f 0 1 p) i1 t in
            Ok (set_ftable s t, 0, f0, f1)
      end
  end.

End WithLayout.

(** ** The counters *)

(** [p->nwrite - p->nread], the subtraction of two [uint]: the number of
    bytes in the buffer. *)
Definition occupancy (p : pipe) : Z := wrap32 (nwrite p - nread p).

Definition counters_ok (p : pipe) : Prop :=
  0 <= nread p < 2 ^ 32 /\ 0 <= nwrite p < 2 ^ 32 /\
  0 <= occupancy p <= PIPESIZE.

(** Every page that holds a pipe holds one with sound counters and with
    an end still open. *)
Definition pipe_inv (s : fstate) : Prop :=
  forall a p, pipes s !! a = Some p ->
    counters_ok p /\ (readopen p <> 0 \/ writeopen p <> 0).

Ltac unfold_counters :=
  unfold counters_ok, occupancy, wrap32, PIPESIZE in *;
  change (2 ^ 32) with 4294967296 in *.

(** As long as [nwrite] has not wrapped round past [nread], this is the
    plain difference. *)
Lemma occupancy_plain (p : pipe) :
  0 <= nread p <= nwrite p -> nwrite p < 2 ^ 32 ->
  occupancy p = nwrite p - nread p.
Proof. intros H1 H2. unfold occupancy. apply wrap32_small. lia. Qed.

Lemma counters_ok_take (p : pipe) :
  counters_ok p -> nread p <> nwrite p ->
  counters_ok (set_nread p (wrap32 (nread p + 1))) /\
  occupancy (set_nread p (wrap32 (nread p + 1))) = occupancy p - 1.
Proof.
  unfold counters_ok, occupancy. cbn. unfold_counters.
  intros (Hr & Hw & Ho) Hne.
  repeat split; lia_mod.
Qed.

Lemma counters_ok_put (p : pipe) (c : Z) :
  counters_ok p -> nwrite p <> wrap32 (nread p + PIPESIZE) ->
  counters_ok (put_byte p c) /\
  occupancy (put_byte p c) = occupancy p + 1.
Proof.
  unfold counters_ok, occupancy. cbn. unfold_counters.
  intros (Hr & Hw & Ho) Hne.
  repeat split; lia_mod.
Qed.

(** ** The bytes in the buffer *)

(** The byte the [j]-th coming [addr[i] = p->data[p->nread++ % PIPESIZE]]
    reads. *)
Definition byte_at (p : pipe) (j : nat) : Z :=
  default 0 (data p !! Z.to_nat (wrap32 (nread p + Z.of_nat j) mod PIPESIZE)).

(** The bytes written and not yet read, oldest first. *)
Definition contents (p : pipe) : list Z :=
  map (byte_at p) (seq 0 (Z.to_nat (occupancy p))).

Definition pipe_wf (p : pipe) : Prop :=
  counters_ok p /\ length (data p) = Z.to_nat PIPESIZE.

Lemma contents_length (p : pipe) :
  length (contents p) = Z.to_nat (occupancy p).
Proof. unfold contents. rewrite length_map, length_seq. reflexivity. Qed.

Lemma contents_take (p : pipe) :
  counters_ok p -> nread p <> nwrite p ->
  contents p = front_byte p :: contents (set_nread p (wrap32 (nread p + 1))).
Proof.
  intros Hok Hne.
  destruct (counters_ok_take p Hok Hne) as [_ Hocc].
  unfold contents. rewrite Hocc.
  assert (Hpos : 1 <= occupancy p).
  { revert Hok Hne. unfold_counters. intros (Hr & Hw & Ho) Hne. lia_mod. }
  replace (Z.to_nat (occupancy p)) with (S (Z.to_nat (occupancy p - 1))) by lia.
  cbn [seq map]. f_equal.
  - unfold byte_at, front_byte. destruct Hok as (Hr & _).
    cbn [Z.of_nat]. rewrite Z.add_0_r, (wrap32_small (nread p)) by exact Hr.
    reflexivity.
  - rewrite <- seq_shift, map_map. apply map_ext. intros j.
    unfold byte_at. cbn [data nread set_nread]. do 3 f_equal.
    unfold wrap32, PIPESIZE. change (2 ^ 32) with 4294967296. lia_mod.
Qed.

Lemma contents_put (p : pipe) (c : Z) :
  pipe_wf p -> nwrite p <> wrap32 (nread p + PIPESIZE) ->
  contents (put_byte p c) = contents p ++ [c].
Proof.
  intros [Hok Hlen] Hne.
  destruct (counters_ok_put p c Hok Hne) as [_ Hocc].
  unfold contents. rewrite Hocc.
  assert (Hd : 0 <= occupancy p < PIPESIZE).
  { revert Hok Hne. unfold_counters. intros (Hr & Hw & Ho) Hne. lia_mod. }
  replace (Z.to_nat (occupancy p + 1)) with (Z.to_nat (occupancy p) + 1)%nat by lia.
  rewrite seq_app, map_app. cbn [seq map]. f_equal.
  - apply map_ext_in. intros j Hj. apply in_seq in Hj.
    unfold byte_at. cbn [data nread put_byte]. f_equal.
    apply list_lookup_insert_ne.
    destruct Hok as (Hr & Hw & Ho).
    revert Hr Hw Ho Hd Hne Hj. unfold_counters. intros.
    intros Heq. apply Z2Nat.inj in Heq; lia_mod.
  - f_equal. unfold byte_at. cbn [data nread put_byte].
    replace (wrap32 (nread p + Z.of_nat (0 + Z.to_nat (occupancy p))) mod PIPESIZE)
      with (nwrite p mod PIPESIZE).
    + rewrite list_lookup_insert_eq; [reflexivity|].
      rewrite Hlen. unfold PIPESIZE. lia_mod.
    + destruct Hok as (Hr & Hw & Ho).
      revert Hr Hw Ho Hd. unfold_counters. intros.
      rewrite Nat.add_0_l, Z2Nat.id by lia. lia_mod.
Qed.

(** The copy loop hands out the oldest bytes, as many as there are and
    at most [togo]. *)
Lemma piperead_copy_spec (togo : nat) :
  forall (p : pipe) (out : list Z),
    counters_ok p ->
    exists p',
      piperead_copy togo p out = (p', out ++ take togo (contents p)) /\
      counters_ok p' /\
      contents p' = drop togo (contents p) /\
      lock p' = lock p /\ data p' = data p /\ nwrite p' = nwrite p /\
      readopen p' = readopen p /\ writeopen p' = writeopen p.
Proof.
  induction togo as [|togo IH]; intros p out Hok.
  - exists p. cbn. rewrite app_nil_r, drop_0. auto 10.
  - cbn [piperead_copy]. destruct (nread p =? nwrite p) eqn:He.
    + apply Z.eqb_eq in He. exists p.
      assert (Hz : contents p = []).
      { unfold contents, occupancy. rewrite He, Z.sub_diag. reflexivity. }
      rewrite Hz. cbn. rewrite app_nil_r. auto 10.
    + apply Z.eqb_neq in He.
      destruct (counters_ok_take p Hok He) as [Hok' _].
      destruct (IH _ (out ++ [front_byte p]) Hok')
        as (p' & Hrun & Hok'' & Hc & Hl & Hd & Hw & Hro & Hwo).
      exists p'. rewrite Hrun, (contents_take p Hok He).
      cbn [take drop]. rewrite <- app_assoc. cbn [app].
      exact (conj eq_refl (conj Hok'' (conj Hc (conj Hl (conj Hd
               (conj Hw (conj Hro Hwo))))))).
Qed.

(** ** piperead and pipewrite on one pipe *)

Lemma set_lock_same (p : pipe) : set_lock p (lock p) = p.
Proof. destruct p; reflexivity. Qed.

Lemma piperead_pipe_sleeps (p : pipe) (killed n : Z) :
  lock p = false -> nread p = nwrite p -> writeopen p <> 0 -> killed = 0 ->
  piperead_pipe p killed n = Ok (p, ReadAsleep).
Proof.
  intros Hlk He Hw Hk. unfold piperead_pipe, piperead_run. rewrite Hlk. cbn.
  rewrite He, Z.eqb_refl. apply Z.eqb_neq in Hw. rewrite Hw. subst killed. cbn.
  rewrite <- Hlk at 1. unfold set_lock. cbn. destruct p; cbn in *. congruence.
Qed.

Lemma piperead_pipe_killed (p : pipe) (killed n : Z) :
  lock p = false -> nread p = nwrite p -> writeopen p <> 0 -> killed <> 0 ->
  piperead_pipe p killed n = Ok (p, ReadReturn [] (-1)).
Proof.
  intros Hlk He Hw Hk. unfold piperead_pipe, piperead_run. rewrite Hlk. cbn.
  rewrite He, Z.eqb_refl. apply Z.eqb_neq in Hw, Hk. rewrite Hw, Hk. cbn.
  unfold set_lock. cbn. destruct p; cbn in *. congruence.
Qed.

(** Outside the two cases above the call returns at once with the oldest
    bytes, at most [n] of them. *)
Lemma piperead_pipe_reads (p : pipe) (killed n : Z) :
  lock p = false -> counters_ok p ->
  (nread p =? nwrite p) && negb (writeopen p =? 0) = false ->
  exists p',
    piperead_pipe p killed n =
      Ok (p', ReadReturn (take (Z.to_nat n) (contents p))
                         (Z.of_nat (length (take (Z.to_nat n) (contents p))))) /\
    counters_ok p' /\
    contents p' = drop (Z.to_nat n) (contents p) /\
    lock p' = false /\ data p' = data p /\ nwrite p' = nwrite p /\
    readopen p' = readopen p /\ writeopen p' = writeopen p.
Proof.
  intros Hlk Hok Hcond. unfold piperead_pipe, piperead_run. rewrite Hlk. cbn.
  rewrite Hcond.
  destruct (piperead_copy_spec (Z.to_nat n) (set_lock p true) [] Hok)
    as (p1 & Hrun & Hok1 & Hc & Hl & Hd & Hw & Hro & Hwo).
  rewrite Hrun. cbn [app]. rewrite Hl. cbn.
  exists (set_lock p1 false). split; [reflexivity|].
  split; [exact Hok1|]. auto 10.
Qed.

Lemma pipewrite_run_inv (killed n : Z) (rest : list Z) :
  forall p : pipe,
    lock p = true -> counters_ok p ->
    exists p' o,
      pipewrite_run p killed rest n = Ok (p', o) /\
      counters_ok p' /\ lock p' = false /\
      readopen p' = readopen p /\ writeopen p' = writeopen p.
Proof.
  induction rest as [|c rest IH]; intros p Hlk Hok; cbn [pipewrite_run].
  - rewrite Hlk. cbn. eexists. eexists. split; [reflexivity|]. auto.
  - destruct (nwrite p =? wrap32 (nread p + PIPESIZE)) eqn:Hfull.
    + destruct ((readopen p =? 0) || negb (killed =? 0));
        rewrite Hlk; cbn; eexists; eexists; (split; [reflexivity|]); auto.
    + apply Z.eqb_neq in Hfull.
      destruct (counters_ok_put p c Hok Hfull) as [Hok' _].
      destruct (IH (put_byte p c) Hlk Hok') as (p' & o & Hrun & H1 & H2 & H3 & H4).
      exists p', o. auto.
Qed.

(** Bytes that fit are all written, behind the bytes already there. *)
Lemma pipewrite_run_fits (killed n : Z) (bs : list Z) :
  forall p : pipe,
    lock p = true -> pipe_wf p ->
    occupancy p + Z.of_nat (length bs) <= PIPESIZE ->
    exists p',
      pipewrite_run p killed bs n = Ok (p', WriteReturn n) /\
      pipe_wf p' /\ contents p' = contents p ++ bs /\ lock p' = false /\
      nread p' = nread p /\
      readopen p' = readopen p /\ writeopen p' = writeopen p.
Proof.
  induction bs as [|c bs IH]; intros p Hlk Hwf Hfit; cbn [pipewrite_run].
  - rewrite Hlk. cbn. eexists. split; [reflexivity|].
    rewrite app_nil_r. split; [exact Hwf|]. auto.
  - assert (Hfull : nwrite p <> wrap32 (nread p + PIPESIZE)).
    { destruct Hwf as [(Hr & Hw & Ho) _]. cbn [length] in Hfit.
      revert Hr Hw Ho Hfit. unfold_counters. intros. lia_mod. }
    pose proof Hfull as Hfull'. apply Z.eqb_neq in Hfull'. rewrite Hfull'.
    destruct Hwf as [Hok Hlen].
    destruct (counters_ok_put p c Hok Hfull) as [Hok' Hocc].
    assert (Hwf' : pipe_wf (put_byte p c)).
    { split; [exact Hok'|]. cbn [data put_byte]. rewrite length_insert. exact Hlen. }
    destruct (IH (put_byte p c) Hlk Hwf') as (p' & Hrun & H1 & H2 & H3 & H4 & H5 & H6).
    { rewrite Hocc. cbn [length] in Hfit. lia. }
    exists p'. rewrite Hrun, H2, (contents_put p c (conj Hok Hlen) Hfull).
    rewrite <- app_assoc. cbn [app]. auto 10.
Qed.

(** ** The pipe invariant, operation by operation *)

Lemma set_pipes_same (s : fstate) : set_pipes s (pipes s) = s.
Proof. destruct s; reflexivity. Qed.

Lemma pipe_inv_insert (s : fstate) (a : Z) (p : pipe) :
  pipe_inv s -> counters_ok p -> (readopen p <> 0 \/ writeopen p <> 0) ->
  pipe_inv (set_pipes s (<[a := p]> (pipes s))).
Proof.
  intros Hinv Hok Hopen b q. cbn [pipes set_pipes]. rewrite lookup_insert.
  case_decide as Hab.
  - intros [= <-]. auto.
  - apply Hinv.
Qed.

Lemma piperead_inv (s s' : fstate) (p killed n : Z) (o : read_outcome) :
  pipe_inv s -> piperead s p killed n = Ok (s', o) -> pipe_inv s'.
Proof.
  intros Hinv H. unfold piperead in H.
  destruct (pipes s !! p) as [pp|] eqn:Hp; [|discriminate].
  destruct (Hinv _ _ Hp) as [Hok Hopen].
  bind_inv H. destruct a as [pp' o']. injection H as <- <-.
  assert (counters_ok pp' /\ readopen pp' = readopen pp /\ writeopen pp' = writeopen pp)
    as (Hok' & Hro & Hwo).
  { destruct (lock pp) eqn:Hlk.
    { unfold piperead_pipe in E. rewrite Hlk in E. discriminate. }
    destruct ((nread pp =? nwrite pp) && negb (writeopen pp =? 0)) eqn:Hc.
    - apply andb_true_iff in Hc as [He Hw].
      apply Z.eqb_eq in He. apply negb_true_iff, Z.eqb_neq in Hw.
      destruct (Z.eq_dec killed 0) as [Hk|Hk].
      + rewrite (piperead_pipe_sleeps pp killed n Hlk He Hw Hk) in E.
        injection E as <- <-. auto.
      + rewrite (piperead_pipe_killed pp killed n Hlk He Hw Hk) in E.
        injection E as <- <-. auto.
    - destruct (piperead_pipe_reads pp killed n Hlk Hok Hc)
        as (p1 & Hrun & Hok1 & _ & _ & _ & _ & Hro & Hwo).
      rewrite Hrun in E. injection E as <- <-. auto. }
  apply pipe_inv_insert; [assumption..|]. rewrite Hro, Hwo. exact Hopen.
Qed.

Lemma pipewrite_inv (s s' : fstate) (p killed : Z) (rest : list Z) (n : Z)
      (o : write_outcome) :
  pipe_inv s -> pipewrite s p killed rest n = Ok (s', o) -> pipe_inv s'.
Proof.
  intros Hinv H. unfold pipewrite in H.
  destruct (pipes s !! p) as [pp|] eqn:Hp; [|discriminate].
  destruct (Hinv _ _ Hp) as [Hok Hopen].
  bind_inv H. destruct a as [pp' o']. injection H as <- <-.
  unfold pipewrite_pipe in E. destruct (lock pp) eqn:Hlk; [discriminate|].
  cbn in E.
  destruct (pipewrite_run_inv killed n rest (set_lock pp true) eq_refl Hok)
    as (p1 & o1 & Hrun & Hok1 & _ & Hro & Hwo).
  rewrite Hrun in E. injection E as <- <-.
  apply pipe_inv_insert; [assumption..|]. rewrite Hro, Hwo. exact Hopen.
Qed.

Section Facts.

Variables (kernel_end KERNBASE PHYSTOP : Z).
Variable put_inode : Z -> result unit.

(** Which end is still open decides what the close of the other one
    does: the flags after [pipeclose(p, writable)] are both clear exactly
    when the end that stays was closed before. *)
Definition last_close (pp : pipe) (writable : Z) : Prop :=
  if writable =? 0 then writeopen pp = 0 else readopen pp = 0.

Lemma pipeclose_inv (s s' : fstate) (p writable : Z) :
  pipe_inv s ->
  pipeclose kernel_end KERNBASE PHYSTOP s p writable = Ok s' ->
  pipe_inv s' /\
  (forall pp, pipes s !! p = Some pp -> last_close pp writable ->
              pipes s' !! p = None /\ Kalloc.freelist (kmem s') = p) /\
  (forall pp, pipes s !! p = Some pp -> ~ last_close pp writable ->
              exists pp', pipes s' !! p = Some pp' /\ kmem s' = kmem s).
Proof.
  intros Hinv H. unfold pipeclose in H.
  destruct (pipes s !! p) as [pp|] eqn:Hp; [|discriminate].
  destruct (Hinv _ _ Hp) as [Hok Hopen].
  bind_inv H. destruct (lock pp) eqn:Hlk; [discriminate|].
  injection E as <-. cbn [negb] in H.
  set (pp1 := if negb (writable =? 0)
              then set_writeopen (set_lock pp true) 0
              else set_readopen (set_lock pp true) 0) in *.
  assert (Hok1 : counters_ok pp1).
  { unfold pp1. destruct (negb (writable =? 0)); exact Hok. }
  assert (Hlk1 : lock pp1 = true).
  { unfold pp1. destruct (negb (writable =? 0)); reflexivity. }
  assert (Hlast : (readopen pp1 =? 0) && (writeopen pp1 =? 0) = true
                  <-> last_close pp writable).
  { unfold pp1, last_close. destruct (writable =? 0); cbn.
    - rewrite ?andb_true_l. apply Z.eqb_eq.
    - rewrite ?andb_true_r. apply Z.eqb_eq. }
  destruct ((readopen pp1 =? 0) && (writeopen pp1 =? 0)) eqn:Hboth.
  - bind_inv H. bind_inv H. injection H as <-.
    split; [|split].
    + intros b q. cbn [pipes set_pipes set_kmem]. rewrite lookup_delete.
      case_decide; [discriminate|]. apply Hinv.
    + intros pp0 _ _. cbn [pipes set_pipes set_kmem kmem].
      rewrite lookup_delete_eq. split; [reflexivity|].
      unfold Kalloc.kfree in E0.
      destruct (negb (Kalloc.kfree_accepts kernel_end KERNBASE PHYSTOP p));
        [discriminate|].
      bind_inv E0. bind_inv E0. injection E0 as <-. reflexivity.
    + intros pp0 Hp0 Hn. injection Hp0 as <-.
      exfalso. apply Hn, Hlast. reflexivity.
  - bind_inv H. injection H as <-.
    split; [|split].
    + apply pipe_inv_insert; [exact Hinv|exact Hok1|].
      apply andb_false_iff in Hboth as [Hb|Hb]; apply Z.eqb_neq in Hb; auto.
    + intros pp0 Hp0 Hl. injection Hp0 as <-.
      apply Hlast in Hl. discriminate.
    + intros pp0 _ _. cbn [pipes set_pipes kmem]. rewrite lookup_insert_eq. eauto.
Qed.

Lemma filealloc_pipes (s s' : fstate) (f : option nat) :
  filealloc s = Ok (s', f) -> pipes s' = pipes s.
Proof.
  unfold filealloc. intros H. bind_inv H.
  destruct (filealloc_scan (ftable s) 0); bind_inv H; injection H as <- <-;
    reflexivity.
Qed.

Lemma fileclose_inv (s s' : fstate) (f : nat) :
  pipe_inv s ->
  fileclose kernel_end KERNBASE PHYSTOP put_inode s f = Ok s' -> pipe_inv s'.
Proof.
  intros Hinv H. unfold fileclose in H.
  destruct (ftable s !! f) as [fl|]; [|discriminate].
  bind_inv H. destruct (ref fl <? 1); [discriminate|].
  destruct (ref (set_ref fl (int32 (ref fl - 1))) >? 0).
  - bind_inv H. injection H as <-. exact Hinv.
  - bind_inv H.
    destruct (type (set_ref fl (int32 (ref fl - 1)))).
    + injection H as <-. exact Hinv.
    + apply pipeclose_inv in H; [apply H | exact Hinv].
    + bind_inv H. injection H as <-. exact Hinv.
Qed.

Lemma pipealloc_bad_inv (s s' : fstate) (p r : Z) (f0 f1 g0 g1 : option nat) :
  pipe_inv s ->
  pipealloc_bad kernel_end KERNBASE PHYSTOP put_inode s p f0 f1 = Ok (s', r, g0, g1) ->
  pipe_inv s'.
Proof.
  intros Hinv H. unfold pipealloc_bad in H.
  bind_inv H. bind_inv H. bind_inv H. injection H as <- _ _ _.
  assert (H0 : pipe_inv a).
  { destruct (negb (p =? 0)); [|injection E as <-; exact Hinv].
    bind_inv E. injection E as <-. exact Hinv. }
  assert (H1 : pipe_inv a0).
  { destruct f0; [|injection E0 as <-; exact H0].
    eapply fileclose_inv; eassumption. }
  destruct f1; [|injection E1 as <-; exact H1].
  eapply fileclose_inv; eassumption.
Qed.

Lemma pipealloc_inv (s s' : fstate) (r : Z) (f0 f1 : option nat) :
  pipe_inv s ->
  pipealloc kernel_end KERNBASE PHYSTOP put_inode s = Ok (s', r, f0, f1) ->
  pipe_inv s'.
Proof.
  intros Hinv H. unfold pipealloc in H.
  bind_inv H. destruct a as [s1 g0].
  assert (H1 : pipe_inv s1).
  { intros b q. rewrite (filealloc_pipes _ _ _ E). apply Hinv. }
  destruct g0 as [i0|]; [|eapply pipealloc_bad_inv; eassumption].
  bind_inv H. destruct a as [s2 g1].
  assert (H2 : pipe_inv s2).
  { intros b q. rewrite (filealloc_pipes _ _ _ E0). apply H1. }
  destruct g1 as [i1|]; [|eapply pipealloc_bad_inv; eassumption].
  bind_inv H. destruct a as [p k].
  destruct (p =? 0).
  - eapply pipealloc_bad_inv; [|eassumption]. exact H2.
  - injection H as <- _ _ _.
    intros b q. cbn [pipes set_ftable set_pipes set_kmem]. rewrite lookup_insert.
    case_decide.
    + intros [= <-]. split; [|left; discriminate].
      unfold counters_ok, occupancy, wrap32, PIPESIZE. cbn [nread nwrite].
      change (2 ^ 32) with 4294967296. lia_mod.
    + apply H2.
Qed.

End Facts.

(** ** The three statements about pipes *)

Section Claims.

Variables (kernel_end KERNBASE PHYSTOP : Z).
Variable put_inode : Z -> result unit.

(** C4. [pipe_inv] says of every pipe that its counters are sound,
    [0 <= nwrite - nread <= PIPESIZE] with the difference taken as the
    code takes it, on [uint], and that one of its ends is open.  It
    holds again in the state left by [pipealloc], [piperead], [pipewrite]
    and [pipeclose], whether they return or go to sleep; and the
    [pipeclose] that clears the second of the two flags takes the pipe
    out of the state and puts its page at the head of the free list. *)
Theorem pipe_invariant_preserved (s : fstate) :
  pipe_inv s ->
  (forall s' r f0 f1,
      pipealloc kernel_end KERNBASE PHYSTOP put_inode s = Ok (s', r, f0, f1) ->
      pipe_inv s') /\
  (forall p killed n s' o,
      piperead s p killed n = Ok (s', o) -> pipe_inv s') /\
  (forall p killed rest n s' o,
      pipewrite s p killed rest n = Ok (s', o) -> pipe_inv s') /\
  (forall p writable s',
      pipeclose kernel_end KERNBASE PHYSTOP s p writable = Ok s' ->
      pipe_inv s' /\
      (forall pp, pipes s !! p = Some pp -> last_close pp writable ->
                  pipes s' !! p = None /\ Kalloc.freelist (kmem s') = p)).
Proof.
  intros Hinv. split; [|split; [|split]].
  - intros s' r f0 f1 H. eapply pipealloc_inv; eassumption.
  - intros p killed n s' o H. eapply piperead_inv; eassumption.
  - intros p killed rest n s' o H. eapply pipewrite_inv; eassumption.
  - intros p writable s' H.
    destruct (pipeclose_inv kernel_end KERNBASE PHYSTOP s s' p writable Hinv H)
      as (H1 & H2 & _).
    split; assumption.
Qed.

End Claims.

Lemma piperead_copy_empty (togo : nat) (p : pipe) :
  nread p = nwrite p -> piperead_copy togo p [] = (p, []).
Proof.
  intros He. destruct togo; cbn; [reflexivity|].
  rewrite He, Z.eqb_refl. reflexivity.
Qed.

(** C5. A reader that has not been killed finds the buffer empty
    ([nread = nwrite]).  While the write end is open the call sleeps,
    the pipe untouched; woken up it stands at the same test again, so it
    sleeps for as long as that holds.  Once the write end is closed the
    call returns 0 without sleeping. *)
Theorem piperead_empty (s : fstate) (p : Z) (pp : pipe) (n : Z) :
  pipes s !! p = Some pp -> lock pp = false ->
  0 < n -> nread pp = nwrite pp ->
  (writeopen pp <> 0 -> piperead s p 0 n = Ok (s, ReadAsleep)) /\
  (writeopen pp = 0 -> piperead s p 0 n = Ok (s, ReadReturn [] 0)).
Proof.
  intros Hp Hlk Hn He. split; intros Hw; unfold piperead; rewrite Hp.
  - rewrite (piperead_pipe_sleeps pp 0 n Hlk He Hw eq_refl). cbn.
    rewrite insert_id by exact Hp. rewrite set_pipes_same. reflexivity.
  - unfold piperead_pipe, piperead_run. rewrite Hlk. cbn.
    rewrite Hw, andb_false_r.
    rewrite piperead_copy_empty by exact He. cbn.
    replace (set_lock (set_lock pp true) false) with pp
      by (destruct pp; cbn in Hlk; subst; reflexivity).
    rewrite insert_id by exact Hp. rewrite set_pipes_same. reflexivity.
Qed.

Lemma occupancy_zero (p : pipe) :
  counters_ok p -> occupancy p = 0 -> nread p = nwrite p.
Proof. unfold_counters. intros (Hr & Hw & Ho) Hz. lia_mod. Qed.

(** C9. A pipe holds [k] bytes, [1 <= k < n], the write end open.
    [piperead(p, addr, n)] does not sleep: it returns [k] with the [k]
    bytes of the buffer in [addr], oldest first, and leaves the buffer
    empty.  Oldest first is the order of the writes: what [pipewrite]
    puts into a pipe with room for it goes behind the bytes already
    there. *)
Theorem piperead_partial (s : fstate) (p : Z) (pp : pipe) (killed n : Z) :
  pipes s !! p = Some pp -> lock pp = false -> counters_ok pp ->
  writeopen pp <> 0 -> 1 <= occupancy pp < n ->
  (exists pp',
      piperead s p killed n =
        Ok (set_pipes s (<[p := pp']> (pipes s)),
            ReadReturn (contents pp) (occupancy pp)) /\
      Z.of_nat (length (contents pp)) = occupancy pp /\
      nread pp' = nwrite pp' /\ contents pp' = []) /\
  (forall (q : pipe) (bs : list Z),
      lock q = false -> pipe_wf q ->
      occupancy q + Z.of_nat (length bs) <= PIPESIZE ->
      exists q',
        pipewrite_pipe q killed bs (Z.of_nat (length bs)) =
          Ok (q', WriteReturn (Z.of_nat (length bs))) /\
        contents q' = contents q ++ bs).
Proof.
  intros Hp Hlk Hok Hw Hk. split.
  - assert (Hne : (nread pp =? nwrite pp) && negb (writeopen pp =? 0) = false).
    { apply andb_false_iff. left. apply Z.eqb_neq. intros He.
      unfold occupancy in Hk. rewrite He, Z.sub_diag in Hk.
      change (wrap32 0) with 0 in Hk. lia. }
    destruct (piperead_pipe_reads pp killed n Hlk Hok Hne)
      as (pp' & Hrun & Hok' & Hc & _ & _ & _ & _ & _).
    assert (Hall : take (Z.to_nat n) (contents pp) = contents pp).
    { apply take_ge. rewrite contents_length. lia. }
    assert (Hlen : Z.of_nat (length (contents pp)) = occupancy pp).
    { rewrite contents_length. lia. }
    rewrite Hall, Hlen in Hrun.
    assert (Hnil : contents pp' = []).
    { rewrite Hc. apply drop_ge. rewrite contents_length. lia. }
    exists pp'. unfold piperead. rewrite Hp, Hrun. cbn.
    split; [reflexivity|]. split; [exact Hlen|]. split; [|exact Hnil].
    apply occupancy_zero; [exact Hok'|].
    pose proof (contents_length pp') as Hl. rewrite Hnil in Hl. cbn in Hl.
    destruct Hok' as (_ & _ & Ho). lia.
  - intros q bs Hql Hwf Hfit. unfold pipewrite_pipe. rewrite Hql. cbn.
    destruct (pipewrite_run_fits killed (Z.of_nat (length bs)) bs (set_lock q true)
                eq_refl Hwf Hfit) as (q' & Hrun & _ & Hc & _).
    exists q'. split; [exact Hrun | exact Hc].
Qed.

(** ** A pipe at work *)

(** The pipe in the page [boot_page], after ["hi"] was written to it. *)
Definition hi_pipe : pipe :=
  {| lock := false; data := <[0%nat := 104]> (<[1%nat := 105]> junk);
     nread := 0; nwrite := 2; readopen := 1; writeopen := 1 |}.

(** The same pipe once the two bytes are read; and then with the write
    end closed. *)
Definition drained_pipe : pipe := set_nread hi_pipe 2.
Definition eof_pipe : pipe := set_writeopen drained_pipe 0.

Definition with_pipe (pp : pipe) : fstate :=
  {| kmem := Kalloc.boot_kmem; ftable_lock := false; ftable := [];
     pipes := {[ Kalloc.boot_page := pp ]} |}.

Lemma with_pipe_inv (pp : pipe) :
  counters_ok pp -> readopen pp <> 0 \/ writeopen pp <> 0 ->
  pipe_inv (with_pipe pp).
Proof.
  intros Hok Hopen a q H. cbn in H.
  apply lookup_singleton_Some in H as [_ <-]. auto.
Qed.

Lemma hi_pipe_ok : counters_ok hi_pipe.
Proof. unfold_counters. cbn. lia_mod. Qed.

Lemma pipe_invariant_preserved_witness :
  pipe_inv (with_pipe hi_pipe) /\
  (exists s' o, piperead (with_pipe hi_pipe) Kalloc.boot_page 0 1 = Ok (s', o) /\
                pipe_inv s') /\
  (exists s', pipeclose Kalloc.boot_end Kalloc.boot_KERNBASE Kalloc.boot_PHYSTOP
                (with_pipe hi_pipe) Kalloc.boot_page 1 = Ok s' /\
              pipe_inv s').
Proof.
  assert (H : pipe_inv (with_pipe hi_pipe)).
  { apply with_pipe_inv; [exact hi_pipe_ok | left; discriminate]. }
  destruct (pipe_invariant_preserved Kalloc.boot_end Kalloc.boot_KERNBASE
              Kalloc.boot_PHYSTOP (fun _ => Ok tt) (with_pipe hi_pipe) H)
    as (_ & Hr & _ & Hc).
  split; [exact H|]. split.
  - eexists. eexists. split; [vm_compute; reflexivity|].
    eapply (Hr Kalloc.boot_page 0 1). vm_compute. reflexivity.
  - eexists. split; [vm_compute; reflexivity|].
    eapply (Hc Kalloc.boot_page 1). vm_compute. reflexivity.
Defined.

Lemma piperead_empty_witness :
  piperead (with_pipe drained_pipe) Kalloc.boot_page 0 5 =
    Ok (with_pipe drained_pipe, ReadAsleep) /\
  piperead (with_pipe eof_pipe) Kalloc.boot_page 0 5 =
    Ok (with_pipe eof_pipe, ReadReturn [] 0).
Proof.
  split.
  - apply (piperead_empty (with_pipe drained_pipe) Kalloc.boot_page drained_pipe 5);
      [reflexivity | reflexivity | lia | reflexivity | discriminate].
  - apply (piperead_empty (with_pipe eof_pipe) Kalloc.boot_page eof_pipe 5);
      [reflexivity | reflexivity | lia | reflexivity | reflexivity].
Defined.

Lemma piperead_partial_witness :
  exists pp',
    piperead (with_pipe hi_pipe) Kalloc.boot_page 0 5 =
      Ok (set_pipes (with_pipe hi_pipe)
            (<[Kalloc.boot_page := pp']> (pipes (with_pipe hi_pipe))),
          ReadReturn [104; 105] 2) /\
    nread pp' = nwrite pp'.
Proof.
  destruct (piperead_partial (with_pipe hi_pipe) Kalloc.boot_page hi_pipe 0 5)
    as [(pp' & Hrun & _ & He & _) _].
  - reflexivity.
  - reflexivity.
  - exact hi_pipe_ok.
  - discriminate.
  - vm_compute. split; [discriminate | reflexivity].
  - exists pp'. split; [exact Hrun | exact He].
Defined.

End Pipe.

(** * syscall.c: fetching system-call arguments *)

Module Syscall.

(** What the argument helpers read of [struct proc]: the size of the
    user address space, the saved user stack pointer [tf->esp], and the
    user memory itself. *)
Record proc := {
  sz : Z;
  esp : Z;
  umem : memory;
}.

(** What a helper hands back: the value returned, the value stored
    through the out-pointer (if it was stored), and the user addresses
    of the words it read. *)
Record fetched := {
  ret : Z;
  out : option Z;
  touched : list Z;
}.

(** [fetchint(addr, ip)]; the code reads the [int] at [addr], which is
    the four bytes from [addr] on. *)
Definition fetchint (p : proc) (addr : Z) : fetched :=
  if (addr >=? sz p) || (wrap32 (addr + 4) >? sz p) then
    {| ret := -1; out := None; touched := [] |}
  else
    {| ret := 0; out := Some (int32 (load32 (umem p) addr)); touched := [addr] |}.

(** [argint(n, ip)] *)
Definition argint (p : proc) (n : Z) : fetched :=
  fetchint p (wrap32 (esp p + 4 + 4 * n)).

(** [argptr(n, pp, size)]; the pointer stored through [pp] is [i]
    cast to a pointer. *)
Definition argptr (p : proc) (n size : Z) : fetched :=
  let r := argint p n in
  if ret r <? 0 then {| ret := -1; out := None; touched := touched r |}
  else
    let i := default 0 (out r) in
    if (size <? 0) || (wrap32 i >=? sz p) || (wrap32 (wrap32 i + size) >? sz p)
    then {| ret := -1; out := None; touched := touched r |}
    else {| ret := 0; out := Some (wrap32 i); touched := touched r |}.

(** [for(s = *pp; s < ep; s++)] of [fetchstr]: [togo] is [ep - s], and
    [seen] the addresses read so far. *)
Fixpoint fetchstr_loop (togo : nat) (m : memory) (pp s : Z) (seen : list Z) : fetched :=
  match togo with
  | O => {| ret := -1; out := Some pp; touched := seen |}
  | S togo' =>
      if m s =? 0
      then {| ret := int32 (s - pp); out := Some pp; touched := seen ++ [s] |}
      else fetchstr_loop togo' m pp (wrap32 (s + 1)) (seen ++ [s])
  end.

(** [fetchstr(addr, pp)] *)
Definition fetchstr (p : proc) (addr : Z) : fetched :=
  if addr >=? sz p then {| ret := -1; out := None; touched := [] |}
  else fetchstr_loop (Z.to_nat (sz p - addr)) (umem p) addr addr [].

(** [argstr(n, pp)]; the [int] read by [argint] is passed on as a
    [uint]. *)
Definition argstr (p : proc) (n : Z) : fetched :=
  let r := argint p n in
  if ret r <? 0 then {| ret := -1; out := None; touched := touched r |}
  else
    let f := fetchstr p (wrap32 (default 0 (out r))) in
    {| ret := ret f; out := out f; touched := touched r ++ touched f |}.

(** ** The statement as the specification has it *)

(** [argptr] returns 0 with the pointer set only when [size >= 0] and
    [[ptr, ptr+size)] lies in [[0, sz)]; in every other case it returns
    -1 and has read no user memory. *)
Definition argptr_as_specified (p : proc) (n size : Z) : Prop :=
  let r := argptr p n size in
  (ret r = 0 ->
   exists ptr, out r = Some ptr /\ 0 <= size /\ 0 <= ptr /\ ptr + size <= sz p) /\
  (ret r <> 0 -> ret r = -1 /\ touched r = []).

(** A process of one page whose stack holds, as argument 0, the pointer
    [0x1000], one past the end of its memory. *)
Definition one_page : proc :=
  {| sz := 4096; esp := 4000; umem := store32 (fun _ => 0) 4004 4096 |}.

(** ** What the code does *)

Definition arg_addr (p : proc) (n : Z) : Z := wrap32 (esp p + 4 + 4 * n).

Lemma fetchint_spec (p : proc) (addr : Z) :
  0 <= sz p <= 2 ^ 31 -> 0 <= addr < 2 ^ 32 ->
  let r := fetchint p addr in
  (ret r = 0 /\ out r = Some (int32 (load32 (umem p) addr)) /\
   touched r = [addr] /\ addr + 4 <= sz p) \/
  (ret r = -1 /\ out r = None /\ touched r = [] /\ ~ addr + 4 <= sz p).
Proof.
  intros Hsz Ha. unfold fetchint.
  destruct ((addr >=? sz p) || (wrap32 (addr + 4) >? sz p)) eqn:Hc; cbn.
  - right. repeat split; try reflexivity.
    apply orb_true_iff in Hc as [Hc|Hc].
    + apply Z.geb_le in Hc. lia.
    + apply Z.gtb_lt in Hc. revert Hc. unfold wrap32.
      change (2 ^ 32) with 4294967296. change (2 ^ 31) with 2147483648 in Hsz.
      intros. lia_mod.
  - left. repeat split; try reflexivity.
    apply orb_false_iff in Hc as [Hc1 Hc2].
    rewrite Z.geb_leb in Hc1. apply Z.leb_gt in Hc1.
    rewrite Z.gtb_ltb in Hc2. apply Z.ltb_ge in Hc2. revert Hc2. unfold wrap32.
    change (2 ^ 32) with 4294967296. change (2 ^ 31) with 2147483648 in Hsz.
    intros. lia_mod.
Qed.

(** C6, as the code has it.  For a process whose size is at most
    [2^31] (user space ends at [KERNBASE]) and a [size] that is an
    [int]: [argptr] returns 0 with the pointer set only when
    [size >= 0] and [[ptr, ptr+size)] lies in [[0, sz)], and -1
    otherwise.  When the fetch of the argument word fails it has read no
    user memory; when the fetch succeeds it has read the argument word,
    four bytes inside [[0, sz)], and nothing else, also when it goes on
    to return -1. *)
Theorem argptr_checked (p : proc) (n size : Z) :
  0 <= sz p <= 2 ^ 31 -> size < 2 ^ 31 ->
  let r := argptr p n size in
  (ret r = 0 ->
   exists ptr, out r = Some ptr /\ 0 <= size /\ 0 <= ptr /\ ptr + size <= sz p) /\
  (ret r <> 0 -> ret r = -1 /\ out r = None) /\
  (~ arg_addr p n + 4 <= sz p -> ret r = -1 /\ touched r = []) /\
  (arg_addr p n + 4 <= sz p -> touched r = [arg_addr p n]).
Proof.
  intros Hsz Hsize. unfold argptr, argint. fold (arg_addr p n).
  pose proof (wrap32_range (esp p + 4 + 4 * n)) as Ha. fold (arg_addr p n) in Ha.
  destruct (fetchint_spec p (arg_addr p n) Hsz Ha)
    as [(Hr & Ho & Ht & Hin) | (Hr & Ho & Ht & Hout)].
  - rewrite Hr, Ho, Ht. cbn [Z.ltb Z.compare default].
    set (i := int32 (load32 (umem p) (arg_addr p n))).
    match goal with
    | |- context [if ?c then _ else _] => destruct c eqn:Hc
    end; cbn.
    + split; [intros; discriminate|]. split; [auto|]. split; [tauto | auto].
    + apply orb_false_iff in Hc as [Hc Hc3].
      apply orb_false_iff in Hc as [Hc1 Hc2].
      apply Z.ltb_ge in Hc1.
      rewrite Z.geb_leb in Hc2. apply Z.leb_gt in Hc2.
      rewrite Z.gtb_ltb in Hc3. apply Z.ltb_ge in Hc3.
      unfold id in *.
      pose proof (wrap32_range i) as Hi.
      split; [|split; [congruence | split; [tauto | auto]]].
      intros _. exists (wrap32 i). split; [reflexivity|].
      split; [lia|]. split; [lia|].
      revert Hc3. generalize dependent (wrap32 i). intros w Hw1 Hw2.
      unfold wrap32. change (2 ^ 32) with 4294967296 in *.
      change (2 ^ 31) with 2147483648 in *. intros. lia_mod.
  - rewrite Hr, Ht. cbn.
    split; [intros; discriminate|]. split; [auto|]. split; [auto | tauto].
Qed.

Lemma argptr_checked_witness :
  let r := argptr one_page 0 1 in
  (ret r = 0 ->
   exists ptr, out r = Some ptr /\ 0 <= 1 /\ 0 <= ptr /\ ptr + 1 <= sz one_page) /\
  (ret r <> 0 -> ret r = -1 /\ out r = None) /\
  (~ arg_addr one_page 0 + 4 <= sz one_page -> ret r = -1 /\ touched r = []) /\
  (arg_addr one_page 0 + 4 <= sz one_page -> touched r = [arg_addr one_page 0]).
Proof.
  apply (argptr_checked one_page 0 1).
  - cbn. lia.
  - lia.
Defined.

(** C6, as specified, fails on [one_page]: the argument word is read,
    the pointer in it is out of range, and [argptr] returns -1 having
    read user memory at [esp + 4]. *)
Lemma argptr_reads_before_rejecting : ~ argptr_as_specified one_page 0 1.
Proof.
  unfold argptr_as_specified. intros [_ H].
  assert (Hret : ret (argptr one_page 0 1) <> 0) by (vm_compute; discriminate).
  destruct (H Hret) as [_ Ht]. vm_compute in Ht. discriminate.
Qed.

End Syscall.

(** * sysfile.c: file descriptors *)

Module Sysfile.

(** The running process as these calls see it: what the argument helpers
    read, its open files ([struct file *ofile[NOFILE]], a null pointer
    being [None] and [NOFILE] the length), and the file layer. *)
Record kstate := {
  proc : Syscall.proc;
  ofile : list (option nat);
  files : Pipe.fstate;
}.

Definition set_ofile (s : kstate) (o : list (option nat)) : kstate :=
  {| proc := proc s; ofile := o; files := files s |}.

Definition set_files (s : kstate) (f : Pipe.fstate) : kstate :=
  {| proc := proc s; ofile := ofile s; files := f |}.

Definition set_umem (s : kstate) (m : memory) : kstate :=
  {| proc := {| Syscall.sz := Syscall.sz (proc s);
                Syscall.esp := Syscall.esp (proc s);
                Syscall.umem := m |};
     ofile := ofile s; files := files s |}.

(** [fdalloc(f)]: the loop [for(fd = 0; fd < NOFILE; fd++)] over the
    table, from slot [fd] on; the value returned and the table. *)
Fixpoint fdalloc_from (fd : Z) (ofile : list (option nat)) (f : nat)
  : Z * list (option nat) :=
  match ofile with
  | [] => (-1, [])
  | None :: rest => (fd, Some f :: rest)
  | Some g :: rest =>
      let '(r, rest') := fdalloc_from (fd + 1) rest f in (r, Some g :: rest')
  end.

Definition fdalloc (ofile : list (option nat)) (f : nat) : Z * list (option nat) :=
  fdalloc_from 0 ofile f.

(** [argfd(n, pfd, pf)]: [None] for -1, else the descriptor and the
    file. *)
Definition argfd (s : kstate) (n : Z) : option (Z * nat) :=
  let a := Syscall.argint (proc s) n in
  if Syscall.ret a <? 0 then None
  else
    let fd := default 0 (Syscall.out a) in
    if (fd <? 0) || (fd >=? Z.of_nat (length (ofile s))) then None
    else
      match ofile s !! Z.to_nat fd with
      | Some (Some f) => Some (fd, f)
      | _ => None
      end.

Definition sys_dup (s : kstate) : result (kstate * Z) :=
  match argfd s 0 with
  | None => Ok (s, -1)
  | Some (_, f) =>
      let '(fd, o) := fdalloc (ofile s) f in
      if fd <? 0 then Ok (s, -1)
      else
        fs ← Pipe.filedup (files s) f;
        Ok (set_files (set_ofile s o) fs, fd)
  end.

Section WithLayout.

Variables (kernel_end KERNBASE PHYSTOP : Z).
Variable put_inode : Z -> result unit.

Definition sys_pipe (s : kstate) : result (kstate * Z) :=
  let a := Syscall.argptr (proc s) 0 (2 * 4) in      (* 2*sizeof(fd[0]) *)
  if Syscall.ret a <? 0 then Ok (s, -1)
  else
    let fd := default 0 (Syscall.out a) in
    '(fs, r, rf, wf) ← Pipe.pipealloc kernel_end KERNBASE PHYSTOP put_inode (files s);
    let s := set_files s fs in
    if r <? 0 then Ok (s, -1)
    else
      match rf, wf with
      | Some rf, Some wf =>
          let '(fd0, o1) := fdalloc (ofile s) rf in
          let '(fd1, o2) := if fd0 <? 0 then (0, o1) else fdalloc o1 wf in
          if (fd0 <? 0) || (fd1 <? 0) then
            let o := if fd0 >=? 0 then <[Z.to_nat fd0 := None]> o1 else o1 in
            fs ← Pipe.fileclose kernel_end KERNBASE PHYSTOP put_inode (files s) rf;
            fs ← Pipe.fileclose kernel_end KERNBASE PHYSTOP put_inode fs wf;
            Ok (set_files (set_ofile s o) fs, -1)
          else
            let m := store32 (Syscall.umem (proc s)) fd (wrap32 fd0) in   (* fd[0] = fd0 *)
            let m := store32 m (fd + 4) (wrap32 fd1) in                   (* fd[1] = fd1 *)
            Ok (set_umem (set_ofile s o2) m, 0)
      | _, _ => Undefined
      end.

End WithLayout.

Section WithFileSystem.

Variables (kernel_end KERNBASE PHYSTOP : Z).
Variable put_inode : Z -> result unit.

(** fcntl.h and stat.h are not among the sources: the open modes and
    the inode types stay parameters. *)
Variables (O_RDONLY O_WRONLY O_RDWR O_CREATE T_DIR T_FILE : Z).

(** The calls into log.c and fs.c.  The log and the inodes have no part
    in the state here, so each call is what it returns: a panic, or a
    value.  [create] and [namei] read the path in user memory and give a
    pointer to an inode, 0 for none; [inode_type ip] is [ip->type] of a
    locked inode. *)
Variables (begin_op end_op : result unit).
Variable create : memory -> Z -> Z -> Z -> Z -> result Z.
Variable namei : memory -> Z -> result Z.
Variables (ilock iunlock iunlockput : Z -> result unit).
Variable inode_type : Z -> Z.

(** [f->type = FD_INODE; f->ip = ip; f->off = 0;
    f->readable = !(omode & O_WRONLY);
    f->writable = (omode & O_WRONLY) || (omode & O_RDWR);] *)
Definition open_inode (f : Pipe.file) (ip omode : Z) : Pipe.file :=
  {| Pipe.type := Pipe.FD_INODE; Pipe.ref := Pipe.ref f;
     Pipe.readable := if Z.land omode O_WRONLY =? 0 then 1 else 0;
     Pipe.writable := if negb (Z.land omode O_WRONLY =? 0)
                         || negb (Z.land omode O_RDWR =? 0) then 1 else 0;
     Pipe.fpipe := Pipe.fpipe f; Pipe.ip := ip; Pipe.off := 0 |}.

(** The first half of [sys_open], from [begin_op()] to the inode:
    [Some ip] when the text goes on to [filealloc] with the inode [ip],
    [None] when it has returned -1. *)
Definition sys_open_inode (m : memory) (path omode : Z) : result (option Z) :=
  _ ← begin_op;
  if negb (Z.land omode O_CREATE =? 0) then
    ip ← create m path T_FILE 0 0;
    if ip =? 0 then _ ← end_op; Ok None
    else Ok (Some ip)
  else
    ip ← namei m path;
    if ip =? 0 then _ ← end_op; Ok None
    else
      _ ← ilock ip;
      if (inode_type ip =? T_DIR) && negb (omode =? O_RDONLY) then
        _ ← iunlockput ip;
        _ ← end_op;
        Ok None
      else Ok (Some ip).

(** The second half, from [filealloc] on. *)
Definition sys_open_file (s : kstate) (ip omode : Z) : result (kstate * Z) :=
  '(fs, f) ← Pipe.filealloc (files s);
  let s := set_files s fs in
  match f with
  | None =>
      _ ← iunlockput ip;
      _ ← end_op;
      Ok (s, -1)
  | Some f =>
      let '(fd, o) := fdalloc (ofile s) f in
      if fd <? 0 then
        fs ← Pipe.fileclose kernel_end KERNBASE PHYSTOP put_inode (files s) f;
        _ ← iunlockput ip;
        _ ← end_op;
        Ok (set_files s fs, -1)
      else
        _ ← iunlock ip;
        _ ← end_op;
        let t := alter (fun fl => open_inode fl ip omode) f (Pipe.ftable (files s)) in
        Ok (set_files (set_ofile s o) (Pipe.set_ftable (files s) t), fd)
  end.

Definition sys_open (s : kstate) : result (kstate * Z) :=
  let a := Syscall.argstr (proc s) 0 in
  if Syscall.ret a <? 0 then Ok (s, -1)
  else
    let path := default 0 (Syscall.out a) in
    let b := Syscall.argint (proc s) 1 in
    if Syscall.ret b <? 0 then Ok (s, -1)
    else
      let omode := default 0 (Syscall.out b) in
      r ← sys_open_inode (Syscall.umem (proc s)) path omode;
      match r with
      | None => Ok (s, -1)
      | Some ip => sys_open_file s ip omode
      end.

End WithFileSystem.

(** ** Lowest slot first *)

(** Slot [fd] is free and no slot below it is. *)
Definition lowest_free (ofile : list (option nat)) (fd : nat) : Prop :=
  ofile !! fd = Some None /\
  forall j, (j < fd)%nat -> ofile !! j <> Some None.

Lemma fdalloc_from_free (ofile : list (option nat)) (f : nat) :
  forall (base : Z) (i : nat),
    ofile !! i = Some None ->
    exists fd, lowest_free ofile fd /\
               fdalloc_from base ofile f = (base + Z.of_nat fd, <[fd := Some f]> ofile).
Proof.
  induction ofile as [|x rest IH]; intros base i Hi.
  - discriminate.
  - destruct x as [g|].
    + destruct i as [|i]; [discriminate|]. cbn in Hi.
      destruct (IH (base + 1) i Hi) as (fd & [Hfree Hlow] & Hrun).
      exists (S fd). split.
      * split; [exact Hfree|]. intros [|j] Hj; [discriminate|].
        apply Hlow. lia.
      * cbn [fdalloc_from]. rewrite Hrun. cbn. f_equal. lia.
    + exists 0%nat. split.
      * split; [reflexivity|]. intros j Hj. lia.
      * cbn. f_equal. lia.
Qed.

Lemma fdalloc_from_full (ofile : list (option nat)) (f : nat) :
  forall base : Z,
    (forall i, ofile !! i <> Some None) ->
    fdalloc_from base ofile f = (-1, ofile).
Proof.
  induction ofile as [|x rest IH]; intros base Hfull.
  - reflexivity.
  - destruct x as [g|].
    + cbn [fdalloc_from]. rewrite IH; [reflexivity|].
      intros i. apply (Hfull (S i)).
    + exfalso. apply (Hfull 0%nat). reflexivity.
Qed.

Lemma lowest_free_unique (ofile : list (option nat)) (a b : nat) :
  lowest_free ofile a -> lowest_free ofile b -> a = b.
Proof.
  intros [Ha La] [Hb Lb].
  destruct (Nat.lt_trichotomy a b) as [H|[H|H]]; [|exact H|].
  - exfalso. apply (Lb a H Ha).
  - exfalso. apply (La b H Hb).
Qed.

Lemma free_slot_dec (ofile : list (option nat)) :
  (exists i, ofile !! i = Some None) \/ (forall i, ofile !! i <> Some None).
Proof.
  induction ofile as [|x rest IH].
  - right. intros i. discriminate.
  - destruct x as [g|].
    + destruct IH as [[i Hi]|Hfull].
      * left. exists (S i). exact Hi.
      * right. intros [|i]; [discriminate|]. apply Hfull.
    + left. exists 0%nat. reflexivity.
Qed.

(** Whatever [fdalloc] returns is [-1] on a full table and the lowest
    free slot otherwise. *)
Lemma fdalloc_cases (ofile : list (option nat)) (f : nat) :
  (fdalloc ofile f = (-1, ofile) /\ forall i, ofile !! i <> Some None) \/
  (exists fd, lowest_free ofile fd /\
              fdalloc ofile f = (Z.of_nat fd, <[fd := Some f]> ofile)).
Proof.
  destruct (free_slot_dec ofile) as [[i Hi]|Hfull].
  - right. destruct (fdalloc_from_free ofile f 0 i Hi) as (fd & Hlow & Hrun).
    exists fd. split; [exact Hlow|]. exact Hrun.
  - left. split; [|exact Hfull]. apply fdalloc_from_full, Hfull.
Qed.

Lemma lowest_free_lt (ofile : list (option nat)) (fd : nat) :
  lowest_free ofile fd -> (fd < length ofile)%nat.
Proof. intros [H _]. apply lookup_lt_Some in H. exact H. Qed.

Lemma sys_dup_lowest (s s' : kstate) (r : Z) :
  sys_dup s = Ok (s', r) -> 0 <= r ->
  exists fd g f,
    r = Z.of_nat fd /\ lowest_free (ofile s) fd /\
    argfd s 0 = Some (g, f) /\ ofile s' = <[fd := Some f]> (ofile s).
Proof.
  unfold sys_dup. intros H Hr.
  destruct (argfd s 0) as [[g f]|] eqn:Hfd.
  2: { injection H as <- <-. lia. }
  destruct (fdalloc_cases (ofile s) f) as [[Hrun _]|(fd & Hlow & Hrun)];
    rewrite Hrun in H.
  - cbn in H. injection H as <- <-. lia.
  - replace (Z.of_nat fd <? 0) with false in H by (symmetry; apply Z.ltb_ge; lia).
    bind_inv H. injection H as <- <-.
    exists fd, g, f. auto.
Qed.

Section Pipes.

Variables (kernel_end KERNBASE PHYSTOP : Z).
Variable put_inode : Z -> result unit.

Lemma sys_pipe_lowest (s s' : kstate) :
  Z.of_nat (length (ofile s)) < 2 ^ 31 ->
  sys_pipe kernel_end KERNBASE PHYSTOP put_inode s = Ok (s', 0) ->
  exists ptr rf wf fd0 fd1,
    Syscall.out (Syscall.argptr (proc s) 0 8) = Some ptr /\
    lowest_free (ofile s) fd0 /\
    lowest_free (<[fd0 := Some rf]> (ofile s)) fd1 /\
    ofile s' = <[fd1 := Some wf]> (<[fd0 := Some rf]> (ofile s)) /\
    load32 (Syscall.umem (proc s')) ptr = Z.of_nat fd0 /\
    load32 (Syscall.umem (proc s')) (ptr + 4) = Z.of_nat fd1.
Proof.
  intros Hlen H. unfold sys_pipe in H. change (2 * 4) with 8 in H.
  destruct (Syscall.ret (Syscall.argptr (proc s) 0 8) <? 0) eqn:Hret.
  { injection H as _ H. discriminate. }
  assert (Hout : exists ptr, Syscall.out (Syscall.argptr (proc s) 0 8) = Some ptr).
  { revert Hret. unfold Syscall.argptr.
    repeat match goal with
           | |- context [if ?c then _ else _] => destruct c
           end; cbn; intros; try discriminate; eauto. }
  destruct Hout as [ptr Hout]. rewrite Hout in H. cbn [default from_option id] in H.
  unfold id in H.
  bind_inv H. destruct a as [[[fs r] [rf|]] [wf|]];
    cbn [set_files ofile files proc] in H;
    destruct (r <? 0); try discriminate;
    try (injection H as _ H; discriminate).
  destruct (fdalloc_cases (ofile s) rf) as [[Hrun0 _]|(fd0 & Hlow0 & Hrun0)];
    rewrite Hrun0 in H.
  { cbn in H. bind_inv H. bind_inv H. injection H as _ H. discriminate. }
  replace (Z.of_nat fd0 <? 0) with false in H by (symmetry; apply Z.ltb_ge; lia).
  destruct (fdalloc_cases (<[fd0 := Some rf]> (ofile s)) wf)
    as [[Hrun1 _]|(fd1 & Hlow1 & Hrun1)]; rewrite Hrun1 in H.
  { cbn in H. bind_inv H. bind_inv H. injection H as _ H. discriminate. }
  replace (Z.of_nat fd1 <? 0) with false in H by (symmetry; apply Z.ltb_ge; lia).
  cbn [orb] in H. injection H as <-.
  pose proof (lowest_free_lt _ _ Hlow0) as Hb0.
  pose proof (lowest_free_lt _ _ Hlow1) as Hb1.
  rewrite length_insert in Hb1.
  exists ptr, rf, wf, fd0, fd1. cbn [ofile set_umem set_ofile proc Syscall.umem].
  change (2 ^ 31) with 2147483648 in Hlen.
  rewrite !wrap32_small by (change (2 ^ 32) with 4294967296; lia).
  split; [exact Hout|]. split; [exact Hlow0|]. split; [exact Hlow1|].
  split; [reflexivity|]. split.
  - rewrite load32_store32_other by lia.
    apply load32_store32. change (2 ^ 32) with 4294967296. lia.
  - apply load32_store32. change (2 ^ 32) with 4294967296. lia.
Qed.

End Pipes.

(** What [sys_dup] does once [argfd] has found the file. *)
Lemma sys_dup_runs (s : kstate) (g : Z) (f : nat) :
  argfd s 0 = Some (g, f) ->
  ((exists i, ofile s !! i = Some None) ->
   exists fd, lowest_free (ofile s) fd /\
              sys_dup s =
                fs ← Pipe.filedup (files s) f;
                Ok ({| proc := proc s; ofile := <[fd := Some f]> (ofile s);
                       files := fs |}, Z.of_nat fd)) /\
  ((forall i, ofile s !! i <> Some None) -> sys_dup s = Ok (s, -1)).
Proof.
  intros Hfd. unfold sys_dup. rewrite Hfd. split.
  - intros [i Hi].
    destruct (fdalloc_from_free (ofile s) f 0 i Hi) as (fd & Hlow & Hrun).
    exists fd. split; [exact Hlow|]. unfold fdalloc. rewrite Hrun.
    replace (0 + Z.of_nat fd <? 0) with false by (symmetry; apply Z.ltb_ge; lia).
    reflexivity.
  - intros Hfull. unfold fdalloc. rewrite (fdalloc_from_full _ f 0 Hfull). reflexivity.
Qed.

Section Runs.

Variables (kernel_end KERNBASE PHYSTOP : Z).
Variable put_inode : Z -> result unit.

(** What [sys_pipe] does once [pipealloc] has made the two files. *)
Lemma sys_pipe_runs (s : kstate) (ptr : Z) (fs : Pipe.fstate) (rf wf fd0 fd1 : nat) :
  Syscall.ret (Syscall.argptr (proc s) 0 8) = 0 ->
  Syscall.out (Syscall.argptr (proc s) 0 8) = Some ptr ->
  Pipe.pipealloc kernel_end KERNBASE PHYSTOP put_inode (files s)
    = Ok (fs, 0, Some rf, Some wf) ->
  lowest_free (ofile s) fd0 -> lowest_free (<[fd0 := Some rf]> (ofile s)) fd1 ->
  sys_pipe kernel_end KERNBASE PHYSTOP put_inode s =
    Ok ({| proc := {| Syscall.sz := Syscall.sz (proc s);
                      Syscall.esp := Syscall.esp (proc s);
                      Syscall.umem :=
                        store32 (store32 (Syscall.umem (proc s)) ptr
                                         (wrap32 (Z.of_nat fd0)))
                                (ptr + 4) (wrap32 (Z.of_nat fd1)) |};
           ofile := <[fd1 := Some wf]> (<[fd0 := Some rf]> (ofile s));
           files := fs |}, 0).
Proof.
  intros Hret Hout Hpa Hlow0 Hlow1. unfold sys_pipe. change (2 * 4) with 8.
  rewrite Hret, Hout, Hpa. cbn [Z.ltb Z.compare default mbind result_bind].
  cbn [set_files ofile files proc].
  destruct Hlow0 as [Hf0 Hl0].
  destruct (fdalloc_from_free (ofile s) rf 0 fd0 Hf0) as (a & Hlowa & Hrun0).
  rewrite (lowest_free_unique _ a fd0 Hlowa (conj Hf0 Hl0)) in Hrun0.
  unfold fdalloc. rewrite Hrun0.
  replace (0 + Z.of_nat fd0 <? 0) with false by (symmetry; apply Z.ltb_ge; lia).
  destruct Hlow1 as [Hf1 Hl1].
  destruct (fdalloc_from_free (<[fd0 := Some rf]> (ofile s)) wf 0 fd1 Hf1)
    as (b & Hlowb & Hrun1).
  rewrite (lowest_free_unique _ b fd1 Hlowb (conj Hf1 Hl1)) in Hrun1.
  rewrite Hrun1.
  replace (0 + Z.of_nat fd1 <? 0) with false by (symmetry; apply Z.ltb_ge; lia).
  cbn [orb]. unfold id. rewrite !Z.add_0_l. reflexivity.
Qed.

Section Opens.

Variables (O_RDONLY O_WRONLY O_RDWR O_CREATE T_DIR T_FILE : Z).
Variables (begin_op end_op : result unit).
Variable create : memory -> Z -> Z -> Z -> Z -> result Z.
Variable namei : memory -> Z -> result Z.
Variables (ilock iunlock iunlockput : Z -> result unit).
Variable inode_type : Z -> Z.

(** What the second half of [sys_open] does once [filealloc] has found
    a file. *)
Lemma sys_open_file_runs (s : kstate) (ip omode : Z) (fs : Pipe.fstate) (f : nat) :
  Pipe.filealloc (files s) = Ok (fs, Some f) ->
  ((exists i, ofile s !! i = Some None) ->
   exists fd, lowest_free (ofile s) fd /\
              sys_open_file kernel_end KERNBASE PHYSTOP put_inode O_WRONLY O_RDWR
                            end_op iunlock iunlockput s ip omode =
                _ ← iunlock ip;
                _ ← end_op;
                Ok ({| proc := proc s; ofile := <[fd := Some f]> (ofile s);
                       files := Pipe.set_ftable fs
                                  (alter (fun fl => open_inode O_WRONLY O_RDWR fl ip omode)
                                         f (Pipe.ftable fs)) |},
                    Z.of_nat fd)) /\
  ((forall i, ofile s !! i <> Some None) ->
   sys_open_file kernel_end KERNBASE PHYSTOP put_inode O_WRONLY O_RDWR
                 end_op iunlock iunlockput s ip omode =
     fs' ← Pipe.fileclose kernel_end KERNBASE PHYSTOP put_inode fs f;
     _ ← iunlockput ip;
     _ ← end_op;
     Ok ({| proc := proc s; ofile := ofile s; files := fs' |}, -1)).
Proof.
  intros Hfa. unfold sys_open_file. rewrite Hfa. cbn [mbind result_bind].
  cbn [set_files ofile files proc]. split.
  - intros [i Hi].
    destruct (fdalloc_from_free (ofile s) f 0 i Hi) as (fd & Hlow & Hrun).
    exists fd. split; [exact Hlow|]. unfold fdalloc. rewrite Hrun.
    replace (0 + Z.of_nat fd <? 0) with false by (symmetry; apply Z.ltb_ge; lia).
    reflexivity.
  - intros Hfull. unfold fdalloc. rewrite (fdalloc_from_full _ f 0 Hfull).
    reflexivity.
Qed.

(** A descriptor [sys_open] returns is the lowest that was free. *)
Lemma sys_open_lowest (s s' : kstate) (r : Z) :
  sys_open kernel_end KERNBASE PHYSTOP put_inode O_RDONLY O_WRONLY O_RDWR O_CREATE
           T_DIR T_FILE begin_op end_op create namei ilock iunlock iunlockput
           inode_type s = Ok (s', r) ->
  0 <= r ->
  exists fd f, r = Z.of_nat fd /\ lowest_free (ofile s) fd /\
               ofile s' = <[fd := Some f]> (ofile s).
Proof.
  unfold sys_open. intros H Hr.
  destruct (Syscall.ret (Syscall.argstr (proc s) 0) <? 0).
  { injection H as <- <-. lia. }
  destruct (Syscall.ret (Syscall.argint (proc s) 1) <? 0).
  { injection H as <- <-. lia. }
  bind_inv H. destruct a as [ip|].
  2: { injection H as <- <-. lia. }
  unfold sys_open_file in H. bind_inv H. destruct a as [fs [f|]].
  2: { bind_inv H. bind_inv H. injection H as <- <-. lia. }
  cbn [set_files ofile files proc] in H.
  destruct (fdalloc_cases (ofile s) f) as [[Hrun _]|(fd & Hlow & Hrun)];
    rewrite Hrun in H.
  - cbn in H. bind_inv H. bind_inv H. bind_inv H. injection H as <- <-. lia.
  - replace (Z.of_nat fd <? 0) with false in H by (symmetry; apply Z.ltb_ge; lia).
    bind_inv H. bind_inv H. injection H as <- <-.
    exists fd, f. auto.
Qed.

End Opens.

End Runs.

(** C10. A table with a free slot: [fdalloc] returns the lowest free
    index and puts the file there, the rest of the table as it was; a
    table without one: [fdalloc] returns -1.  The three calls that take
    a descriptor take it from [fdalloc], and when the table has a free
    slot each of them hands out the lowest one.  [sys_dup], once [argfd]
    has found the file, puts the file into the lowest free slot and
    returns that index (after [filedup]).  [sys_open], once it holds the
    inode and [filealloc] has found a file, puts the file into the
    lowest free slot and returns that index (after [iunlock] and
    [end_op]).  [sys_pipe], once [pipealloc] has made the two files,
    puts the read end into the lowest free slot and the write end into
    the lowest slot free after that, and stores the two indices through
    its argument.  And whatever descriptor one of the three returns (or
    stores) when it returns is the lowest that was free. *)
Theorem fdalloc_lowest_first :
  (forall (ofile : list (option nat)) (f : nat),
      (exists i, ofile !! i = Some None) ->
      exists fd, lowest_free ofile fd /\
                 fdalloc ofile f = (Z.of_nat fd, <[fd := Some f]> ofile)) /\
  (forall (ofile : list (option nat)) (f : nat),
      (forall i, ofile !! i <> Some None) -> fdalloc ofile f = (-1, ofile)) /\
  (forall (s : kstate) (g : Z) (f : nat),
      argfd s 0 = Some (g, f) -> (exists i, ofile s !! i = Some None) ->
      exists fd, lowest_free (ofile s) fd /\
                 sys_dup s =
                   fs ← Pipe.filedup (files s) f;
                   Ok ({| proc := proc s; ofile := <[fd := Some f]> (ofile s);
                          files := fs |}, Z.of_nat fd)) /\
  (forall (s s' : kstate) (r : Z),
      sys_dup s = Ok (s', r) -> 0 <= r ->
      exists fd, r = Z.of_nat fd /\ lowest_free (ofile s) fd) /\
  (forall (kernel_end KERNBASE PHYSTOP : Z) (put_inode : Z -> result unit)
          (O_RDONLY O_WRONLY O_RDWR O_CREATE T_DIR T_FILE : Z)
          (begin_op end_op : result unit)
          (create : memory -> Z -> Z -> Z -> Z -> result Z)
          (namei : memory -> Z -> result Z)
          (ilock iunlock iunlockput : Z -> result unit) (inode_type : Z -> Z)
          (s : kstate) (path omode ip : Z) (fs : Pipe.fstate) (f : nat),
      0 <= Syscall.ret (Syscall.argstr (proc s) 0) ->
      Syscall.out (Syscall.argstr (proc s) 0) = Some path ->
      Syscall.ret (Syscall.argint (proc s) 1) = 0 ->
      Syscall.out (Syscall.argint (proc s) 1) = Some omode ->
      sys_open_inode O_RDONLY O_CREATE T_DIR T_FILE begin_op end_op create namei
                     ilock iunlockput inode_type (Syscall.umem (proc s)) path omode
        = Ok (Some ip) ->
      Pipe.filealloc (files s) = Ok (fs, Some f) ->
      (exists i, ofile s !! i = Some None) ->
      exists fd,
        lowest_free (ofile s) fd /\
        sys_open kernel_end KERNBASE PHYSTOP put_inode O_RDONLY O_WRONLY O_RDWR O_CREATE
                 T_DIR T_FILE begin_op end_op create namei ilock iunlock iunlockput
                 inode_type s =
          _ ← iunlock ip;
          _ ← end_op;
          Ok ({| proc := proc s; ofile := <[fd := Some f]> (ofile s);
                 files := Pipe.set_ftable fs
                            (alter (fun fl => open_inode O_WRONLY O_RDWR fl ip omode)
                                   f (Pipe.ftable fs)) |},
              Z.of_nat fd)) /\
  (forall (kernel_end KERNBASE PHYSTOP : Z) (put_inode : Z -> result unit)
          (O_RDONLY O_WRONLY O_RDWR O_CREATE T_DIR T_FILE : Z)
          (begin_op end_op : result unit)
          (create : memory -> Z -> Z -> Z -> Z -> result Z)
          (namei : memory -> Z -> result Z)
          (ilock iunlock iunlockput : Z -> result unit) (inode_type : Z -> Z)
          (s s' : kstate) (r : Z),
      sys_open kernel_end KERNBASE PHYSTOP put_inode O_RDONLY O_WRONLY O_RDWR O_CREATE
               T_DIR T_FILE begin_op end_op create namei ilock iunlock iunlockput
               inode_type s = Ok (s', r) ->
      0 <= r ->
      exists fd, r = Z.of_nat fd /\ lowest_free (ofile s) fd) /\
  (forall (kernel_end KERNBASE PHYSTOP : Z) (put_inode : Z -> result unit)
          (s : kstate) (ptr : Z) (fs : Pipe.fstate) (rf wf fd0 fd1 : nat),
      Syscall.ret (Syscall.argptr (proc s) 0 8) = 0 ->
      Syscall.out (Syscall.argptr (proc s) 0 8) = Some ptr ->
      Pipe.pipealloc kernel_end KERNBASE PHYSTOP put_inode (files s)
        = Ok (fs, 0, Some rf, Some wf) ->
      lowest_free (ofile s) fd0 -> lowest_free (<[fd0 := Some rf]> (ofile s)) fd1 ->
      Z.of_nat (length (ofile s)) < 2 ^ 31 ->
      exists s',
        sys_pipe kernel_end KERNBASE PHYSTOP put_inode s = Ok (s', 0) /\
        ofile s' = <[fd1 := Some wf]> (<[fd0 := Some rf]> (ofile s)) /\
        load32 (Syscall.umem (proc s')) ptr = Z.of_nat fd0 /\
        load32 (Syscall.umem (proc s')) (ptr + 4) = Z.of_nat fd1) /\
  (forall (kernel_end KERNBASE PHYSTOP : Z) (put_inode : Z -> result unit)
          (s s' : kstate),
      Z.of_nat (length (ofile s)) < 2 ^ 31 ->
      sys_pipe kernel_end KERNBASE PHYSTOP put_inode s = Ok (s', 0) ->
      exists ptr rf fd0 fd1,
        Syscall.out (Syscall.argptr (proc s) 0 8) = Some ptr /\
        lowest_free (ofile s) fd0 /\
        lowest_free (<[fd0 := Some rf]> (ofile s)) fd1 /\
        load32 (Syscall.umem (proc s')) ptr = Z.of_nat fd0 /\
        load32 (Syscall.umem (proc s')) (ptr + 4) = Z.of_nat fd1).
Proof.
  split; [|split; [|split; [|split; [|split; [|split; [|split]]]]]].
  - intros ofile f [i Hi].
    destruct (fdalloc_from_free ofile f 0 i Hi) as (fd & Hlow & Hrun).
    exists fd. split; [exact Hlow | exact Hrun].
  - intros ofile f Hfull. apply fdalloc_from_full, Hfull.
  - intros s g f Hfd Hfree. apply (sys_dup_runs s g f Hfd), Hfree.
  - intros s s' r H Hr.
    destruct (sys_dup_lowest s s' r H Hr) as (fd & g & f & H1 & H2 & _).
    exists fd. split; assumption.
  - intros ke kb ph pi ORD OWR ORW OCR TD TF bo eo cr na il iu iup ity
           s path omode ip fs f Hret Hout Hret1 Hout1 Hino Hfa Hfree.
    destruct (sys_open_file_runs ke kb ph pi OWR ORW eo iu iup s ip omode fs f Hfa)
      as [Hrun _].
    destruct (Hrun Hfree) as (fd & Hlow & Hfile).
    exists fd. split; [exact Hlow|]. unfold sys_open.
    replace (Syscall.ret (Syscall.argstr (proc s) 0) <? 0) with false
      by (symmetry; apply Z.ltb_ge; exact Hret).
    rewrite Hout, Hret1, Hout1. cbn [Z.ltb Z.compare default]. unfold id.
    rewrite Hino. cbn [mbind result_bind]. exact Hfile.
  - intros ke kb ph pi ORD OWR ORW OCR TD TF bo eo cr na il iu iup ity s s' r H Hr.
    destruct (sys_open_lowest ke kb ph pi ORD OWR ORW OCR TD TF bo eo cr na il iu iup ity
                              s s' r H Hr) as (fd & f & H1 & H2 & _).
    exists fd. split; assumption.
  - intros ke kb ph pi s ptr fs rf wf fd0 fd1 Hret Hout Hpa Hlow0 Hlow1 Hlen.
    eexists. split; [apply (sys_pipe_runs ke kb ph pi s ptr fs rf wf fd0 fd1); assumption|].
    cbn [ofile proc Syscall.umem]. split; [reflexivity|].
    pose proof (lowest_free_lt _ _ Hlow0) as Hb0.
    pose proof (lowest_free_lt _ _ Hlow1) as Hb1.
    rewrite length_insert in Hb1.
    change (2 ^ 31) with 2147483648 in Hlen.
    rewrite !wrap32_small by (change (2 ^ 32) with 4294967296; lia).
    split.
    + rewrite load32_store32_other by lia.
      apply load32_store32. change (2 ^ 32) with 4294967296. lia.
    + apply load32_store32. change (2 ^ 32) with 4294967296. lia.
  - intros ke kb ph pi s s' Hlen H.
    destruct (sys_pipe_lowest ke kb ph pi s s' Hlen H)
      as (ptr & rf & wf & fd0 & fd1 & H1 & H2 & H3 & _ & H5 & H6).
    exists ptr, rf, fd0, fd1. auto.
Qed.

(** ** A process with descriptors 0 and 2 open *)

Definition console_file : Pipe.file :=
  {| Pipe.type := Pipe.FD_INODE; Pipe.ref := 2; Pipe.readable := 1;
     Pipe.writable := 1; Pipe.fpipe := 0; Pipe.ip := 77; Pipe.off := 0 |}.

Definition free_file : Pipe.file :=
  {| Pipe.type := Pipe.FD_NONE; Pipe.ref := 0; Pipe.readable := 0;
     Pipe.writable := 0; Pipe.fpipe := 0; Pipe.ip := 0; Pipe.off := 0 |}.

(** Argument 0 on the user stack is [arg0]. *)
Definition two_open (arg0 : Z) : kstate :=
  {| proc := {| Syscall.sz := 4096; Syscall.esp := 4000;
                Syscall.umem := store32 (fun _ => 0) 4004 arg0 |};
     ofile := [Some 0%nat; None; Some 0%nat; None];
     files := {| Pipe.kmem := Kalloc.boot_kmem; Pipe.ftable_lock := false;
                 Pipe.ftable := [console_file; free_file; free_file];
                 Pipe.pipes := ∅ |} |}.

(** [dup(2)] returns 1. *)
Example sys_dup_returns_1 :
  exists s', sys_dup (two_open 2) = Ok (s', 1) /\
             ofile s' = [Some 0%nat; Some 0%nat; Some 0%nat; None].
Proof. eexists. split; vm_compute; reflexivity. Qed.

(** [pipe(fd)] with [fd = 3000] stores 1 and 3. *)
Example sys_pipe_stores_1_3 :
  exists s',
    sys_pipe Kalloc.boot_end Kalloc.boot_KERNBASE Kalloc.boot_PHYSTOP
             (fun _ => Ok tt) (two_open 3000) = Ok (s', 0) /\
    ofile s' = [Some 0%nat; Some 1%nat; Some 0%nat; Some 2%nat] /\
    load32 (Syscall.umem (proc s')) 3000 = 1 /\
    load32 (Syscall.umem (proc s')) 3004 = 3.
Proof. eexists. split; [|split; [|split]]; vm_compute; reflexivity. Qed.

(** The same process calling [open(path, O_RDONLY)], with the path
    ["x"] at 3000. *)
Definition open_call : kstate :=
  {| proc := {| Syscall.sz := 4096; Syscall.esp := 4000;
                Syscall.umem :=
                  store32 (store32 (store32 (fun _ => 0) 3000 120) 4004 3000) 4008 0 |};
     ofile := [Some 0%nat; None; Some 0%nat; None];
     files := {| Pipe.kmem := Kalloc.boot_kmem; Pipe.ftable_lock := false;
                 Pipe.ftable := [console_file; free_file; free_file];
                 Pipe.pipes := ∅ |} |}.

(** [sys_open] with the stock values of fcntl.h and stat.h
    ([O_RDONLY = 0], [O_WRONLY = 1], [O_RDWR = 2], [O_CREATE = 0x200],
    [T_DIR = 1], [T_FILE = 2]), over a file system in which every path
    is the regular file with the inode at 77; [end_op] is left open. *)
Definition stock_sys_open (end_op : result unit) (s : kstate) : result (kstate * Z) :=
  sys_open Kalloc.boot_end Kalloc.boot_KERNBASE Kalloc.boot_PHYSTOP (fun _ => Ok tt)
           0 1 2 0x200 1 2 (Ok tt) end_op
           (fun _ _ _ _ _ => Ok 0) (fun _ _ => Ok 77)
           (fun _ => Ok tt) (fun _ => Ok tt) (fun _ => Ok tt) (fun _ => 2) s.

Lemma two_open_lowest (arg0 : Z) : lowest_free (ofile (two_open arg0)) 1.
Proof. split; [reflexivity|]. intros [|j] Hj; [discriminate | lia]. Qed.

(** With descriptors 0 and 2 open, [dup(2)] returns 1, [open("x", 0)]
    returns 1 where [end_op] returns, and [pipe(fd)] stores 1 and 3. *)
Lemma fdalloc_lowest_first_witness :
  (exists s', sys_dup (two_open 2) = Ok (s', 1) /\
              ofile s' = [Some 0%nat; Some 0%nat; Some 0%nat; None]) /\
  (exists s', stock_sys_open (Ok tt) open_call = Ok (s', 1) /\
              ofile s' = [Some 0%nat; Some 1%nat; Some 0%nat; None]) /\
  (exists s', sys_pipe Kalloc.boot_end Kalloc.boot_KERNBASE Kalloc.boot_PHYSTOP
                       (fun _ => Ok tt) (two_open 3000) = Ok (s', 0) /\
              ofile s' = [Some 0%nat; Some 1%nat; Some 0%nat; Some 2%nat] /\
              load32 (Syscall.umem (proc s')) 3000 = 1 /\
              load32 (Syscall.umem (proc s')) 3004 = 3).
Proof.
  destruct fdalloc_lowest_first as (_ & _ & Hdup & _ & Hopen & _ & Hpipe & _).
  split; [|split].
  - destruct (Hdup (two_open 2) 2 0%nat) as (fd & Hlow & Hrun).
    + vm_compute. reflexivity.
    + exists 1%nat. reflexivity.
    + rewrite (lowest_free_unique _ _ _ Hlow (two_open_lowest 2)) in Hrun.
      rewrite Hrun. eexists. split; reflexivity.
  - destruct (Hopen Kalloc.boot_end Kalloc.boot_KERNBASE Kalloc.boot_PHYSTOP
                    (fun _ => Ok tt) 0 1 2 0x200 1 2 (Ok tt) (Ok tt)
                    (fun _ _ _ _ _ => Ok 0) (fun _ _ => Ok 77)
                    (fun _ => Ok tt) (fun _ => Ok tt) (fun _ => Ok tt) (fun _ => 2)
                    open_call 3000 0 77
                    (Pipe.set_ftable (files open_call)
                       [console_file; Pipe.set_ref free_file 1; free_file])
                    1%nat) as (fd & Hlow & Hrun).
    + vm_compute. discriminate.
    + vm_compute. reflexivity.
    + vm_compute. reflexivity.
    + vm_compute. reflexivity.
    + vm_compute. reflexivity.
    + reflexivity.
    + exists 1%nat. reflexivity.
    + rewrite (lowest_free_unique _ _ _ Hlow (two_open_lowest 0)) in Hrun.
      unfold stock_sys_open. rewrite Hrun. eexists. split; reflexivity.
  - destruct (Hpipe Kalloc.boot_end Kalloc.boot_KERNBASE Kalloc.boot_PHYSTOP
                    (fun _ => Ok tt) (two_open 3000) 3000
                    (Pipe.set_ftable
                       (Pipe.set_pipes
                          (Pipe.set_kmem (files (two_open 3000))
                             {| Kalloc.mem := fun _ => 0; Kalloc.lock := false;
                                Kalloc.use_lock := 1; Kalloc.freelist := 0 |})
                          {[ 0x803ff000 := {| Pipe.lock := false; Pipe.data := Pipe.junk;
                                              Pipe.nread := 0; Pipe.nwrite := 0;
                                              Pipe.readopen := 1; Pipe.writeopen := 1 |} ]})
                       [console_file;
                        Pipe.set_pipe_end (Pipe.set_ref free_file 1) 1 0 0x803ff000;
                        Pipe.set_pipe_end (Pipe.set_ref free_file 1) 0 1 0x803ff000])
                    1%nat 2%nat 1%nat 3%nat) as (s' & Hrun & Hof & H0 & H1).
    + vm_compute. reflexivity.
    + vm_compute. reflexivity.
    + reflexivity.
    + apply two_open_lowest.
    + split; [reflexivity|]. intros [|[|[|j]]] Hj; try discriminate; lia.
    + cbn. lia.
    + exists s'. split; [exact Hrun|]. split; [exact Hof|]. split; assumption.
Defined.

(** On this source [end_op] stops in [panic("log.committing")] whenever
    it is called (log.c).  [sys_open] calls it after [fdalloc] has put
    the file into slot 1, and so stops there. *)
Example sys_open_stops_in_end_op :
  stock_sys_open (Panic "log.committing") open_call = Panic "log.committing".
Proof. reflexivity. Qed.

End Sysfile.

(** * vm.c: page tables *)

Module Vm.

(** Modelled from the spec: mmu.h is not among the sources.  The spec
    has a page table of two levels, 1024 x 1024 entries over pages of
    4 KiB, whose entries carry a frame address and present, writable
    and user bits; the values are those of the x86 MMU. *)
Definition PGSIZE : Z := 4096.
Definition NPDENTRIES : Z := 1024.
Definition NPTENTRIES : Z := 1024.
Definition PTE_P : Z := 1.
Definition PTE_W : Z := 2.
Definition PTE_U : Z := 4.

(** Modelled from the spec: the macros [PDX] and [PTX] of mmu.h.  A
    virtual address is 10 bits of directory index, 10 bits of table
    index and 12 bits of offset. *)
Definition PDX (va : Z) : Z := Z.land (Z.shiftr va 22) 0x3FF.
Definition PTX (va : Z) : Z := Z.land (Z.shiftr va 12) 0x3FF.

(** Modelled from the spec: the macro [PGROUNDDOWN] of mmu.h, the
    address with its offset bits cleared. *)
Definition PGROUNDDOWN (a : Z) : Z := Z.land a (Z.lnot (PGSIZE - 1)).

(** An entry of the page directory together with the page table it
    points to: following the pointer [P2V(PTE_ADDR( *pde))] is taking
    [tab].  A page in use as a page table is kept here, as the 1024
    entries it holds, and not in the byte memory of the allocator. *)
Record pde_slot := {
  pde : Z;
  tab : list Z;
}.

Abbreviation pgdir := (list pde_slot).

Definition present (e : Z) : bool := negb (Z.land e PTE_P =? 0).

Section WithLayout.

Variable KERNBASE : Z.

(** [walkpgdir(pgdir, va, alloc)].  The pointer returned is [None] for 0
    and else the place of the entry, [&pgtab[PTX(va)]] in the table of
    slot [PDX(va)]. *)
Definition walkpgdir (k : Kalloc.kmem) (pd : pgdir) (va : Z) (alloc : bool)
  : result (Kalloc.kmem * pgdir * option (nat * nat)) :=
  let i := Z.to_nat (PDX va) in
  match pd !! i with
  | None => Undefined
  | Some slot =>
      if present (pde slot) then Ok (k, pd, Some (i, Z.to_nat (PTX va)))
      else if negb alloc then Ok (k, pd, None)
      else
        '(pgtab, k) ← Kalloc.kalloc k;
        if pgtab =? 0 then Ok (k, pd, None)
        else
          (* Make sure all those PTE_P bits are zero. *)
          let t := replicate (Z.to_nat NPTENTRIES) 0 in
          let e := Z.lor (Z.lor (Z.lor (Kalloc.V2P KERNBASE pgtab) PTE_P) PTE_W) PTE_U in
          Ok (k, <[i := {| pde := e; tab := t |}]> pd, Some (i, Z.to_nat (PTX va)))
  end.

(** The entry a pointer returned by [walkpgdir] points to. *)
Definition read_pte (pd : pgdir) (at_ : nat * nat) : option Z :=
  slot ← pd !! at_.1; tab slot !! at_.2.

Definition write_pte (pd : pgdir) (at_ : nat * nat) (e : Z) : pgdir :=
  alter (fun slot => {| pde := pde slot; tab := <[at_.2 := e]> (tab slot) |})
        at_.1 pd.

(** The [for(;;)] of [mappages], at most [fuel] times round; [None] when
    the fuel is used up. *)
Fixpoint mappages_loop (fuel : nat) (k : Kalloc.kmem) (pd : pgdir)
         (a last pa perm : Z) : option (result (Kalloc.kmem * pgdir * Z)) :=
  match fuel with
  | O => None
  | S fuel' =>
      match walkpgdir k pd a true with
      | Panic msg => Some (Panic msg)
      | Undefined => Some Undefined
      | Ok (k, pd, None) => Some (Ok (k, pd, -1))
      | Ok (k, pd, Some pte) =>
          match read_pte pd pte with
          | None => Some Undefined
          | Some e =>
              if present e then Some (Panic "remap")
              else
                let pd := write_pte pd pte (Z.lor (Z.lor pa perm) PTE_P) in
                if a =? last then Some (Ok (k, pd, 0))
                else mappages_loop fuel' k pd (wrap32 (a + PGSIZE)) last
                                   (wrap32 (pa + PGSIZE)) perm
          end
      end
  end.

(** [mappages(pgdir, va, size, pa, perm)].  An address space has [2^20]
    pages, and so many rounds are always enough (see
    [mappages_terminates]). *)
Definition mappages (k : Kalloc.kmem) (pd : pgdir) (va size pa perm : Z)
  : option (result (Kalloc.kmem * pgdir * Z)) :=
  let a := PGROUNDDOWN va in
  let last := PGROUNDDOWN (wrap32 (va + size - 1)) in
  mappages_loop (Z.to_nat (2 ^ 20)) k pd a last pa perm.

End WithLayout.

(** ** Reading the tree *)

(** The entry that translates [a], if the directory has a table for it. *)
Definition pte_at (pd : pgdir) (a : Z) : option Z :=
  slot ← pd !! Z.to_nat (PDX a);
  if present (pde slot) then tab slot !! Z.to_nat (PTX a) else None.

(** [a] is mapped: its entry is there and has [PTE_P]. *)
Definition mapped (pd : pgdir) (a : Z) : Prop :=
  exists e, pte_at pd a = Some e /\ present e = true.

(** A directory of 1024 entries whose tables have 1024 entries. *)
Definition pgdir_wf (pd : pgdir) : Prop :=
  length pd = Z.to_nat NPDENTRIES /\
  forall i slot, pd !! i = Some slot -> present (pde slot) = true ->
                 length (tab slot) = Z.to_nat NPTENTRIES.

(** The pages [mappages] goes through: [page_of va j] is the value of
    [a] in round [j], and there are [npages va size] rounds. *)
Definition page_of (va : Z) (j : nat) : Z :=
  wrap32 (PGROUNDDOWN va + Z.of_nat j * PGSIZE).

Definition npages (va size : Z) : nat :=
  S (Z.to_nat (wrap32 (PGROUNDDOWN (wrap32 (va + size - 1)) - PGROUNDDOWN va) / PGSIZE)).

(** ** Arithmetic of the macros *)

Lemma PGROUNDDOWN_eq (a : Z) : PGROUNDDOWN a = 4096 * (a / 4096).
Proof.
  unfold PGROUNDDOWN, PGSIZE. change (4096 - 1) with (Z.ones 12).
  rewrite <- Z.ldiff_land, Z.ldiff_ones_r by lia.
  rewrite Z.shiftl_mul_pow2, Z.shiftr_div_pow2 by lia.
  change (2 ^ 12) with 4096. lia.
Qed.

Lemma PDX_eq (a : Z) : PDX a = (a / 4096 / 1024) mod 1024.
Proof.
  unfold PDX. change 0x3FF with (Z.ones 10).
  rewrite Z.land_ones, Z.shiftr_div_pow2 by lia.
  change (2 ^ 10) with 1024. change (2 ^ 22) with (4096 * 1024).
  rewrite <- Z.div_div by lia. reflexivity.
Qed.

Lemma PTX_eq (a : Z) : PTX a = (a / 4096) mod 1024.
Proof.
  unfold PTX. change 0x3FF with (Z.ones 10).
  rewrite Z.land_ones, Z.shiftr_div_pow2 by lia.
  reflexivity.
Qed.

Lemma PDX_range (a : Z) : 0 <= PDX a < 1024.
Proof. rewrite PDX_eq. apply Z.mod_pos_bound. lia. Qed.

Lemma PTX_range (a : Z) : 0 <= PTX a < 1024.
Proof. rewrite PTX_eq. apply Z.mod_pos_bound. lia. Qed.

Lemma present_lor_P (x : Z) : present (Z.lor x PTE_P) = true.
Proof.
  unfold present, PTE_P. apply negb_true_iff, Z.eqb_neq.
  intros H. apply (f_equal (fun z => Z.testbit z 0)) in H.
  rewrite Z.land_spec, Z.lor_spec in H. cbn in H.
  rewrite orb_true_r in H. discriminate.
Qed.

Lemma present_new_pde (x : Z) :
  present (Z.lor (Z.lor (Z.lor x PTE_P) PTE_W) PTE_U) = true.
Proof.
  unfold present, PTE_P, PTE_W, PTE_U. apply negb_true_iff, Z.eqb_neq.
  intros H. apply (f_equal (fun z => Z.testbit z 0)) in H.
  rewrite Z.land_spec, !Z.lor_spec in H. cbn in H.
  rewrite orb_true_r in H. discriminate.
Qed.

(** The two indices of [x] are those of [a]. *)
Definition same_entry (x a : Z) : bool :=
  (PDX x =? PDX a) && (PTX x =? PTX a).

(** Going [j] pages on, [0 < j < 2^20], leads to another entry. *)
Lemma page_step_distinct (a : Z) (j : nat) :
  0 <= a < 2 ^ 32 -> (0 < j)%nat -> Z.of_nat j < 2 ^ 20 ->
  same_entry (wrap32 (a + Z.of_nat j * PGSIZE)) a = false.
Proof.
  intros Ha Hj Hj'. unfold same_entry. apply andb_false_iff.
  destruct (Z.eq_dec (PDX (wrap32 (a + Z.of_nat j * PGSIZE))) (PDX a)) as [H1|H1];
    [right | left; apply Z.eqb_neq; exact H1].
  apply Z.eqb_neq. revert H1. rewrite !PDX_eq, !PTX_eq. unfold wrap32, PGSIZE.
  change (2 ^ 32) with 4294967296 in *. change (2 ^ 20) with 1048576 in *.
  intros H1 H2. lia_mod.
Qed.

(** ** One entry *)

Lemma same_entry_index (x a : Z) :
  same_entry x a = false ->
  Z.to_nat (PDX x) <> Z.to_nat (PDX a) \/
  (PDX x = PDX a /\ Z.to_nat (PTX x) <> Z.to_nat (PTX a)).
Proof.
  unfold same_entry. intros H.
  pose proof (PDX_range x). pose proof (PDX_range a).
  pose proof (PTX_range x). pose proof (PTX_range a).
  destruct (Z.eq_dec (PDX x) (PDX a)) as [E|E].
  - right. split; [exact E|]. apply Z.eqb_eq in E. rewrite E in H. cbn in H.
    apply Z.eqb_neq in H. lia.
  - left. lia.
Qed.

Lemma pte_at_write (pd : pgdir) (a e x : Z) (slot : pde_slot) :
  pd !! Z.to_nat (PDX a) = Some slot -> present (pde slot) = true ->
  length (tab slot) = Z.to_nat NPTENTRIES ->
  pte_at (write_pte pd (Z.to_nat (PDX a), Z.to_nat (PTX a)) e) x =
    if same_entry x a then Some e else pte_at pd x.
Proof.
  intros Hs Hp Hl. unfold pte_at, write_pte. cbn [fst snd].
  destruct (same_entry x a) eqn:Hx.
  - apply andb_true_iff in Hx as [H1 H2].
    apply Z.eqb_eq in H1, H2. rewrite H1, H2.
    rewrite list_lookup_alter_eq, Hs. cbn. rewrite Hp.
    apply list_lookup_insert_eq. rewrite Hl.
    pose proof (PTX_range a). unfold NPTENTRIES. lia.
  - apply same_entry_index in Hx as [Hx|[Hx1 Hx2]].
    + rewrite list_lookup_alter_ne by congruence. reflexivity.
    + rewrite Hx1, list_lookup_alter_eq, Hs. cbn. rewrite Hp.
      apply list_lookup_insert_ne. congruence.
Qed.

Lemma write_pte_wf (pd : pgdir) (at_ : nat * nat) (e : Z) :
  pgdir_wf pd -> pgdir_wf (write_pte pd at_ e).
Proof.
  intros [Hlen Htab]. unfold write_pte. split.
  - rewrite length_alter. exact Hlen.
  - intros i slot Hi Hp.
    destruct (decide (i = at_.1)) as [->|Hne].
    + rewrite list_lookup_alter_eq in Hi.
      destruct (pd !! at_.1) as [s0|] eqn:Hs; [|discriminate].
      injection Hi as <-. cbn in *. rewrite length_insert. eapply Htab; eassumption.
    + rewrite list_lookup_alter_ne in Hi by congruence. eapply Htab; eassumption.
Qed.

Lemma mapped_write_other (pd : pgdir) (a e x : Z) (slot : pde_slot) :
  pd !! Z.to_nat (PDX a) = Some slot -> present (pde slot) = true ->
  length (tab slot) = Z.to_nat NPTENTRIES ->
  same_entry x a = false ->
  (mapped (write_pte pd (Z.to_nat (PDX a), Z.to_nat (PTX a)) e) x <-> mapped pd x).
Proof.
  intros Hs Hp Hl Hx. unfold mapped.
  rewrite (pte_at_write pd a e x slot Hs Hp Hl), Hx. reflexivity.
Qed.

(** ** walkpgdir with [alloc = 1] *)

Section WithLayout.

Variable KERNBASE : Z.

Lemma walkpgdir_spec (k : Kalloc.kmem) (pd : pgdir) (a : Z) :
  pgdir_wf pd -> Kalloc.lock_free k ->
  exists k' pd1 o,
    walkpgdir KERNBASE k pd a true = Ok (k', pd1, o) /\
    Kalloc.lock_free k' /\ pgdir_wf pd1 /\
    (forall x, mapped pd x -> pte_at pd1 x = pte_at pd x) /\
    (forall x, mapped pd1 x -> mapped pd x) /\
    match o with
    | None => pd1 = pd /\ Kalloc.freelist k' = 0
    | Some at_ =>
        at_ = (Z.to_nat (PDX a), Z.to_nat (PTX a)) /\
        exists slot e,
          pd1 !! Z.to_nat (PDX a) = Some slot /\ present (pde slot) = true /\
          length (tab slot) = Z.to_nat NPTENTRIES /\
          tab slot !! Z.to_nat (PTX a) = Some e /\
          (present e = true -> mapped pd a)
    end.
Proof.
  intros [Hlen Htab] Hlk. unfold walkpgdir.
  pose proof (PDX_range a) as Hi. pose proof (PTX_range a) as Hj.
  destruct (lookup_lt_is_Some_2 pd (Z.to_nat (PDX a))) as [slot Hs].
  { rewrite Hlen. unfold NPDENTRIES. lia. }
  rewrite Hs. destruct (present (pde slot)) eqn:Hp.
  - (* the table is there *)
    pose proof (Htab _ _ Hs Hp) as Hl.
    destruct (lookup_lt_is_Some_2 (tab slot) (Z.to_nat (PTX a))) as [e He].
    { rewrite Hl. unfold NPTENTRIES. lia. }
    exists k, pd, (Some (Z.to_nat (PDX a), Z.to_nat (PTX a))).
    split; [reflexivity|]. split; [exact Hlk|]. split; [split; assumption|].
    split; [auto|]. split; [auto|]. split; [reflexivity|].
    exists slot, e. split; [exact Hs|]. split; [exact Hp|]. split; [exact Hl|].
    split; [exact He|]. intros Hpe. exists e. split; [|exact Hpe].
    unfold pte_at. rewrite Hs. cbn. rewrite Hp. exact He.
  - (* a table has to be allocated *)
    cbn [negb]. rewrite Kalloc.kalloc_ok by exact Hlk. cbn.
    set (k' := {| Kalloc.mem := Kalloc.mem k; Kalloc.lock := Kalloc.lock k;
                  Kalloc.use_lock := Kalloc.use_lock k;
                  Kalloc.freelist := _ |}).
    assert (Hlk' : Kalloc.lock_free k') by exact Hlk.
    destruct (Kalloc.freelist k =? 0) eqn:Hz.
    + exists k', pd, None. split; [reflexivity|]. split; [exact Hlk'|].
      split; [split; assumption|]. split; [auto|]. split; [auto|].
      split; [reflexivity|]. unfold k'. cbn [Kalloc.freelist].
      apply Z.eqb_eq, Hz.
    + set (new := {| pde := _; tab := replicate (Z.to_nat NPTENTRIES) 0 |}).
      assert (Hother : forall x, PDX x <> PDX a ->
                pte_at (<[Z.to_nat (PDX a) := new]> pd) x = pte_at pd x).
      { intros x Hx. unfold pte_at. rewrite list_lookup_insert_ne; [reflexivity|].
        pose proof (PDX_range x). lia. }
      assert (Hnone : forall x, PDX x = PDX a -> pte_at pd x = None).
      { intros x Hx. unfold pte_at. rewrite Hx, Hs. cbn. rewrite Hp. reflexivity. }
      assert (Hzero : forall x, PDX x = PDX a ->
                pte_at (<[Z.to_nat (PDX a) := new]> pd) x = Some 0).
      { intros x Hx. unfold pte_at. rewrite Hx.
        rewrite list_lookup_insert_eq by (rewrite Hlen; unfold NPDENTRIES; lia).
        cbn. subst new. cbn [pde tab]. rewrite present_new_pde.
        apply lookup_replicate_2. pose proof (PTX_range x). unfold NPTENTRIES. lia. }
      exists k', (<[Z.to_nat (PDX a) := new]> pd),
        (Some (Z.to_nat (PDX a), Z.to_nat (PTX a))).
      split; [reflexivity|]. split; [exact Hlk'|]. split; [|split; [|split; [|split]]].
      * split; [rewrite length_insert; exact Hlen|].
        intros i s Hi' Hps.
        destruct (decide (i = Z.to_nat (PDX a))) as [->|Hne].
        -- rewrite list_lookup_insert_eq in Hi' by (rewrite Hlen; unfold NPDENTRIES; lia).
           injection Hi' as <-. apply length_replicate.
        -- rewrite list_lookup_insert_ne in Hi' by congruence.
           eapply Htab; eassumption.
      * intros x [e [Hx _]]. destruct (Z.eq_dec (PDX x) (PDX a)) as [E|E].
        -- rewrite Hnone in Hx by exact E. discriminate.
        -- apply Hother, E.
      * intros x [e [Hx Hpe]]. destruct (Z.eq_dec (PDX x) (PDX a)) as [E|E].
        -- rewrite Hzero in Hx by exact E. injection Hx as <-. discriminate.
        -- rewrite Hother in Hx by exact E. exists e. auto.
      * reflexivity.
      * exists new, 0.
        split; [apply list_lookup_insert_eq; rewrite Hlen; unfold NPDENTRIES; lia|].
        split; [apply present_new_pde|]. split; [apply length_replicate|].
        split; [apply lookup_replicate_2; unfold NPTENTRIES; lia|].
        intros Hpe. discriminate.
Qed.

End WithLayout.

Lemma pte_at_same_entry (pd : pgdir) (x a : Z) :
  same_entry x a = true -> pte_at pd x = pte_at pd a.
Proof.
  unfold same_entry. intros H. apply andb_true_iff in H as [H1 H2].
  apply Z.eqb_eq in H1, H2. unfold pte_at. rewrite H1, H2. reflexivity.
Qed.

Lemma same_entry_refl (a : Z) : same_entry a a = true.
Proof. unfold same_entry. rewrite !Z.eqb_refl. reflexivity. Qed.

(** ** One round of the loop *)

Section Rounds.

Variable KERNBASE : Z.

(** What one round does, by the three ways out of it: no page for a
    table; an entry that is present; an entry that is not, which is then
    written. *)
Lemma round_spec (k : Kalloc.kmem) (pd : pgdir) (a v : Z) :
  pgdir_wf pd -> Kalloc.lock_free k ->
  let at_ := (Z.to_nat (PDX a), Z.to_nat (PTX a)) in
  (exists k', walkpgdir KERNBASE k pd a true = Ok (k', pd, None) /\
              Kalloc.lock_free k' /\ Kalloc.freelist k' = 0) \/
  (exists k' pd1 e,
      walkpgdir KERNBASE k pd a true = Ok (k', pd1, Some at_) /\
      read_pte pd1 at_ = Some e /\ present e = true /\ mapped pd a) \/
  (exists k' pd1 e,
      walkpgdir KERNBASE k pd a true = Ok (k', pd1, Some at_) /\
      read_pte pd1 at_ = Some e /\ present e = false /\
      Kalloc.lock_free k' /\
      pgdir_wf (write_pte pd1 at_ v) /\
      pte_at (write_pte pd1 at_ v) a = Some v /\
      (forall x, same_entry x a = true -> ~ mapped pd x) /\
      (forall x, same_entry x a = false ->
                 (mapped (write_pte pd1 at_ v) x -> mapped pd x) /\
                 (mapped pd x -> pte_at (write_pte pd1 at_ v) x = pte_at pd x))).
Proof.
  intros Hwf Hlk at_.
  destruct (walkpgdir_spec KERNBASE k pd a Hwf Hlk)
    as (k' & pd1 & o & Hwalk & Hlk' & Hwf1 & Hkeep & Hback & Ho).
  destruct o as [at'|].
  2: { left. destruct Ho as [-> Hz]. exists k'. auto. }
  destruct Ho as (-> & slot & e & Hs & Hp & Hl & He & Hmapped).
  fold at_ in Hwalk.
  assert (Hread : read_pte pd1 at_ = Some e).
  { unfold read_pte, at_. cbn [fst snd]. rewrite Hs. exact He. }
  assert (Hat : pte_at pd1 a = Some e).
  { unfold pte_at. rewrite Hs. cbn. rewrite Hp. exact He. }
  destruct (present e) eqn:Hpe.
  - right. left. exists k', pd1, e. auto.
  - right. right. exists k', pd1, e.
    split; [exact Hwalk|]. split; [exact Hread|]. split; [exact Hpe|].
    split; [exact Hlk'|]. split; [apply write_pte_wf, Hwf1|].
    split; [|split].
    + unfold at_. rewrite (pte_at_write pd1 a v a slot Hs Hp Hl), same_entry_refl.
      reflexivity.
    + intros x Hx Hm. pose proof (Hkeep x Hm) as Hk.
      destruct Hm as (e' & Hx' & Hpe').
      rewrite (pte_at_same_entry pd1 x a Hx), Hat, Hx' in Hk.
      injection Hk as ->. congruence.
    + intros x Hx. unfold at_. split.
      * intros Hm. apply Hback.
        apply (mapped_write_other pd1 a v x slot Hs Hp Hl Hx). exact Hm.
      * intros Hm. rewrite (pte_at_write pd1 a v x slot Hs Hp Hl), Hx.
        apply Hkeep, Hm.
Qed.

End Rounds.

(** ** The loop *)

Section Loop.

Variable KERNBASE : Z.
Variable perm : Z.

(** [a] and [pa] after [j] rounds, and the entry written in round [j]. *)
Definition step (a : Z) (j : nat) : Z := wrap32 (a + Z.of_nat j * PGSIZE).

Definition entry_for (pa : Z) (j : nat) : Z :=
  Z.lor (Z.lor (step pa j) perm) PTE_P.

(** What is true of the result of the loop that starts at [a] with [d]
    more pages to go after this one. *)
Definition loop_post (d : nat) (pd : pgdir) (a pa : Z)
           (r : result (Kalloc.kmem * pgdir * Z)) : Prop :=
  match r with
  | Ok (k', pd', ret) =>
      Kalloc.lock_free k' /\ pgdir_wf pd' /\
      (forall x, mapped pd x -> pte_at pd' x = pte_at pd x) /\
      ((ret = -1 /\ Kalloc.freelist k' = 0) \/
       (ret = 0 /\
        forall j, (j <= d)%nat ->
                  ~ mapped pd (step a j) /\
                  pte_at pd' (step a j) = Some (entry_for pa j)))
  | Panic msg =>
      msg = "remap"%string /\ exists j, (j <= d)%nat /\ mapped pd (step a j)
  | Undefined => False
  end.

Lemma step_0 (a : Z) : 0 <= a < 2 ^ 32 -> step a 0 = a.
Proof. intros H. unfold step. rewrite Z.mul_0_l, Z.add_0_r. apply wrap32_small, H. Qed.

Lemma step_S (a : Z) (j : nat) :
  step (wrap32 (a + PGSIZE)) j = step a (S j).
Proof.
  unfold step, wrap32, PGSIZE. change (2 ^ 32) with 4294967296. lia_mod.
Qed.

Lemma step_range (a : Z) (j : nat) : 0 <= step a j < 2 ^ 32.
Proof. apply wrap32_range. Qed.

Lemma step_neq (a : Z) (j : nat) :
  0 <= a < 2 ^ 32 -> (0 < j)%nat -> Z.of_nat j < 2 ^ 20 -> step a j <> a.
Proof.
  intros Ha Hj Hj' Heq.
  pose proof (page_step_distinct a j Ha Hj Hj') as H.
  fold (step a j) in H. rewrite Heq, same_entry_refl in H. discriminate.
Qed.

Lemma mappages_loop_spec (d : nat) :
  forall (fuel : nat) (k : Kalloc.kmem) (pd : pgdir) (a pa : Z),
    (d < fuel)%nat -> Z.of_nat d < 2 ^ 20 ->
    pgdir_wf pd -> Kalloc.lock_free k ->
    0 <= a < 2 ^ 32 -> 0 <= pa < 2 ^ 32 ->
    exists r,
      mappages_loop KERNBASE fuel k pd a (step a d) pa perm = Some r /\
      loop_post d pd a pa r.
Proof.
  induction d as [|d IH]; intros fuel k pd a pa Hfuel Hd Hwf Hlk Ha Hpa;
    (destruct fuel as [|fuel]; [lia|]); cbn [mappages_loop];
    destruct (round_spec KERNBASE k pd a (Z.lor (Z.lor pa perm) PTE_P) Hwf Hlk)
      as [(k' & Hwalk & Hlk' & Hz) |
          [(k' & pd1 & e & Hwalk & Hread & Hpe & Hm) |
           (k' & pd1 & e & Hwalk & Hread & Hpe & Hlk' & Hwf2 & Hnew & Hsame & Hother)]];
    rewrite Hwalk; try rewrite Hread; try rewrite Hpe.
  - (* d = 0, no table *)
    eexists. split; [reflexivity|]. cbn [loop_post]. auto 10.
  - (* d = 0, remap *)
    eexists. split; [reflexivity|]. cbn [loop_post]. split; [reflexivity|].
    exists 0%nat. rewrite step_0 by exact Ha. auto.
  - (* d = 0, written, and [a == last] *)
    rewrite step_0 by exact Ha. rewrite Z.eqb_refl.
    eexists. split; [reflexivity|]. cbn [loop_post].
    split; [exact Hlk'|]. split; [exact Hwf2|]. split.
    + intros x Hx. destruct (same_entry x a) eqn:Hxa.
      * exfalso. exact (Hsame x Hxa Hx).
      * apply (Hother x Hxa), Hx.
    + right. split; [reflexivity|]. intros j Hj.
      assert (j = 0%nat) as -> by lia. rewrite step_0 by exact Ha.
      split; [apply Hsame, same_entry_refl|].
      rewrite Hnew. unfold entry_for. rewrite step_0 by exact Hpa. reflexivity.
  - (* d > 0, no table *)
    eexists. split; [reflexivity|]. cbn [loop_post]. auto 10.
  - (* d > 0, remap *)
    eexists. split; [reflexivity|]. cbn [loop_post]. split; [reflexivity|].
    exists 0%nat. rewrite step_0 by exact Ha. split; [lia | exact Hm].
  - (* d > 0, written, on to the next page *)
    assert (Hne : (a =? step a (S d)) = false).
    { apply Z.eqb_neq. intros Heq. symmetry in Heq.
      revert Heq. apply step_neq; [exact Ha | lia | exact Hd]. }
    rewrite Hne. rewrite <- step_S.
    set (pd2 := write_pte pd1 _ _) in *.
    destruct (IH fuel k' pd2 (wrap32 (a + PGSIZE)) (wrap32 (pa + PGSIZE)))
      as (r & Hrun & Hpost);
      [lia | lia | exact Hwf2 | exact Hlk' | apply wrap32_range | apply wrap32_range |].
    exists r. split; [exact Hrun|].
    assert (Hfar : forall j, (j <= d)%nat ->
              same_entry (step (wrap32 (a + PGSIZE)) j) a = false).
    { intros j Hj. rewrite step_S. apply page_step_distinct; [exact Ha | lia | lia]. }
    destruct r as [[[k'' pd'] ret] | msg | ]; cbn [loop_post] in Hpost |- *.
    + destruct Hpost as (Hlk'' & Hwf' & Hkeep & Hret).
      split; [exact Hlk''|]. split; [exact Hwf'|]. split.
      * intros x Hx. destruct (same_entry x a) eqn:Hxa.
        -- exfalso. exact (Hsame x Hxa Hx).
        -- destruct (Hother x Hxa) as [_ Hk]. rewrite <- (Hk Hx).
           apply Hkeep. destruct Hx as (e0 & Hx0 & Hp0).
           exists e0. split; [|exact Hp0]. rewrite (Hk (ex_intro _ e0 (conj Hx0 Hp0))).
           exact Hx0.
      * destruct Hret as [Hret|[Hret Hall]]; [left; exact Hret|].
        right. split; [exact Hret|]. intros [|j] Hj.
        -- rewrite step_0 by exact Ha.
           split; [apply Hsame, same_entry_refl|].
           rewrite Hkeep.
           ++ rewrite Hnew. unfold entry_for. rewrite step_0 by exact Hpa. reflexivity.
           ++ exists (Z.lor (Z.lor pa perm) PTE_P).
              split; [exact Hnew | apply present_lor_P].
        -- destruct (Hall j ltac:(lia)) as [Hnm Hent].
           rewrite step_S in Hnm, Hent. split.
           ++ intros Hm. apply Hnm.
              pose proof (Hfar j ltac:(lia)) as Hf. rewrite step_S in Hf.
              destruct (Hother _ Hf) as [_ Hk].
              destruct Hm as (e0 & Hx0 & Hp0).
              exists e0. split; [|exact Hp0].
              rewrite (Hk (ex_intro _ e0 (conj Hx0 Hp0))). exact Hx0.
           ++ rewrite Hent. unfold entry_for. rewrite step_S. reflexivity.
    + destruct Hpost as (Hmsg & j & Hj & Hm).
      split; [exact Hmsg|]. exists (S j). split; [lia|].
      rewrite <- step_S. apply (Hother _ (Hfar j Hj)), Hm.
    + exact Hpost.
Qed.

End Loop.

(** ** mappages *)

Lemma PGROUNDDOWN_range (a : Z) :
  0 <= a < 2 ^ 32 -> 0 <= PGROUNDDOWN a < 2 ^ 32.
Proof.
  intros H. rewrite PGROUNDDOWN_eq. change (2 ^ 32) with 4294967296 in *. lia_mod.
Qed.

Lemma last_is_step (va size : Z) :
  0 <= va < 2 ^ 32 ->
  PGROUNDDOWN (wrap32 (va + size - 1)) =
    step (PGROUNDDOWN va) (Nat.pred (npages va size)) /\
  Z.of_nat (Nat.pred (npages va size)) < 2 ^ 20.
Proof.
  intros Hva. unfold npages, step. cbn [Nat.pred].
  pose proof (wrap32_range (va + size - 1)) as Hw.
  generalize dependent (wrap32 (va + size - 1)). intros u Hu.
  rewrite !PGROUNDDOWN_eq. unfold wrap32, PGSIZE.
  change (2 ^ 32) with 4294967296 in *. change (2 ^ 20) with 1048576.
  rewrite Z2Nat.id by lia_mod. split; lia_mod.
Qed.

Section Mappages.

Variable KERNBASE : Z.

(** What holds of the outcome of [mappages]. *)
Definition mappages_post (pd : pgdir) (va size pa perm : Z)
           (r : result (Kalloc.kmem * pgdir * Z)) : Prop :=
  match r with
  | Ok (k', pd', ret) =>
      pgdir_wf pd' /\
      (forall x, mapped pd x -> pte_at pd' x = pte_at pd x) /\
      ((ret = -1 /\ Kalloc.freelist k' = 0) \/
       (ret = 0 /\
        forall j, (j < npages va size)%nat ->
                  ~ mapped pd (page_of va j) /\
                  pte_at pd' (page_of va j) =
                    Some (Z.lor (Z.lor (wrap32 (pa + Z.of_nat j * PGSIZE)) perm) PTE_P)))
  | Panic msg =>
      msg = "remap"%string /\
      exists j, (j < npages va size)%nat /\ mapped pd (page_of va j)
  | Undefined => False
  end.

Lemma mappages_terminates (k : Kalloc.kmem) (pd : pgdir) (va size pa perm : Z) :
  pgdir_wf pd -> Kalloc.lock_free k ->
  0 <= va < 2 ^ 32 -> 0 <= pa < 2 ^ 32 ->
  exists r, mappages KERNBASE k pd va size pa perm = Some r /\
            mappages_post pd va size pa perm r.
Proof.
  intros Hwf Hlk Hva Hpa. unfold mappages.
  destruct (last_is_step va size Hva) as [Hlast Hd]. rewrite Hlast.
  destruct (mappages_loop_spec KERNBASE perm (Nat.pred (npages va size))
              (Z.to_nat (2 ^ 20)) k pd (PGROUNDDOWN va) pa)
    as (r & Hrun & Hpost);
    [change (2 ^ 20) with 1048576 in *; lia | exact Hd | exact Hwf | exact Hlk
     | apply PGROUNDDOWN_range, Hva | exact Hpa |].
  exists r. split; [exact Hrun|].
  assert (Hlt : forall j, (j < npages va size)%nat <-> (j <= Nat.pred (npages va size))%nat).
  { intros j. unfold npages. cbn [Nat.pred]. lia. }
  destruct r as [[[k' pd'] ret] | msg | ]; cbn [loop_post mappages_post] in *.
  - destruct Hpost as (_ & Hwf' & Hkeep & Hret).
    split; [exact Hwf'|]. split; [exact Hkeep|].
    destruct Hret as [Hret|[Hret Hall]]; [left; exact Hret|].
    right. split; [exact Hret|]. intros j Hj. apply Hall, Hlt, Hj.
  - destruct Hpost as (Hmsg & j & Hj & Hm).
    split; [exact Hmsg|]. exists j. split; [apply Hlt, Hj | exact Hm].
  - exact Hpost.
Qed.

End Mappages.

(** ** The statement about mappages *)

(** C7, as the code has it.  On a well-formed directory [mappages]
    comes to an end in one of three ways.  It returns 0: every page of
    the range had no present entry before and has the entry
    [pa + j*PGSIZE | perm | PTE_P] now.  It panics with ["remap"]: some
    page of the range had a present entry.  It returns -1: the
    allocator had no page left for a page table.  In the two cases in
    which it returns, every entry that was present before the call is
    as it was.  So when no page of the range has a present entry the
    panic is out of reach. *)
Theorem mappages_never_remaps (KERNBASE : Z) (k : Kalloc.kmem) (pd : pgdir)
        (va size pa perm : Z) :
  pgdir_wf pd -> Kalloc.lock_free k ->
  0 <= va < 2 ^ 32 -> 0 <= pa < 2 ^ 32 ->
  exists r,
    mappages KERNBASE k pd va size pa perm = Some r /\
    mappages_post pd va size pa perm r /\
    ((forall j, (j < npages va size)%nat -> ~ mapped pd (page_of va j)) ->
     forall msg, r <> Panic msg).
Proof.
  intros Hwf Hlk Hva Hpa.
  destruct (mappages_terminates KERNBASE k pd va size pa perm Hwf Hlk Hva Hpa)
    as (r & Hrun & Hpost).
  exists r. split; [exact Hrun|]. split; [exact Hpost|].
  intros Hfree msg ->. cbn in Hpost.
  destruct Hpost as (_ & j & Hj & Hm). exact (Hfree j Hj Hm).
Qed.

(** C7 as specified: [mappages] either maps each page of the range into
    an entry that was not present, or panics, some entry of the range
    being present. *)
Definition mappages_as_specified (KERNBASE : Z) (k : Kalloc.kmem) (pd : pgdir)
           (va size pa perm : Z) : Prop :=
  exists r,
    mappages KERNBASE k pd va size pa perm = Some r /\
    match r with
    | Ok (_, pd', _) =>
        forall j, (j < npages va size)%nat ->
                  ~ mapped pd (page_of va j) /\ mapped pd' (page_of va j)
    | Panic _ =>
        exists j, (j < npages va size)%nat /\ mapped pd (page_of va j)
    | Undefined => False
    end.

(** A directory without any table, and an allocator without any page. *)
Definition empty_pgdir : pgdir :=
  replicate (Z.to_nat NPDENTRIES) {| pde := 0; tab := [] |}.

Definition empty_kmem : Kalloc.kmem :=
  {| Kalloc.mem := fun _ => 0; Kalloc.lock := false; Kalloc.use_lock := 1;
     Kalloc.freelist := 0 |}.

Lemma empty_pgdir_wf : pgdir_wf empty_pgdir.
Proof.
  split; [apply length_replicate|].
  intros i slot Hi Hp. apply lookup_replicate_1 in Hi as [-> _]. discriminate.
Qed.

Lemma empty_pgdir_unmapped (a : Z) : ~ mapped empty_pgdir a.
Proof.
  intros (e & He & _). unfold pte_at in He.
  destruct (empty_pgdir !! Z.to_nat (PDX a)) as [slot|] eqn:Hs; [|discriminate].
  apply lookup_replicate_1 in Hs as [-> _]. discriminate.
Qed.

(** Mapping the page at 0 there: [walkpgdir] gets no page for the table,
    [mappages] returns -1, nothing is mapped and nothing panics. *)
Lemma mappages_out_of_memory :
  ~ mappages_as_specified Kalloc.boot_KERNBASE empty_kmem empty_pgdir
      0 4096 0x1000 PTE_W.
Proof.
  intros (r & Hrun & Hr).
  assert (Hval : mappages Kalloc.boot_KERNBASE empty_kmem empty_pgdir
                   0 4096 0x1000 PTE_W = Some (Ok (empty_kmem, empty_pgdir, -1)))
    by (vm_compute; reflexivity).
  rewrite Hval in Hrun. injection Hrun as <-.
  destruct (Hr 0%nat) as [_ Hm].
  - unfold npages. lia.
  - exact (empty_pgdir_unmapped _ Hm).
Qed.

Lemma mappages_never_remaps_witness :
  exists r,
    mappages Kalloc.boot_KERNBASE Kalloc.boot_kmem empty_pgdir
             0 4096 0x1000 PTE_W = Some r /\
    mappages_post empty_pgdir 0 4096 0x1000 PTE_W r /\
    ((forall j, (j < npages 0 4096)%nat -> ~ mapped empty_pgdir (page_of 0 j)) ->
     forall msg, r <> Panic msg).
Proof.
  apply (mappages_never_remaps Kalloc.boot_KERNBASE Kalloc.boot_kmem empty_pgdir
           0 4096 0x1000 PTE_W).
  - exact empty_pgdir_wf.
  - right. reflexivity.
  - lia.
  - lia.
Defined.

(** With a page to allocate the same call maps the page. *)
Example mappages_one_page :
  exists k' pd',
    mappages Kalloc.boot_KERNBASE Kalloc.boot_kmem empty_pgdir
             0 4096 0x1000 PTE_W = Some (Ok (k', pd', 0)) /\
    pte_at pd' 0 = Some 0x1003.
Proof. eexists. eexists. split; vm_compute; reflexivity. Qed.

End Vm.

(** * proc.c: fork, exit, wait *)

Module Proc.

Inductive procstate := UNUSED | EMBRYO | SLEEPING | RUNNABLE | RUNNING | ZOMBIE.

#[global] Instance procstate_eq_dec : EqDecision procstate.
Proof. solve_decision. Defined.

(** The pointers proc.c compares: the null pointer, a pointer to a slot
    of [ptable.proc] (a parent, or the channel [wait] sleeps on), and
    any other address used as a channel. *)
Inductive ptr := Null | ProcPtr (slot : nat) | Addr (a : Z).

#[global] Instance ptr_eq_dec : EqDecision ptr.
Proof. solve_decision. Defined.

(** The saved user registers that matter here (x86.h is not among the
    sources). *)
Record trapframe := {
  eax : Z;
  esp : Z;
  eip : Z;
}.

(** [struct proc] (proc.h is not among the sources; the fields are
    those proc.c uses). *)
Record proc := {
  sz : Z;
  pgdir : Z;
  kstack : Z;
  state : procstate;
  pid : Z;
  parent : ptr;
  tf : trapframe;
  chan : ptr;
  killed : Z;
  ofile : list (option nat);
  cwd : Z;
  name : string;
}.

Definition set_pgdir (p : proc) (x : Z) : proc :=
  {| sz := sz p; pgdir := x; kstack := kstack p; state := state p; pid := pid p;
     parent := parent p; tf := tf p; chan := chan p; killed := killed p;
     ofile := ofile p; cwd := cwd p; name := name p |}.

Definition set_kstack (p : proc) (x : Z) : proc :=
  {| sz := sz p; pgdir := pgdir p; kstack := x; state := state p; pid := pid p;
     parent := parent p; tf := tf p; chan := chan p; killed := killed p;
     ofile := ofile p; cwd := cwd p; name := name p |}.

Definition set_state (p : proc) (x : procstate) : proc :=
  {| sz := sz p; pgdir := pgdir p; kstack := kstack p; state := x; pid := pid p;
     parent := parent p; tf := tf p; chan := chan p; killed := killed p;
     ofile := ofile p; cwd := cwd p; name := name p |}.

Definition set_parent (p : proc) (x : ptr) : proc :=
  {| sz := sz p; pgdir := pgdir p; kstack := kstack p; state := state p; pid := pid p;
     parent := x; tf := tf p; chan := chan p; killed := killed p;
     ofile := ofile p; cwd := cwd p; name := name p |}.

Definition set_tf (p : proc) (x : trapframe) : proc :=
  {| sz := sz p; pgdir := pgdir p; kstack := kstack p; state := state p; pid := pid p;
     parent := parent p; tf := x; chan := chan p; killed := killed p;
     ofile := ofile p; cwd := cwd p; name := name p |}.

Definition set_chan (p : proc) (x : ptr) : proc :=
  {| sz := sz p; pgdir := pgdir p; kstack := kstack p; state := state p; pid := pid p;
     parent := parent p; tf := tf p; chan := x; killed := killed p;
     ofile := ofile p; cwd := cwd p; name := name p |}.

Definition set_ofile (p : proc) (x : list (option nat)) : proc :=
  {| sz := sz p; pgdir := pgdir p; kstack := kstack p; state := state p; pid := pid p;
     parent := parent p; tf := tf p; chan := chan p; killed := killed p;
     ofile := x; cwd := cwd p; name := name p |}.

Definition set_cwd (p : proc) (x : Z) : proc :=
  {| sz := sz p; pgdir := pgdir p; kstack := kstack p; state := state p; pid := pid p;
     parent := parent p; tf := tf p; chan := chan p; killed := killed p;
     ofile := ofile p; cwd := x; name := name p |}.

Definition set_name (p : proc) (x : string) : proc :=
  {| sz := sz p; pgdir := pgdir p; kstack := kstack p; state := state p; pid := pid p;
     parent := parent p; tf := tf p; chan := chan p; killed := killed p;
     ofile := ofile p; cwd := cwd p; name := x |}.

(** [p->pid = 0; p->parent = 0; p->name[0] = 0; p->killed = 0;
    p->state = UNUSED;] of [wait]. *)
Definition cleared (p : proc) : proc :=
  {| sz := sz p; pgdir := pgdir p; kstack := kstack p; state := UNUSED; pid := 0;
     parent := Null; tf := tf p; chan := chan p; killed := 0;
     ofile := ofile p; cwd := cwd p; name := "" |}.

(** The process table with its lock, [nextpid], [initproc], the file
    layer with the allocator in it, and [myproc()] as a slot. *)
Record kstate := {
  files : Pipe.fstate;
  ptable_lock : bool;
  procs : list proc;       (* ptable.proc[NPROC] *)
  nextpid : Z;
  initproc : ptr;
  cur : nat;
}.

Definition set_files (s : kstate) (x : Pipe.fstate) : kstate :=
  {| files := x; ptable_lock := ptable_lock s; procs := procs s;
     nextpid := nextpid s; initproc := initproc s; cur := cur s |}.

Definition set_ptable_lock (s : kstate) (x : bool) : kstate :=
  {| files := files s; ptable_lock := x; procs := procs s;
     nextpid := nextpid s; initproc := initproc s; cur := cur s |}.

Definition set_procs (s : kstate) (x : list proc) : kstate :=
  {| files := files s; ptable_lock := ptable_lock s; procs := x;
     nextpid := nextpid s; initproc := initproc s; cur := cur s |}.

Definition kmem (s : kstate) : Kalloc.kmem := Pipe.kmem (files s).

Definition set_kmem (s : kstate) (k : Kalloc.kmem) : kstate :=
  set_files s (Pipe.set_kmem (files s) k).

(** [p->field = ...] for the process in slot [i]. *)
Definition update_proc (s : kstate) (i : nat) (f : proc -> proc) : kstate :=
  set_procs s (alter f i (procs s)).

(** [wakeup1(chan)] *)
Definition wakeup1 (ps : list proc) (c : ptr) : list proc :=
  (fun p => if decide (state p = SLEEPING /\ chan p = c)
            then set_state p RUNNABLE else p) <$> ps.

(** The scan of [allocproc]: the first slot that is [UNUSED]. *)
Fixpoint first_unused (ps : list proc) (i : nat) : option nat :=
  match ps with
  | [] => None
  | p :: ps' => if decide (state p = UNUSED) then Some i else first_unused ps' (S i)
  end.

(** [allocproc].  After [found:] the text goes straight on to the kernel
    stack: the slot is not made [EMBRYO], no pid is taken from [nextpid],
    and [ptable.lock] is not released.  The frames laid out inside the
    stack page ([p->tf], [p->context]) are not part of the state. *)
Definition allocproc (s : kstate) : result (kstate * option nat) :=
  lk ← acquire (ptable_lock s);
  let s := set_ptable_lock s lk in
  match first_unused (procs s) 0 with
  | None =>
      lk ← release (ptable_lock s);
      Ok (set_ptable_lock s lk, None)
  | Some i =>
      (* found: Allocate kernel stack. *)
      '(ks, k) ← Kalloc.kalloc (kmem s);
      let s := update_proc (set_kmem s k) i (fun p => set_kstack p ks) in
      if ks =? 0 then Ok (update_proc s i (fun p => set_state p UNUSED), None)
      else Ok (s, Some i)
  end.

Section WithLayout.

Variables (kernel_end KERNBASE PHYSTOP : Z).
Variable put_inode : Z -> result unit.

(** [copyuvm(pgdir, sz)] of vm.c: the new page directory, 0 on
    failure.  It stays a parameter: what is shown of [fork] holds for
    whatever [copyuvm] returns. *)
Variable copyuvm : Kalloc.kmem -> Z -> Z -> result (Kalloc.kmem * Z).

(** [for(i = 0; i < NOFILE; i++) if(curproc->ofile[i])
    np->ofile[i] = filedup(curproc->ofile[i]);], from slot [i] on. *)
Fixpoint dup_files (fs : Pipe.fstate) (i : nat) (from : list (option nat))
         (to : list (option nat)) : result (Pipe.fstate * list (option nat)) :=
  match from with
  | [] => Ok (fs, to)
  | None :: from' => dup_files fs (S i) from' to
  | Some f :: from' =>
      fs ← Pipe.filedup fs f;
      dup_files fs (S i) from' (<[i := Some f]> to)
  end.

(** [fork].  The statements in the order of the text; between the
    failure branch of [copyuvm] and the copy of the trap frame there is
    no [np->sz = curproc->sz] and no [np->parent = curproc]. *)
Definition fork (s : kstate) : result (kstate * Z) :=
  match procs s !! cur s with
  | None => Undefined
  | Some curproc =>
      (* Allocate process. *)
      '(s, np) ← allocproc s;
      match np with
      | None => Ok (s, -1)
      | Some np =>
          (* Copy process state from proc. *)
          '(k, d) ← copyuvm (kmem s) (pgdir curproc) (sz curproc);
          let s := update_proc (set_kmem s k) np (fun p => set_pgdir p d) in
          if d =? 0 then
            match procs s !! np with
            | None => Undefined
            | Some p =>
                k ← Kalloc.kfree kernel_end KERNBASE PHYSTOP (kmem s) (kstack p);
                let s := set_kmem s k in
                let s := update_proc s np (fun p => set_state (set_kstack p 0) UNUSED) in
                Ok (s, -1)
            end
          else
            match procs s !! np with
            | None => Undefined
            | Some p =>
                (* Clear %eax so that fork returns 0 in the child. *)
                let t := {| eax := 0; esp := esp (tf curproc); eip := eip (tf curproc) |} in
                '(fs, o) ← dup_files (files s) 0 (ofile curproc) (ofile p);
                let s := set_files s fs in
                let s := update_proc s np (fun p =>
                           set_name (set_cwd (set_ofile (set_tf p t) o) (cwd curproc))
                                    (name curproc)) in
                let pid := pid p in
                lk ← acquire (ptable_lock s);
                let s := update_proc (set_ptable_lock s lk) np
                                     (fun p => set_state p RUNNABLE) in
                lk ← release (ptable_lock s);
                Ok (set_ptable_lock s lk, pid)
            end
      end
  end.

(** [for(fd = 0; fd < NOFILE; fd++)] of [exit]: close what is open. *)
Fixpoint close_files (fs : Pipe.fstate) (o : list (option nat))
  : result (Pipe.fstate * list (option nat)) :=
  match o with
  | [] => Ok (fs, [])
  | None :: o' =>
      '(fs, r) ← close_files fs o';
      Ok (fs, None :: r)
  | Some f :: o' =>
      fs ← Pipe.fileclose kernel_end KERNBASE PHYSTOP put_inode fs f;
      '(fs, r) ← close_files fs o';
      Ok (fs, None :: r)
  end.

(** "Pass abandoned children to init.": the loop over [ptable.proc]
    from slot [i] on, [togo] slots to go. *)
Fixpoint reparent (togo i : nat) (ps : list proc) (curproc init : ptr)
  : list proc :=
  match togo with
  | O => ps
  | S togo' =>
      match ps !! i with
      | None => ps
      | Some p =>
          if decide (parent p = curproc) then
            let ps := alter (fun q => set_parent q init) i ps in
            let ps := if decide (state p = ZOMBIE) then wakeup1 ps init else ps in
            reparent togo' (S i) ps curproc init
          else reparent togo' (S i) ps curproc init
      end
  end.

(** [exit], up to its call of [sched()], which is where the process
    leaves the CPU for good: the state handed to the scheduler. *)
Definition exit_to_sched (s : kstate) : result kstate :=
  match procs s !! cur s with
  | None => Undefined
  | Some curproc =>
      if decide (ProcPtr (cur s) = initproc s) then Panic "init exiting"
      else
        (* Close all open files. *)
        '(fs, o) ← close_files (files s) (ofile curproc);
        let s := set_files s fs in
        let s := update_proc s (cur s) (fun p => set_cwd (set_ofile p o) 0) in
        lk ← acquire (ptable_lock s);
        let s := set_ptable_lock s lk in
        (* Parent might be sleeping in wait(). *)
        let ps := wakeup1 (procs s) (parent curproc) in
        let ps := reparent (length ps) 0 ps (ProcPtr (cur s)) (initproc s) in
        (* Jump into the scheduler, never to return. *)
        let ps := alter (fun p => set_state p ZOMBIE) (cur s) ps in
        Ok (set_procs s ps)
  end.

(** The scan of [wait]: the first child that is a [ZOMBIE], and whether
    there is a child at all among the slots passed on the way. *)
Fixpoint first_zombie (ps : list proc) (i : nat) (curproc : ptr) (havekids : bool)
  : option (nat * proc) * bool :=
  match ps with
  | [] => (None, havekids)
  | p :: ps' =>
      if decide (parent p = curproc) then
        if decide (state p = ZOMBIE) then (Some (i, p), true)
        else first_zombie ps' (S i) curproc true
      else first_zombie ps' (S i) curproc havekids
  end.

Inductive wait_outcome :=
| WaitReturn (r : Z)
| WaitAsleep.            (* in [sleep(curproc, &ptable.lock)] *)

(** One turn of the [for(;;)] of [wait], [ptable.lock] held.  For the
    child found, the kernel stack goes to [kfree] and the slot is
    cleared; there is no call of [freevm] and [p->kstack] and
    [p->pgdir] keep their values. *)
Definition wait_run (s : kstate) : result (kstate * wait_outcome) :=
  match procs s !! cur s with
  | None => Undefined
  | Some curproc =>
      match first_zombie (procs s) 0 (ProcPtr (cur s)) false with
      | (Some (i, p), _) =>
          (* Found one. *)
          let pid := pid p in
          k ← Kalloc.kfree kernel_end KERNBASE PHYSTOP (kmem s) (kstack p);
          let s := update_proc (set_kmem s k) i cleared in
          lk ← release (ptable_lock s);
          Ok (set_ptable_lock s lk, WaitReturn pid)
      | (None, havekids) =>
          (* No point waiting if we don't have any children. *)
          if negb havekids || negb (killed curproc =? 0) then
            lk ← release (ptable_lock s);
            Ok (set_ptable_lock s lk, WaitReturn (-1))
          else
            (* Wait for children to exit. *)
            Ok (update_proc s (cur s)
                  (fun p => set_state (set_chan p (ProcPtr (cur s))) SLEEPING),
                WaitAsleep)
      end
  end.

Definition wait (s : kstate) : result (kstate * wait_outcome) :=
  lk ← acquire (ptable_lock s);
  wait_run (set_ptable_lock s lk).

(** Back from [sleep]: [p->chan = 0], and round the loop again. *)
Definition wait_wake (s : kstate) : result (kstate * wait_outcome) :=
  wait_run (update_proc s (cur s) (fun p => set_chan p Null)).

End WithLayout.

(** ** fork cannot return a pid *)

Lemma allocproc_keeps_lock (s s1 : kstate) (i : nat) :
  allocproc s = Ok (s1, Some i) -> ptable_lock s1 = true.
Proof.
  unfold allocproc. intros H. bind_inv H.
  assert (Ha : a = true).
  { unfold acquire in E. destruct (ptable_lock s); [discriminate|].
    injection E as <-. reflexivity. }
  subst a. cbn [ptable_lock set_ptable_lock procs] in H.
  destruct (first_unused (procs s) 0) as [j|].
  - bind_inv H. destruct a as [ks k]. destruct (ks =? 0).
    + discriminate.
    + injection H as <- _. reflexivity.
  - bind_inv H. discriminate.
Qed.

Section Facts.

Variables (kernel_end KERNBASE PHYSTOP : Z).
Variable copyuvm : Kalloc.kmem -> Z -> Z -> result (Kalloc.kmem * Z).

(** Whatever [copyuvm] does: when [fork] returns, it returns -1.  The
    slot found by [allocproc] comes back with [ptable.lock] held, and
    the [acquire(&ptable.lock)] at the end of [fork] panics. *)
Lemma fork_returns_minus_1 (s s' : kstate) (r : Z) :
  fork kernel_end KERNBASE PHYSTOP copyuvm s = Ok (s', r) -> r = -1.
Proof.
  unfold fork. intros H.
  destruct (procs s !! cur s) as [curproc|]; [|discriminate].
  bind_inv H. destruct a as [s1 [np|]].
  2: { injection H as _ <-. reflexivity. }
  pose proof (allocproc_keeps_lock _ _ _ E) as Hlk.
  bind_inv H. destruct a as [k d].
  destruct (d =? 0).
  - destruct (procs _ !! np); [|discriminate].
    bind_inv H. injection H as _ <-. reflexivity.
  - destruct (procs _ !! np); [|discriminate].
    bind_inv H. destruct a as [fs o].
    cbn [ptable_lock set_files update_proc set_procs set_kmem] in H.
    rewrite Hlk in H. discriminate.
Qed.

End Facts.

(** ** A shell and its child *)

Definition no_regs : trapframe := {| eax := 0; esp := 0; eip := 0 |}.

Definition unused_slot : proc :=
  {| sz := 0; pgdir := 0; kstack := 0; state := UNUSED; pid := 0; parent := Null;
     tf := no_regs; chan := Null; killed := 0; ofile := [None; None]; cwd := 0;
     name := "" |}.

(** init, asleep in [wait]. *)
Definition init_proc : proc :=
  {| sz := 12288; pgdir := 0x803fe000; kstack := 0x803fd000; state := SLEEPING;
     pid := 1; parent := Null; tf := no_regs; chan := ProcPtr 0; killed := 0;
     ofile := [Some 0%nat; None]; cwd := 1; name := "init" |}.

Definition sh_proc (st : procstate) : proc :=
  {| sz := 16384; pgdir := 0x803fc000; kstack := 0x803fb000; state := st;
     pid := 2; parent := ProcPtr 0; tf := no_regs; chan := Null; killed := 0;
     ofile := [Some 0%nat; None]; cwd := 1; name := "sh" |}.

(** The child as [fork] is specified to make it: pid 3, child of the
    shell in slot 1, with a kernel stack and a page directory of its
    own. *)
Definition child_proc : proc :=
  {| sz := 16384; pgdir := 0x803f9000; kstack := 0x803fa000; state := RUNNING;
     pid := 3; parent := ProcPtr 1; tf := no_regs; chan := Null; killed := 0;
     ofile := [Some 0%nat; None]; cwd := 1; name := "sh" |}.

Definition console (refs : Z) : Pipe.file :=
  {| Pipe.type := Pipe.FD_INODE; Pipe.ref := refs; Pipe.readable := 1;
     Pipe.writable := 1; Pipe.fpipe := 0; Pipe.ip := 77; Pipe.off := 0 |}.

Definition files_with (refs : Z) : Pipe.fstate :=
  {| Pipe.kmem := Kalloc.boot_kmem; Pipe.ftable_lock := false;
     Pipe.ftable := [console refs]; Pipe.pipes := ∅ |}.

(** The shell is running and calls [fork]. *)
Definition before_fork : kstate :=
  {| files := files_with 2; ptable_lock := false;
     procs := [init_proc; sh_proc RUNNING; unused_slot; unused_slot];
     nextpid := 3; initproc := ProcPtr 0; cur := 1 |}.

(** The child is running and calls [exit]. *)
Definition child_running : kstate :=
  {| files := files_with 3; ptable_lock := false;
     procs := [init_proc; sh_proc RUNNABLE; child_proc; unused_slot];
     nextpid := 4; initproc := ProcPtr 0; cur := 2 |}.

(** The scheduler lets go of [ptable.lock] and runs the process in
    slot [i]. *)
Definition runs (s : kstate) (i : nat) : kstate :=
  {| files := files s; ptable_lock := false;
     procs := alter (fun p => set_state p RUNNING) i (procs s);
     nextpid := nextpid s; initproc := initproc s; cur := i |}.

Definition stock_copyuvm (k : Kalloc.kmem) (pgdir sz : Z) : result (Kalloc.kmem * Z) :=
  Ok (k, 0x803f9000).

(** What is looked at in the run below. *)
Record observed := {
  child_after_exit : option procstate;
  first_wait : wait_outcome;
  child_after_wait : option procstate;
  freelist_head : Z;              (* [kmem.freelist] after the first [wait] *)
  freelist_next : Z;              (* and the page behind it *)
  child_pgdir : option Z;         (* [p->pgdir] of the slot after the first [wait] *)
  second_wait : wait_outcome;
}.

(** The child exits, the parent is run and calls [wait], twice. *)
Definition child_exits_parent_waits : result observed :=
  z ← exit_to_sched Kalloc.boot_end Kalloc.boot_KERNBASE Kalloc.boot_PHYSTOP
                    (fun _ => Ok tt) child_running;
  '(s2, w1) ← wait Kalloc.boot_end Kalloc.boot_KERNBASE Kalloc.boot_PHYSTOP (runs z 1);
  '(s3, w2) ← wait Kalloc.boot_end Kalloc.boot_KERNBASE Kalloc.boot_PHYSTOP s2;
  Ok {| child_after_exit := state <$> procs z !! 2%nat;
        first_wait := w1;
        child_after_wait := state <$> procs s2 !! 2%nat;
        freelist_head := Kalloc.freelist (kmem s2);
        freelist_next := load32 (Kalloc.mem (kmem s2)) (Kalloc.freelist (kmem s2));
        child_pgdir := pgdir <$> procs s2 !! 2%nat;
        second_wait := w2 |}.

(** C3.  On this code [fork] has no way to return a pid: all it can
    return is -1, and called by the shell with a free slot and memory
    to copy into it stops in [panic("acquire")].  And [wait] does not
    give back the page tables: for a child made as [fork] is specified
    to make it, which exits, [wait] in the parent returns the child's
    pid 3, marks the slot [UNUSED] and frees the kernel stack
    [0x803fa000], the one page put in front of the old head
    [0x803ff000] of the free list, while the slot keeps the page
    directory [0x803f9000], which no [freevm] has freed.  The next
    [wait] returns -1. *)
Theorem fork_wait_on_this_code :
  (forall kernel_end KERNBASE PHYSTOP copyuvm s s' r,
      fork kernel_end KERNBASE PHYSTOP copyuvm s = Ok (s', r) -> r = -1) /\
  fork Kalloc.boot_end Kalloc.boot_KERNBASE Kalloc.boot_PHYSTOP
       stock_copyuvm before_fork = Panic "acquire" /\
  child_exits_parent_waits =
    Ok {| child_after_exit := Some ZOMBIE;
          first_wait := WaitReturn 3;
          child_after_wait := Some UNUSED;
          freelist_head := 0x803fa000;
          freelist_next := 0x803ff000;
          child_pgdir := Some 0x803f9000;
          second_wait := WaitReturn (-1) |}.
Proof.
  split; [|split].
  - intros ke kb ph cp s s' r. apply fork_returns_minus_1.
  - vm_compute. reflexivity.
  - vm_compute. reflexivity.
Qed.

End Proc.

(** * string.c: memory and string routines *)

Module Strings.

(** [*p = c] through a [char *p]. *)
Definition store8 (m : memory) (a c : Z) : memory :=
  fun b => if b =? a then c else m b.

(** [(uchar)c] *)
Definition uchar (c : Z) : Z := c mod 256.

(** Every cell of the memory holds a byte. *)
Definition bytes (m : memory) : Prop := forall a, 0 <= m a < 256.

(** ** memcmp *)

(** [while(n-- > 0)] of [memcmp], with [n] rounds to go; [s1] and [s2]
    point to [uchar]. *)
Fixpoint memcmp_loop (m : memory) (s1 s2 : Z) (n : nat) : Z :=
  match n with
  | O => 0
  | S n' =>
      if negb (m s1 =? m s2) then m s1 - m s2
      else memcmp_loop m (wrap32 (s1 + 1)) (wrap32 (s2 + 1)) n'
  end.

Definition memcmp (m : memory) (v1 v2 n : Z) : Z :=
  memcmp_loop m v1 v2 (Z.to_nat n).

(** ** memmove *)

(** [while(n-- > 0) *d++ = *s++;] *)
Fixpoint copy_up (n : nat) (m : memory) (d s : Z) : memory :=
  match n with
  | O => m
  | S n' => copy_up n' (store8 m d (m s)) (wrap32 (d + 1)) (wrap32 (s + 1))
  end.

(** [while(n-- > 0) *--d = *--s;] *)
Fixpoint copy_down (n : nat) (m : memory) (d s : Z) : memory :=
  match n with
  | O => m
  | S n' =>
      let d := wrap32 (d - 1) in
      let s := wrap32 (s - 1) in
      copy_down n' (store8 m d (m s)) d s
  end.

Definition memmove (m : memory) (dst src n : Z) : memory :=
  let s := src in
  let d := dst in
  if (s <? d) && (wrap32 (s + n) >? d) then
    copy_down (Z.to_nat n) m (wrap32 (d + n)) (wrap32 (s + n))
  else copy_up (Z.to_nat n) m d s.

Definition memcpy (m : memory) (dst src n : Z) : memory := memmove m dst src n.

(** ** strncmp *)

(** [while(n > 0 && *p && *p == *q) n--, p++, q++;] and the two
    [return]s behind it. *)
Fixpoint strncmp_loop (m : memory) (p q : Z) (n : nat) : Z :=
  match n with
  | O => 0
  | S n' =>
      if negb (m p =? 0) && (m p =? m q)
      then strncmp_loop m (wrap32 (p + 1)) (wrap32 (q + 1)) n'
      else uchar (m p) - uchar (m q)
  end.

Definition strncmp (m : memory) (p q n : Z) : Z :=
  strncmp_loop m p q (Z.to_nat n).

(** ** strncpy *)

(** [while(n-- > 0 && ( *s++ = *t++) != 0);]: the memory, [s], and the
    rounds left to the second loop. *)
Fixpoint strncpy_copy (n : nat) (m : memory) (s t : Z) : memory * Z * nat :=
  match n with
  | O => (m, s, O)
  | S n' =>
      let c := m t in
      let m := store8 m s c in
      if negb (c =? 0) then strncpy_copy n' m (wrap32 (s + 1)) (wrap32 (t + 1))
      else (m, wrap32 (s + 1), n')
  end.

(** [while(n-- > 0) *s++ = 0;] *)
Fixpoint strncpy_pad (n : nat) (m : memory) (s : Z) : memory :=
  match n with
  | O => m
  | S n' => strncpy_pad n' (store8 m s 0) (wrap32 (s + 1))
  end.

(** [n] is an [int]: for [n <= 0] neither loop is entered. *)
Definition strncpy (m : memory) (s t n : Z) : memory :=
  let '(m, s, k) := strncpy_copy (Z.to_nat n) m s t in
  strncpy_pad k m s.

(** ** safestrcpy *)

(** [while(--n > 0 && ( *s++ = *t++) != 0);], with [n - 1] rounds at
    most: the memory and [s]. *)
Fixpoint safestrcpy_copy (k : nat) (m : memory) (s t : Z) : memory * Z :=
  match k with
  | O => (m, s)
  | S k' =>
      let c := m t in
      let m := store8 m s c in
      if negb (c =? 0) then safestrcpy_copy k' m (wrap32 (s + 1)) (wrap32 (t + 1))
      else (m, wrap32 (s + 1))
  end.

Definition safestrcpy (m : memory) (s t n : Z) : memory :=
  if n <=? 0 then m
  else
    let '(m, s) := safestrcpy_copy (Z.to_nat (n - 1)) m s t in
    store8 m s 0.

(** ** strlen *)

(** [for(n = 0; s[n]; n++);], at most [fuel] times round. *)
Fixpoint strlen_loop (fuel : nat) (m : memory) (s n : Z) : option Z :=
  match fuel with
  | O => None
  | S fuel' =>
      if negb (m (wrap32 (s + n)) =? 0) then strlen_loop fuel' m s (int32 (n + 1))
      else Some n
  end.

Definition strlen (fuel : nat) (m : memory) (s : Z) : option Z :=
  strlen_loop fuel m s 0.


(** ** What the routines do *)

Lemma store8_eq (m : memory) (a c : Z) : store8 m a c a = c.
Proof. unfold store8. rewrite Z.eqb_refl. reflexivity. Qed.

Lemma store8_ne (m : memory) (a b c : Z) : b <> a -> store8 m a c b = m b.
Proof. intros H. unfold store8. apply Z.eqb_neq in H. rewrite H. reflexivity. Qed.

Ltac unwrap :=
  repeat match goal with
         | |- context [wrap32 ?x] => rewrite (wrap32_small x) by lia
         | H : context [wrap32 ?x] |- _ => rewrite (wrap32_small x) in H by lia
         end.

Lemma memcmp_loop_spec (m : memory) (n : nat) :
  forall s1 s2,
    0 <= s1 -> s1 + Z.of_nat n < 2 ^ 32 -> 0 <= s2 -> s2 + Z.of_nat n < 2 ^ 32 ->
    ((forall i, 0 <= i < Z.of_nat n -> m (s1 + i) = m (s2 + i)) /\
     memcmp_loop m s1 s2 n = 0) \/
    (exists k, 0 <= k < Z.of_nat n /\
               (forall i, 0 <= i < k -> m (s1 + i) = m (s2 + i)) /\
               m (s1 + k) <> m (s2 + k) /\
               memcmp_loop m s1 s2 n = m (s1 + k) - m (s2 + k)).
Proof.
  induction n as [|n IH]; intros s1 s2 H1 H1' H2 H2'.
  - left. split; [intros; lia | reflexivity].
  - cbn [memcmp_loop]. destruct (m s1 =? m s2) eqn:He; cbn [negb].
    + apply Z.eqb_eq in He. unwrap.
      destruct (IH (s1 + 1) (s2 + 1)) as [[Hall Hr] | (k & Hk & Hall & Hd & Hr)];
        try lia.
      * left. split; [|exact Hr]. intros i Hi.
        destruct (Z.eq_dec i 0) as [->|Hne]; [rewrite !Z.add_0_r; exact He|].
        specialize (Hall (i - 1) ltac:(lia)).
        replace (s1 + 1 + (i - 1)) with (s1 + i) in Hall by lia.
        replace (s2 + 1 + (i - 1)) with (s2 + i) in Hall by lia. exact Hall.
      * right. exists (k + 1). split; [lia|].
        replace (s1 + (k + 1)) with (s1 + 1 + k) by lia.
        replace (s2 + (k + 1)) with (s2 + 1 + k) by lia.
        split; [|split; assumption]. intros i Hi.
        destruct (Z.eq_dec i 0) as [->|Hne]; [rewrite !Z.add_0_r; exact He|].
        specialize (Hall (i - 1) ltac:(lia)).
        replace (s1 + 1 + (i - 1)) with (s1 + i) in Hall by lia.
        replace (s2 + 1 + (i - 1)) with (s2 + i) in Hall by lia. exact Hall.
    + apply Z.eqb_neq in He. right. exists 0. rewrite !Z.add_0_r.
      split; [lia|]. split; [intros; lia|]. split; [exact He | reflexivity].
Qed.

Lemma copy_up_spec (n : nat) :
  forall m d s,
    0 <= d -> d + Z.of_nat n < 2 ^ 32 -> 0 <= s -> s + Z.of_nat n < 2 ^ 32 ->
    d <= s \/ s + Z.of_nat n <= d ->
    (forall i, 0 <= i < Z.of_nat n -> copy_up n m d s (d + i) = m (s + i)) /\
    (forall a, ~ (d <= a < d + Z.of_nat n) -> copy_up n m d s a = m a).
Proof.
  induction n as [|n IH]; intros m d s Hd Hd' Hs Hs' Hsep.
  - split; [intros; lia | reflexivity].
  - cbn [copy_up]. unwrap.
    destruct (IH (store8 m d (m s)) (d + 1) (s + 1)) as [Hin Hout]; try lia.
    split.
    + intros i Hi. destruct (Z.eq_dec i 0) as [->|Hne].
      * rewrite !Z.add_0_r, Hout by lia. apply store8_eq.
      * specialize (Hin (i - 1) ltac:(lia)).
        replace (d + 1 + (i - 1)) with (d + i) in Hin by lia.
        replace (s + 1 + (i - 1)) with (s + i) in Hin by lia.
        rewrite Hin. apply store8_ne. lia.
    + intros a Ha. rewrite Hout by lia. apply store8_ne. lia.
Qed.

Lemma copy_down_spec (n : nat) :
  forall m d s,
    0 <= d -> d + Z.of_nat n < 2 ^ 32 -> 0 <= s -> s + Z.of_nat n < 2 ^ 32 ->
    s <= d ->
    let m' := copy_down n m (wrap32 (d + Z.of_nat n)) (wrap32 (s + Z.of_nat n)) in
    (forall i, 0 <= i < Z.of_nat n -> m' (d + i) = m (s + i)) /\
    (forall a, ~ (d <= a < d + Z.of_nat n) -> m' a = m a).
Proof.
  induction n as [|n IH]; intros m d s Hd Hd' Hs Hs' Hsep.
  - split; [intros; lia | reflexivity].
  - cbn [copy_down]. cbv zeta.
    rewrite (wrap32_small (d + Z.of_nat (S n))) by lia.
    rewrite (wrap32_small (s + Z.of_nat (S n))) by lia.
    replace (d + Z.of_nat (S n) - 1) with (d + Z.of_nat n) by lia.
    replace (s + Z.of_nat (S n) - 1) with (s + Z.of_nat n) by lia.
    rewrite (wrap32_small (d + Z.of_nat n)) by lia.
    rewrite (wrap32_small (s + Z.of_nat n)) by lia.
    specialize (IH (store8 m (d + Z.of_nat n) (m (s + Z.of_nat n))) d s
                   ltac:(lia) ltac:(lia) ltac:(lia) ltac:(lia) ltac:(lia)).
    cbv zeta in IH.
    rewrite (wrap32_small (d + Z.of_nat n)), (wrap32_small (s + Z.of_nat n)) in IH by lia.
    destruct IH as [Hin Hout].
    split.
    + intros i Hi. destruct (Z.eq_dec i (Z.of_nat n)) as [->|Hne].
      * rewrite Hout by lia. apply store8_eq.
      * rewrite Hin by lia. apply store8_ne. lia.
    + intros a Ha. rewrite Hout by lia. apply store8_ne. lia.
Qed.

Lemma strncmp_loop_spec (m : memory) (n : nat) :
  bytes m ->
  forall p q,
    0 <= p -> p + Z.of_nat n < 2 ^ 32 -> 0 <= q -> q + Z.of_nat n < 2 ^ 32 ->
    strncmp_loop m p q n = 0 <->
    exists k, 0 <= k <= Z.of_nat n /\
              (forall i, 0 <= i < k -> m (p + i) = m (q + i) /\ m (p + i) <> 0) /\
              (k = Z.of_nat n \/ (m (p + k) = 0 /\ m (q + k) = 0)).
Proof.
  intros Hb. induction n as [|n IH]; intros p q Hp Hp' Hq Hq'.
  - cbn. split; [|reflexivity]. intros _. exists 0.
    split; [lia|]. split; [intros; lia | left; reflexivity].
  - cbn [strncmp_loop].
    destruct (negb (m p =? 0) && (m p =? m q)) eqn:Hc.
    + apply andb_true_iff in Hc as [Hnz He].
      apply negb_true_iff, Z.eqb_neq in Hnz. apply Z.eqb_eq in He.
      unwrap. rewrite (IH (p + 1) (q + 1)) by lia. split.
      * intros (k & Hk & Hall & Hend). exists (k + 1). split; [lia|].
        replace (p + (k + 1)) with (p + 1 + k) by lia.
        replace (q + (k + 1)) with (q + 1 + k) by lia.
        split; [|destruct Hend; [left; lia | right; assumption]].
        intros i Hi. destruct (Z.eq_dec i 0) as [->|Hne].
        -- rewrite !Z.add_0_r. split; assumption.
        -- specialize (Hall (i - 1) ltac:(lia)).
           replace (p + 1 + (i - 1)) with (p + i) in Hall by lia.
           replace (q + 1 + (i - 1)) with (q + i) in Hall by lia. exact Hall.
      * intros (k & Hk & Hall & Hend).
        assert (Hk0 : k <> 0).
        { intros ->. destruct Hend as [Hend | [Hend _]]; [lia|].
          rewrite Z.add_0_r in Hend. contradiction. }
        exists (k - 1). split; [lia|].
        replace (p + 1 + (k - 1)) with (p + k) by lia.
        replace (q + 1 + (k - 1)) with (q + k) by lia.
        split; [|destruct Hend; [left; lia | right; assumption]].
        intros i Hi. specialize (Hall (i + 1) ltac:(lia)).
        replace (p + (i + 1)) with (p + 1 + i) in Hall by lia.
        replace (q + (i + 1)) with (q + 1 + i) in Hall by lia. exact Hall.
    + pose proof (Hb p) as Bp. pose proof (Hb q) as Bq.
      unfold uchar. rewrite !Z.mod_small by lia.
      apply andb_false_iff in Hc. split.
      * intros Hz. assert (He : m p = m q) by lia.
        apply Z.eqb_eq in He as He'. rewrite He' in Hc.
        destruct Hc as [Hc|Hc]; [|discriminate].
        apply negb_false_iff, Z.eqb_eq in Hc.
        exists 0. rewrite !Z.add_0_r. split; [lia|].
        split; [intros; lia|]. right. split; congruence.
      * intros (k & Hk & Hall & Hend).
        destruct (Z.eq_dec k 0) as [->|Hk0].
        -- destruct Hend as [Hend | [H1 H2]]; [lia|].
           rewrite (Z.add_0_r p) in H1. rewrite (Z.add_0_r q) in H2. lia.
        -- destruct (Hall 0 ltac:(lia)) as [He Hnz].
           rewrite (Z.add_0_r p), (Z.add_0_r q) in He. rewrite (Z.add_0_r p) in Hnz.
           destruct Hc as [Hc|Hc].
           ++ apply negb_false_iff, Z.eqb_eq in Hc. congruence.
           ++ apply Z.eqb_neq in Hc. congruence.
Qed.

Lemma strncpy_pad_spec (n : nat) :
  forall m s,
    0 <= s -> s + Z.of_nat n < 2 ^ 32 ->
    (forall i, 0 <= i < Z.of_nat n -> strncpy_pad n m s (s + i) = 0) /\
    (forall a, ~ (s <= a < s + Z.of_nat n) -> strncpy_pad n m s a = m a).
Proof.
  induction n as [|n IH]; intros m s Hs Hs'.
  - split; [intros; lia | reflexivity].
  - cbn [strncpy_pad]. unwrap.
    destruct (IH (store8 m s 0) (s + 1)) as [Hin Hout]; try lia.
    split.
    + intros i Hi. destruct (Z.eq_dec i 0) as [->|Hne].
      * rewrite Z.add_0_r, Hout by lia. apply store8_eq.
      * specialize (Hin (i - 1) ltac:(lia)).
        replace (s + 1 + (i - 1)) with (s + i) in Hin by lia. exact Hin.
    + intros a Ha. rewrite Hout by lia. apply store8_ne. lia.
Qed.

Lemma strncpy_spec (n : nat) :
  forall m s t,
    0 <= s -> s + Z.of_nat n < 2 ^ 32 -> 0 <= t -> t + Z.of_nat n < 2 ^ 32 ->
    s + Z.of_nat n <= t \/ t + Z.of_nat n <= s ->
    let m' := (let '(m1, s1, k) := strncpy_copy n m s t in strncpy_pad k m1 s1) in
    (forall i, 0 <= i < Z.of_nat n ->
               (forall j, 0 <= j < i -> m (t + j) <> 0) -> m' (s + i) = m (t + i)) /\
    (forall i j, 0 <= j < i -> i < Z.of_nat n -> m (t + j) = 0 -> m' (s + i) = 0) /\
    (forall a, ~ (s <= a < s + Z.of_nat n) -> m' a = m a).
Proof.
  induction n as [|n IH]; intros m s t Hs Hs' Ht Ht' Hsep.
  - cbn. split; [intros; lia|]. split; [intros; lia | reflexivity].
  - cbn [strncpy_copy]. cbv zeta.
    destruct (m t =? 0) eqn:Hc; cbn [negb].
    + apply Z.eqb_eq in Hc. unwrap.
      destruct (strncpy_pad_spec n (store8 m s (m t)) (s + 1)) as [Hin Hout]; try lia.
      split; [|split].
      * intros i Hi Hnz. destruct (Z.eq_dec i 0) as [->|Hne].
        -- rewrite !Z.add_0_r, Hout by lia. apply store8_eq.
        -- specialize (Hnz 0 ltac:(lia)). rewrite Z.add_0_r in Hnz. contradiction.
      * intros i j Hj Hi Hz. specialize (Hin (i - 1) ltac:(lia)).
        replace (s + 1 + (i - 1)) with (s + i) in Hin by lia. exact Hin.
      * intros a Ha. rewrite Hout by lia. apply store8_ne. lia.
    + apply Z.eqb_neq in Hc. unwrap.
      specialize (IH (store8 m s (m t)) (s + 1) (t + 1)).
      destruct IH as (H1 & H2 & H3); try lia.
      cbv zeta in H1, H2, H3.
      destruct (strncpy_copy n (store8 m s (m t)) (s + 1) (t + 1)) as [[m1 s1] k].
      split; [|split].
      * intros i Hi Hnz. destruct (Z.eq_dec i 0) as [->|Hne].
        -- rewrite !Z.add_0_r, H3 by lia. apply store8_eq.
        -- specialize (H1 (i - 1) ltac:(lia)).
           replace (s + 1 + (i - 1)) with (s + i) in H1 by lia.
           replace (t + 1 + (i - 1)) with (t + i) in H1 by lia.
           rewrite H1; [apply store8_ne; lia|].
           intros j Hj. rewrite store8_ne by lia.
           replace (t + 1 + j) with (t + (j + 1)) by lia. apply Hnz. lia.
      * intros i j Hj Hi Hz.
        assert (j <> 0) by (intros ->; rewrite Z.add_0_r in Hz; contradiction).
        specialize (H2 (i - 1) (j - 1) ltac:(lia) ltac:(lia)).
        replace (s + 1 + (i - 1)) with (s + i) in H2 by lia.
        apply H2. rewrite store8_ne by lia.
        replace (t + 1 + (j - 1)) with (t + j) by lia. exact Hz.
      * intros a Ha. rewrite H3 by lia. apply store8_ne. lia.
Qed.

Lemma safestrcpy_copy_spec (k : nat) :
  forall m s t,
    0 <= s -> s + Z.of_nat k < 2 ^ 32 -> 0 <= t -> t + Z.of_nat k < 2 ^ 32 ->
    s + Z.of_nat k <= t \/ t + Z.of_nat k <= s ->
    exists m1 j,
      0 <= j <= Z.of_nat k /\
      (forall i, 0 <= i < j -> m1 (s + i) = m (t + i) /\ m (t + i) <> 0) /\
      ((j = Z.of_nat k /\ safestrcpy_copy k m s t = (m1, s + j) /\
        (forall a, ~ (s <= a < s + j) -> m1 a = m a)) \/
       (j < Z.of_nat k /\ m (t + j) = 0 /\ m1 (s + j) = 0 /\
        safestrcpy_copy k m s t = (m1, s + j + 1) /\
        (forall a, ~ (s <= a <= s + j) -> m1 a = m a))).
Proof.
  induction k as [|k IH]; intros m s t Hs Hs' Ht Ht' Hsep.
  - exists m, 0. split; [lia|]. split; [intros; lia|]. left.
    rewrite Z.add_0_r. cbn. auto.
  - cbn [safestrcpy_copy]. cbv zeta.
    destruct (m t =? 0) eqn:Hc; cbn [negb].
    + apply Z.eqb_eq in Hc. unwrap.
      exists (store8 m s (m t)), 0. split; [lia|]. split; [intros; lia|].
      right. rewrite !Z.add_0_r. split; [lia|]. split; [exact Hc|].
      split; [rewrite store8_eq; exact Hc|]. split; [reflexivity|].
      intros a Ha. apply store8_ne. lia.
    + apply Z.eqb_neq in Hc. unwrap.
      destruct (IH (store8 m s (m t)) (s + 1) (t + 1)) as (m1 & j & Hj & Hall & Hend);
        try lia.
      exists m1, (j + 1). split; [lia|].
      assert (Hfirst : m1 s = m t).
      { destruct Hend as [(_ & _ & Hf) | (_ & _ & _ & _ & Hf)];
          (rewrite Hf by lia); apply store8_eq. }
      split.
      * intros i Hi. destruct (Z.eq_dec i 0) as [->|Hne].
        -- rewrite !Z.add_0_r. split; assumption.
        -- destruct (Hall (i - 1) ltac:(lia)) as [Ha Hb].
           replace (s + 1 + (i - 1)) with (s + i) in Ha by lia.
           replace (t + 1 + (i - 1)) with (t + i) in Ha, Hb by lia.
           rewrite store8_ne in Ha, Hb by lia. split; assumption.
      * destruct Hend as [(Hjk & Hrun & Hf) | (Hjk & Hz & Hz' & Hrun & Hf)].
        -- left. split; [lia|]. rewrite Hrun. split; [f_equal; lia|].
           intros a Ha. rewrite Hf by lia. apply store8_ne. lia.
        -- right. split; [lia|].
           replace (t + (j + 1)) with (t + 1 + j) by lia.
           replace (s + (j + 1)) with (s + 1 + j) by lia.
           rewrite store8_ne in Hz by lia.
           split; [exact Hz|]. split; [exact Hz'|]. rewrite Hrun.
           split; [f_equal; lia|].
           intros a Ha. rewrite Hf by lia. apply store8_ne. lia.
Qed.

(** X1. [memmove] copies right also when the two ranges overlap: after
    [memmove(dst, src, n)] the [n] bytes from [dst] on are the [n] bytes
    that were at [src] before the call, and no byte outside
    [[dst, dst+n)] has changed. *)
Theorem memmove_copies_overlapping (m : memory) (dst src n : Z) :
  0 <= n -> 0 <= src -> src + n < 2 ^ 32 -> 0 <= dst -> dst + n < 2 ^ 32 ->
  (forall i, 0 <= i < n -> memmove m dst src n (dst + i) = m (src + i)) /\
  (forall a, ~ (dst <= a < dst + n) -> memmove m dst src n a = m a).
Proof.
  intros Hn Hs Hs' Hd Hd'. unfold memmove. cbv zeta.
  destruct ((src <? dst) && (wrap32 (src + n) >? dst)) eqn:Hc;
    rewrite (wrap32_small (src + n)) in Hc by lia.
  - apply andb_true_iff in Hc as [H1 _]. apply Z.ltb_lt in H1.
    pose proof (copy_down_spec (Z.to_nat n) m dst src) as H.
    rewrite Z2Nat.id in H by lia. apply H; lia.
  - assert (Hsep : dst <= src \/ src + n <= dst).
    { apply andb_false_iff in Hc as [Hc|Hc].
      - apply Z.ltb_ge in Hc. lia.
      - rewrite Z.gtb_ltb in Hc. apply Z.ltb_ge in Hc. lia. }
    pose proof (copy_up_spec (Z.to_nat n) m dst src) as H.
    rewrite Z2Nat.id in H by lia. apply H; lia.
Qed.

(** X2. [memcmp] returns 0 when the two ranges of [n] bytes are equal,
    and otherwise the difference of the bytes at the first place where
    they differ, which is not 0. *)
Theorem memcmp_first_difference (m : memory) (v1 v2 n : Z) :
  0 <= n -> 0 <= v1 -> v1 + n < 2 ^ 32 -> 0 <= v2 -> v2 + n < 2 ^ 32 ->
  ((forall i, 0 <= i < n -> m (v1 + i) = m (v2 + i)) /\ memcmp m v1 v2 n = 0) \/
  (exists k, 0 <= k < n /\
             (forall i, 0 <= i < k -> m (v1 + i) = m (v2 + i)) /\
             m (v1 + k) <> m (v2 + k) /\
             memcmp m v1 v2 n = m (v1 + k) - m (v2 + k)).
Proof.
  intros Hn H1 H1' H2 H2'. unfold memcmp.
  pose proof (memcmp_loop_spec m (Z.to_nat n) v1 v2) as H.
  rewrite Z2Nat.id in H by lia. apply H; lia.
Qed.

(** X3. [strncmp(p, q, n)] is 0 exactly when the two strings agree up
    to [n] bytes or up to a NUL they both have at the same place; what
    follows that place is not looked at. *)
Theorem strncmp_zero_iff (m : memory) (p q n : Z) :
  bytes m ->
  0 <= n -> 0 <= p -> p + n < 2 ^ 32 -> 0 <= q -> q + n < 2 ^ 32 ->
  strncmp m p q n = 0 <->
  exists k, 0 <= k <= n /\
            (forall i, 0 <= i < k -> m (p + i) = m (q + i) /\ m (p + i) <> 0) /\
            (k = n \/ (m (p + k) = 0 /\ m (q + k) = 0)).
Proof.
  intros Hb Hn Hp Hp' Hq Hq'. unfold strncmp.
  pose proof (strncmp_loop_spec m (Z.to_nat n) Hb p q) as H.
  rewrite Z2Nat.id in H by lia. apply H; lia.
Qed.

(** X4. [strncpy(s, t, n)] writes exactly [n] bytes: the bytes of [t]
    up to its NUL and then zeros up to [n].  If [t] has no NUL among
    its first [n] bytes, the copy has none either. *)
Theorem strncpy_pads_with_zeros (m : memory) (s t n : Z) :
  0 <= s -> s + n < 2 ^ 32 -> 0 <= t -> t + n < 2 ^ 32 ->
  s + n <= t \/ t + n <= s ->
  (forall i, 0 <= i < n ->
             (forall j, 0 <= j < i -> m (t + j) <> 0) ->
             strncpy m s t n (s + i) = m (t + i)) /\
  (forall i j, 0 <= j < i -> i < n -> m (t + j) = 0 -> strncpy m s t n (s + i) = 0) /\
  (forall a, ~ (s <= a < s + n) -> strncpy m s t n a = m a).
Proof.
  intros Hs Hs' Ht Ht' Hsep. unfold strncpy.
  destruct (Z_le_gt_dec n 0) as [Hn|Hn].
  - replace (Z.to_nat n) with O by lia. cbn.
    split; [intros; lia|]. split; [intros; lia | reflexivity].
  - pose proof (strncpy_spec (Z.to_nat n) m s t) as H.
    rewrite Z2Nat.id in H by lia. apply H; lia.
Qed.

(** X5. [safestrcpy(s, t, n)] with [n > 0] leaves a NUL-terminated
    string in [s]: the longest prefix of the string [t] that has at most
    [n - 1] bytes, and a NUL behind it; it writes nowhere outside
    [[s, s+n)].  With [n <= 0] it writes nothing. *)
Theorem safestrcpy_terminates (m : memory) (s t n : Z) :
  0 <= s -> s + n < 2 ^ 32 -> 0 <= t -> t + n < 2 ^ 32 ->
  s + n <= t \/ t + n <= s ->
  (n <= 0 -> safestrcpy m s t n = m) /\
  (0 < n ->
   exists k, 0 <= k < n /\
             safestrcpy m s t n (s + k) = 0 /\
             (forall i, 0 <= i < k ->
                        safestrcpy m s t n (s + i) = m (t + i) /\ m (t + i) <> 0) /\
             (k = n - 1 \/ m (t + k) = 0)) /\
  (forall a, ~ (s <= a < s + n) -> safestrcpy m s t n a = m a).
Proof.
  intros Hs Hs' Ht Ht' Hsep. unfold safestrcpy.
  destruct (n <=? 0) eqn:Hn.
  - apply Z.leb_le in Hn. split; [reflexivity|]. split; [intros; lia | reflexivity].
  - apply Z.leb_gt in Hn. split; [intros; lia|].
    destruct (safestrcpy_copy_spec (Z.to_nat (n - 1)) m s t)
      as (m1 & j & Hj & Hall & Hend); try lia.
    rewrite Z2Nat.id in Hj, Hend by lia.
    destruct Hend as [(Hjk & Hrun & Hf) | (Hjk & Hz & Hz' & Hrun & Hf)];
      rewrite Hrun.
    + split.
      * intros _. exists j. split; [lia|]. split; [apply store8_eq|].
        split; [|left; exact Hjk].
        intros i Hi. rewrite store8_ne by lia. apply Hall, Hi.
      * intros a Ha. rewrite store8_ne by lia. apply Hf. lia.
    + split.
      * intros _. exists j. split; [lia|].
        split; [rewrite store8_ne by lia; exact Hz'|].
        split; [|right; exact Hz].
        intros i Hi. rewrite store8_ne by lia. apply Hall, Hi.
      * intros a Ha. rewrite store8_ne by lia. apply Hf. lia.
Qed.


Lemma strlen_loop_spec (m : memory) (s k : Z) (j : nat) :
  forall (n : Z) (fuel : nat),
    0 <= s -> s + k < 2 ^ 32 -> k < 2 ^ 31 ->
    0 <= n -> n + Z.of_nat j = k ->
    (forall i, n <= i < k -> m (s + i) <> 0) -> m (s + k) = 0 ->
    (j < fuel)%nat ->
    strlen_loop fuel m s n = Some k.
Proof.
  induction j as [|j IH]; intros n fuel Hs Hs' Hk Hn Hnj Hnz Hz Hf;
    (destruct fuel as [|fuel]; [lia|]); cbn [strlen_loop]; unwrap.
  - replace n with k by lia. rewrite Hz. reflexivity.
  - specialize (Hnz n ltac:(lia)) as Hnz'. apply Z.eqb_neq in Hnz'. rewrite Hnz'.
    cbn [negb]. rewrite int32_small by lia.
    apply IH; try lia. intros i Hi. apply Hnz. lia.
Qed.

(** X6. [strlen(s)] returns the index of the first NUL from [s] on. *)
Theorem strlen_first_nul (m : memory) (s k : Z) (fuel : nat) :
  0 <= s -> s + k < 2 ^ 32 -> 0 <= k < 2 ^ 31 ->
  (forall i, 0 <= i < k -> m (s + i) <> 0) -> m (s + k) = 0 ->
  (Z.to_nat k < fuel)%nat ->
  strlen fuel m s = Some k.
Proof.
  intros Hs Hs' Hk Hnz Hz Hf. unfold strlen.
  apply (strlen_loop_spec m s k (Z.to_nat k)); try lia; assumption.
Qed.

(** ** Two strings in memory *)

(** ["ab"] at 100 and ["abc"] at 200, NUL-terminated, in a memory of
    zeros. *)
Definition two_strings : memory :=
  store8 (store8 (store8 (store8 (store8 (fun _ => 0) 100 97) 101 98) 200 97) 201 98)
         202 99.

Lemma two_strings_bytes : bytes two_strings.
Proof.
  intros a. unfold two_strings, store8.
  repeat match goal with |- context [if ?c then _ else _] => destruct c end; lia.
Qed.

Lemma memmove_copies_overlapping_witness :
  (forall i, 0 <= i < 3 -> memmove two_strings 201 200 3 (201 + i) = two_strings (200 + i)) /\
  (forall a, ~ (201 <= a < 201 + 3) -> memmove two_strings 201 200 3 a = two_strings a).
Proof. apply (memmove_copies_overlapping two_strings 201 200 3); lia. Defined.

Lemma memcmp_first_difference_witness :
  ((forall i, 0 <= i < 3 -> two_strings (100 + i) = two_strings (200 + i)) /\
   memcmp two_strings 100 200 3 = 0) \/
  (exists k, 0 <= k < 3 /\
             (forall i, 0 <= i < k -> two_strings (100 + i) = two_strings (200 + i)) /\
             two_strings (100 + k) <> two_strings (200 + k) /\
             memcmp two_strings 100 200 3 = two_strings (100 + k) - two_strings (200 + k)).
Proof. apply (memcmp_first_difference two_strings 100 200 3); lia. Defined.

Lemma strncmp_zero_iff_witness :
  strncmp two_strings 100 200 2 = 0 <->
  exists k, 0 <= k <= 2 /\
            (forall i, 0 <= i < k ->
                       two_strings (100 + i) = two_strings (200 + i) /\
                       two_strings (100 + i) <> 0) /\
            (k = 2 \/ (two_strings (100 + k) = 0 /\ two_strings (200 + k) = 0)).
Proof.
  apply (strncmp_zero_iff two_strings 100 200 2); [exact two_strings_bytes | lia..].
Defined.

Lemma strncpy_pads_with_zeros_witness :
  (forall i, 0 <= i < 5 ->
             (forall j, 0 <= j < i -> two_strings (100 + j) <> 0) ->
             strncpy two_strings 300 100 5 (300 + i) = two_strings (100 + i)) /\
  (forall i j, 0 <= j < i -> i < 5 -> two_strings (100 + j) = 0 ->
               strncpy two_strings 300 100 5 (300 + i) = 0) /\
  (forall a, ~ (300 <= a < 300 + 5) -> strncpy two_strings 300 100 5 a = two_strings a).
Proof. apply (strncpy_pads_with_zeros two_strings 300 100 5); lia. Defined.

Lemma safestrcpy_terminates_witness :
  (3 <= 0 -> safestrcpy two_strings 300 200 3 = two_strings) /\
  (0 < 3 ->
   exists k, 0 <= k < 3 /\
             safestrcpy two_strings 300 200 3 (300 + k) = 0 /\
             (forall i, 0 <= i < k ->
                        safestrcpy two_strings 300 200 3 (300 + i) = two_strings (200 + i) /\
                        two_strings (200 + i) <> 0) /\
             (k = 3 - 1 \/ two_strings (200 + k) = 0)) /\
  (forall a, ~ (300 <= a < 300 + 3) ->
             safestrcpy two_strings 300 200 3 a = two_strings a).
Proof. apply (safestrcpy_terminates two_strings 300 200 3); lia. Defined.

Lemma strlen_first_nul_witness : strlen 4 two_strings 200 = Some 3.
Proof.
  apply (strlen_first_nul two_strings 200 3 4); try lia.
  - intros i Hi. assert (i = 0 \/ i = 1 \/ i = 2) as [-> | [-> | ->]] by lia;
      vm_compute; discriminate.
  - reflexivity.
Defined.

End Strings.


(** * kalloc.c: filling the free list *)

Module Freelist.

Import Kalloc.

(** Modelled from the spec: the macro [PGROUNDUP] of mmu.h, which is not
    among the sources.  Pages are 4 KiB; the macro takes an address up
    to the next page boundary, in [uint] arithmetic. *)
Definition PGROUNDUP (sz : Z) : Z :=
  Z.land (wrap32 (sz + PGSIZE - 1)) (Z.lnot (PGSIZE - 1)).

Section Allocator.

Variables (kernel_end KERNBASE PHYSTOP : Z).

(** [for(; p + PGSIZE <= (char* )vend; p += PGSIZE) kfree(p);], at most
    [fuel] times at the test; [None] when the fuel is used up. *)
Fixpoint freerange_loop (fuel : nat) (k : kmem) (p vend : Z) : option (result kmem) :=
  match fuel with
  | O => None
  | S fuel' =>
      if wrap32 (p + PGSIZE) <=? vend then
        match kfree kernel_end KERNBASE PHYSTOP k p with
        | Ok k' => freerange_loop fuel' k' (wrap32 (p + PGSIZE)) vend
        | Panic msg => Some (Panic msg)
        | Undefined => Some Undefined
        end
      else Some (Ok k)
  end.

(** [freerange(vstart, vend)].  There are [2^20] page addresses, so the
    test is reached [2^20 + 1] times at most before an address comes
    round again. *)
Definition freerange (k : kmem) (vstart vend : Z) : option (result kmem) :=
  freerange_loop (Z.to_nat (2 ^ 20 + 1)) k (PGROUNDUP vstart) vend.

(** [kinit1(vstart, vend)]: [initlock] leaves the lock free. *)
Definition kinit1 (k : kmem) (vstart vend : Z) : option (result kmem) :=
  let k := {| mem := mem k; lock := false; use_lock := 0; freelist := freelist k |} in
  freerange k vstart vend.

(** ** The list in the pages *)

(** [l] is the list [kalloc] walks from [head]: every page holds the
    address of the next in its first word, and 0 ends the list. *)
Fixpoint is_freelist (m : memory) (head : Z) (l : list Z) : Prop :=
  match l with
  | [] => head = 0
  | v :: l' => head = v /\ v <> 0 /\ is_freelist m (load32 m v) l'
  end.

(** A page-aligned address of 32 bits. *)
Definition page (v : Z) : Prop := v mod PGSIZE = 0 /\ 0 <= v < 2 ^ 32.

(** The pages [p], [p + PGSIZE], ..., [n] of them. *)
Definition pages_from (p : Z) (n : nat) : list Z :=
  map (fun j => p + PGSIZE * Z.of_nat j) (seq 0 n).

(** [n] calls of [kalloc] one after the other: the pages returned, in
    the order of the calls. *)
Fixpoint kalloc_times (n : nat) (k : kmem) : result (list Z * kmem) :=
  match n with
  | O => Ok ([], k)
  | S n' =>
      '(v, k) ← kalloc k;
      '(vs, k) ← kalloc_times n' k;
      Ok (v :: vs, k)
  end.

(** ** Facts *)

Lemma load32_frame (m m' : memory) (a : Z) :
  (forall b, a <= b < a + 4 -> m' b = m b) -> load32 m' a = load32 m a.
Proof. intros H. unfold load32. rewrite !H by lia. reflexivity. Qed.

Lemma is_freelist_frame (m m' : memory) (l : list Z) :
  forall head,
    (forall u b, u ∈ l -> u <= b < u + 4 -> m' b = m b) ->
    is_freelist m head l -> is_freelist m' head l.
Proof.
  induction l as [|v l IH]; intros head Hfr H; cbn in *; [exact H|].
  destruct H as (Hh & Hv & Hl). split; [exact Hh|]. split; [exact Hv|].
  rewrite (load32_frame m m' v).
  - apply IH; [|exact Hl]. intros u b Hu. apply Hfr. right. exact Hu.
  - intros b Hb. apply (Hfr v b); [left | exact Hb].
Qed.

Lemma is_freelist_head (m : memory) (head : Z) (l : list Z) :
  is_freelist m head l -> Forall page l -> 0 <= head < 2 ^ 32.
Proof.
  destruct l as [|v l]; cbn.
  - intros ->. lia.
  - intros (-> & _) H. apply Forall_cons in H as [[_ H] _]. exact H.
Qed.

Lemma pages_apart (u v b : Z) :
  page u -> page v -> u <> v -> u <= b < u + 4 -> ~ (v <= b < v + PGSIZE).
Proof. unfold page, PGSIZE. intros [Hu _] [Hv _] Hne Hb. lia_mod. Qed.

Lemma kfree_mem_frame (m : memory) (v head b : Z) :
  ~ (v <= b < v + PGSIZE) ->
  store32 (memset m v 1 PGSIZE) v head b = m b.
Proof.
  unfold PGSIZE. intros Hb. unfold store32, memset.
  repeat match goal with
         | |- context [?x =? ?y] =>
             replace (x =? y) with false by (symmetry; apply Z.eqb_neq; lia)
         end.
  destruct (Z.leb_spec v b); destruct (Z.ltb_spec b (v + 4096)); cbn; try reflexivity.
  lia.
Qed.

Lemma accepted_is_page (v : Z) :
  kfree_accepts kernel_end KERNBASE PHYSTOP v = true -> v mod PGSIZE = 0.
Proof.
  unfold kfree_accepts. intros H. apply negb_true_iff in H.
  apply orb_false_iff in H as [H _]. apply orb_false_iff in H as [H _].
  apply negb_false_iff, Z.eqb_eq in H. exact H.
Qed.

Lemma kfree_pushes (k : kmem) (l : list Z) (v : Z) :
  0 < kernel_end ->
  lock_free k -> is_freelist (mem k) (freelist k) l -> Forall page l ->
  kfree_accepts kernel_end KERNBASE PHYSTOP v = true -> 0 <= v < 2 ^ 32 -> v ∉ l ->
  exists k',
    kfree kernel_end KERNBASE PHYSTOP k v = Ok k' /\
    is_freelist (mem k') (freelist k') (v :: l) /\
    lock k' = lock k /\ use_lock k' = use_lock k.
Proof.
  intros Hend Hlk Hl Hpg Hacc Hv Hnin.
  rewrite (kfree_ok _ _ _ k v Hacc Hlk). eexists. split; [reflexivity|].
  cbn [mem freelist lock use_lock]. split; [|split; reflexivity].
  cbn [is_freelist]. split; [reflexivity|].
  split; [exact (kfree_accepts_nonzero _ _ _ v Hend Hacc)|].
  rewrite load32_store32 by (eapply is_freelist_head; eassumption).
  apply (is_freelist_frame (mem k)); [|exact Hl].
  intros u b Hu Hb. apply kfree_mem_frame.
  apply (pages_apart u v b).
  - rewrite Forall_forall in Hpg. apply Hpg, Hu.
  - split; [apply accepted_is_page, Hacc | exact Hv].
  - intros ->. contradiction.
  - exact Hb.
Qed.

Lemma kalloc_pops (k : kmem) (l : list Z) (v : Z) :
  lock_free k -> is_freelist (mem k) (freelist k) (v :: l) ->
  exists k',
    kalloc k = Ok (v, k') /\ is_freelist (mem k') (freelist k') l /\
    mem k' = mem k /\ lock k' = lock k /\ use_lock k' = use_lock k.
Proof.
  intros Hlk (Hh & Hv & Hl). rewrite (kalloc_ok k Hlk). rewrite Hh.
  apply Z.eqb_neq in Hv as Hv'. rewrite Hv'.
  eexists. split; [reflexivity|]. cbn [mem freelist lock use_lock]. auto.
Qed.

Lemma kalloc_times_drains (l : list Z) :
  forall k,
    lock_free k -> is_freelist (mem k) (freelist k) l ->
    exists k',
      kalloc_times (length l) k = Ok (l, k') /\ freelist k' = 0 /\
      mem k' = mem k /\ lock k' = lock k /\ use_lock k' = use_lock k.
Proof.
  induction l as [|v l IH]; intros k Hlk Hl.
  - exists k. cbn in *. auto.
  - destruct (kalloc_pops k l v Hlk Hl) as (k1 & Hrun & Hl1 & Hm & Hlo & Hu).
    assert (Hlk1 : lock_free k1) by (unfold lock_free in *; rewrite Hlo, Hu; exact Hlk).
    destruct (IH k1 Hlk1 Hl1) as (k2 & Hrun2 & Hz & Hm2 & Hlo2 & Hu2).
    exists k2. cbn [length kalloc_times]. rewrite Hrun. cbn. rewrite Hrun2. cbn.
    split; [reflexivity|]. split; [exact Hz|].
    split; [congruence|]. split; congruence.
Qed.

Lemma PGROUNDUP_page (sz : Z) : page (PGROUNDUP sz).
Proof.
  unfold PGROUNDUP.
  change (Z.land (wrap32 (sz + PGSIZE - 1)) (Z.lnot (PGSIZE - 1)))
    with (Vm.PGROUNDDOWN (wrap32 (sz + PGSIZE - 1))).
  rewrite Vm.PGROUNDDOWN_eq.
  pose proof (wrap32_range (sz + PGSIZE - 1)) as H.
  change (2 ^ 32) with 4294967296 in *.
  unfold page, PGSIZE in *. change (2 ^ 32) with 4294967296.
  generalize dependent (wrap32 (sz + 4096 - 1)). intros w Hw. split; lia_mod.
Qed.

Lemma pages_from_S (p : Z) (n : nat) :
  pages_from p (S n) = p :: pages_from (p + PGSIZE) n.
Proof.
  unfold pages_from. cbn [seq map]. f_equal.
  - unfold PGSIZE. lia.
  - rewrite <- seq_shift, map_map. apply map_ext. intros j. unfold PGSIZE. lia.
Qed.

Lemma freerange_loop_spec (vend : Z) (n : nat) :
  0 < kernel_end -> 0 <= KERNBASE ->
  vend <= KERNBASE + PHYSTOP -> vend + PGSIZE < 2 ^ 32 ->
  forall (k : kmem) (p : Z) (l : list Z) (fuel : nat),
    page p -> kernel_end <= p -> KERNBASE <= p ->
    p + PGSIZE * Z.of_nat n <= vend < p + PGSIZE * (Z.of_nat n + 1) ->
    lock_free k -> is_freelist (mem k) (freelist k) l -> Forall page l ->
    Forall (fun u => u < p \/ vend <= u) l ->
    (n < fuel)%nat ->
    exists k',
      freerange_loop fuel k p vend = Some (Ok k') /\
      is_freelist (mem k') (freelist k') (rev (pages_from p n) ++ l) /\
      lock k' = lock k /\ use_lock k' = use_lock k.
Proof.
  intros Hend Hkb Hphys Htop.
  induction n as [|n IH]; intros k p l fuel Hp Hpe Hpk Hn Hlk Hl Hpg Hout Hf;
    (destruct fuel as [|fuel]; [lia|]); cbn [freerange_loop].
  - destruct Hp as [Hpa Hpr]. unfold PGSIZE in *.
    rewrite wrap32_small by lia.
    replace (p + 4096 <=? vend) with false by (symmetry; apply Z.leb_gt; lia).
    exists k. cbn. auto.
  - pose proof Hp as [Hpa Hpr]. unfold PGSIZE in Hn, Htop.
    rewrite wrap32_small by (unfold PGSIZE; lia).
    replace (p + PGSIZE <=? vend) with true
      by (symmetry; apply Z.leb_le; unfold PGSIZE; lia).
    assert (Hacc : kfree_accepts kernel_end KERNBASE PHYSTOP p = true).
    { unfold kfree_accepts, V2P. rewrite wrap32_small by lia.
      apply negb_true_iff. rewrite !orb_false_iff. split; [split|].
      - apply negb_false_iff, Z.eqb_eq, Hpa.
      - apply Z.ltb_ge. lia.
      - rewrite Z.geb_leb. apply Z.leb_gt. lia. }
    assert (Hnin : p ∉ l).
    { intros Hin. rewrite Forall_forall in Hout. specialize (Hout p Hin). lia. }
    destruct (kfree_pushes k l p Hend Hlk Hl Hpg Hacc Hpr Hnin)
      as (k1 & Hrun & Hl1 & Hlo & Hu).
    rewrite Hrun.
    destruct (IH k1 (p + PGSIZE) (p :: l) fuel) as (k2 & Hrun2 & Hl2 & Hlo2 & Hu2).
    + unfold page, PGSIZE in *. split; lia_mod.
    + unfold PGSIZE. lia.
    + unfold PGSIZE. lia.
    + unfold PGSIZE. lia.
    + unfold lock_free in *. rewrite Hlo, Hu. exact Hlk.
    + exact Hl1.
    + apply Forall_cons. split; assumption.
    + apply Forall_cons. split; [unfold PGSIZE; lia|].
      eapply Forall_impl; [exact Hout|]. cbn. unfold PGSIZE. intros u Hu'. lia.
    + lia.
    + exists k2. rewrite Hrun2. split; [reflexivity|].
      rewrite pages_from_S. cbn [rev]. rewrite <- app_assoc. cbn [app].
      split; [exact Hl2|]. split; congruence.
Qed.

(** X7. The free list is a stack of pages.  When the list [kalloc]
    walks is [l], [kfree(v)] of a page that is not on it makes it
    [v :: l], and [length l] calls of [kalloc] hand out the pages of [l]
    in their order and leave the list empty. *)
Theorem free_list_is_a_stack (k : kmem) (l : list Z) :
  0 < kernel_end ->
  lock_free k -> is_freelist (mem k) (freelist k) l -> Forall page l ->
  (forall v,
      kfree_accepts kernel_end KERNBASE PHYSTOP v = true -> 0 <= v < 2 ^ 32 ->
      v ∉ l ->
      exists k', kfree kernel_end KERNBASE PHYSTOP k v = Ok k' /\
                 is_freelist (mem k') (freelist k') (v :: l)) /\
  (exists k', kalloc_times (length l) k = Ok (l, k') /\ freelist k' = 0).
Proof.
  intros Hend Hlk Hl Hpg. split.
  - intros v Hacc Hv Hnin.
    destruct (kfree_pushes k l v Hend Hlk Hl Hpg Hacc Hv Hnin) as (k' & H1 & H2 & _).
    exists k'. split; assumption.
  - destruct (kalloc_times_drains l k Hlk Hl) as (k' & H1 & H2 & _).
    exists k'. split; assumption.
Qed.

(** X8. [freerange(vstart, vend)] frees every whole page between
    [PGROUNDUP(vstart)] and [vend], the lowest first: it returns, and
    the free list is then those pages from the highest down, in front of
    what was on it before.  [kinit1] does so from an empty list with
    locking off, whatever the lock was. *)
Theorem freerange_frees_every_page (k : kmem) (l : list Z) (vstart vend : Z) :
  0 < kernel_end -> 0 <= KERNBASE ->
  kernel_end <= PGROUNDUP vstart -> KERNBASE <= PGROUNDUP vstart ->
  PGROUNDUP vstart <= vend ->
  vend <= KERNBASE + PHYSTOP -> vend + PGSIZE < 2 ^ 32 ->
  is_freelist (mem k) (freelist k) l -> Forall page l ->
  Forall (fun u => u < PGROUNDUP vstart \/ vend <= u) l ->
  let n := Z.to_nat ((vend - PGROUNDUP vstart) / PGSIZE) in
  (lock_free k ->
   exists k', freerange k vstart vend = Some (Ok k') /\
              is_freelist (mem k') (freelist k')
                          (rev (pages_from (PGROUNDUP vstart) n) ++ l)) /\
  (exists k', kinit1 k vstart vend = Some (Ok k') /\ use_lock k' = 0 /\
              is_freelist (mem k') (freelist k')
                          (rev (pages_from (PGROUNDUP vstart) n) ++ l)).
Proof.
  intros Hend Hkb Hpe Hpk Hle Hphys Htop Hl Hpg Hout n.
  assert (Hn : PGROUNDUP vstart + PGSIZE * Z.of_nat n <= vend
               < PGROUNDUP vstart + PGSIZE * (Z.of_nat n + 1)).
  { subst n. rewrite Z2Nat.id by (unfold PGSIZE; lia_mod). unfold PGSIZE. lia_mod. }
  assert (Hfuel : (n < Z.to_nat (2 ^ 20 + 1))%nat).
  { pose proof (PGROUNDUP_page vstart) as [_ Hr]. unfold PGSIZE in *.
    change (2 ^ 32) with 4294967296 in *. change (2 ^ 20 + 1) with 1048577. lia. }
  split.
  - intros Hlk. unfold freerange.
    destruct (freerange_loop_spec vend n Hend Hkb Hphys Htop k (PGROUNDUP vstart) l
                (Z.to_nat (2 ^ 20 + 1)) (PGROUNDUP_page vstart) Hpe Hpk Hn Hlk Hl Hpg
                Hout Hfuel) as (k' & H1 & H2 & _).
    exists k'. split; assumption.
  - unfold kinit1, freerange.
    destruct (freerange_loop_spec vend n Hend Hkb Hphys Htop
                {| mem := mem k; lock := false; use_lock := 0; freelist := freelist k |}
                (PGROUNDUP vstart) l
                (Z.to_nat (2 ^ 20 + 1)) (PGROUNDUP_page vstart) Hpe Hpk Hn
                (or_introl eq_refl) Hl Hpg Hout Hfuel) as (k' & H1 & H2 & _ & H3).
    exists k'. split; [exact H1|]. split; [exact H3 | exact H2].
Qed.

(** X9. [kfree] does not notice a page that is freed twice: the second
    [kfree(v)] makes [v] its own successor, and from then on every
    [kalloc] returns [v]. *)
Theorem kfree_twice_hands_out_twice (k : kmem) (v : Z) :
  0 < kernel_end -> lock_free k ->
  kfree_accepts kernel_end KERNBASE PHYSTOP v = true -> 0 <= v < 2 ^ 32 ->
  exists k1 k2,
    kfree kernel_end KERNBASE PHYSTOP k v = Ok k1 /\
    kfree kernel_end KERNBASE PHYSTOP k1 v = Ok k2 /\
    forall n, exists k3,
        kalloc_times n k2 = Ok (replicate n v, k3) /\ freelist k3 = v.
Proof.
  intros Hend Hlk Hacc Hv.
  rewrite (kfree_ok _ _ _ k v Hacc Hlk).
  eexists. eexists. split; [reflexivity|].
  rewrite kfree_ok; [|exact Hacc|exact Hlk].
  cbn [mem freelist lock use_lock]. split; [reflexivity|].
  pose proof (kfree_accepts_nonzero _ _ _ v Hend Hacc) as Hnz.
  apply Z.eqb_neq in Hnz.
  set (m2 := store32 _ v v).
  assert (Hnext : load32 m2 v = v) by (apply load32_store32; exact Hv).
  assert (Hgen : forall n k3, lock_free k3 -> mem k3 = m2 -> freelist k3 = v ->
                 exists k4, kalloc_times n k3 = Ok (replicate n v, k4) /\ freelist k4 = v).
  { induction n as [|n IH]; intros k3 Hlk3 Hm Hf.
    - exists k3. split; [reflexivity | exact Hf].
    - cbn [kalloc_times]. rewrite (kalloc_ok k3 Hlk3). rewrite Hf, Hnz, Hm, Hnext. cbn.
      destruct (IH {| mem := m2; lock := lock k3; use_lock := use_lock k3; freelist := v |})
        as (k4 & Hrun & Hf4); [exact Hlk3 | reflexivity | reflexivity|].
      rewrite Hrun. cbn. exists k4. split; [reflexivity | exact Hf4]. }
  intros n. apply Hgen; [exact Hlk | reflexivity | reflexivity].
Qed.

End Allocator.

(** ** The stock layout, three pages *)

Lemma boot_kmem_list :
  is_freelist (mem boot_kmem) (freelist boot_kmem) [0x803ff000].
Proof. cbn. split; [reflexivity|]. split; [discriminate | reflexivity]. Qed.

Lemma free_list_is_a_stack_witness :
  (forall v,
      kfree_accepts boot_end boot_KERNBASE boot_PHYSTOP v = true -> 0 <= v < 2 ^ 32 ->
      v ∉ [0x803ff000] ->
      exists k', kfree boot_end boot_KERNBASE boot_PHYSTOP boot_kmem v = Ok k' /\
                 is_freelist (mem k') (freelist k') [v; 0x803ff000]) /\
  (exists k', kalloc_times 1 boot_kmem = Ok ([0x803ff000], k') /\ freelist k' = 0).
Proof.
  apply (free_list_is_a_stack boot_end boot_KERNBASE boot_PHYSTOP boot_kmem [0x803ff000]).
  - unfold boot_end. lia.
  - right. reflexivity.
  - exact boot_kmem_list.
  - apply Forall_cons. split; [split; [reflexivity | lia] | constructor].
Defined.

(** The allocator before [kinit1]: no page on the list. *)
Definition early_kmem : kmem :=
  {| mem := fun _ => 0; lock := true; use_lock := 1; freelist := 0 |}.

Lemma freerange_frees_every_page_witness :
  (lock_free early_kmem ->
   exists k', freerange boot_end boot_KERNBASE boot_PHYSTOP early_kmem
                        0x80116001 0x80119000 = Some (Ok k') /\
              is_freelist (mem k') (freelist k')
                (rev (pages_from (PGROUNDUP 0x80116001)
                        (Z.to_nat ((0x80119000 - PGROUNDUP 0x80116001) / PGSIZE))) ++ [])) /\
  (exists k', kinit1 boot_end boot_KERNBASE boot_PHYSTOP early_kmem
                     0x80116001 0x80119000 = Some (Ok k') /\
              use_lock k' = 0 /\
              is_freelist (mem k') (freelist k')
                (rev (pages_from (PGROUNDUP 0x80116001)
                        (Z.to_nat ((0x80119000 - PGROUNDUP 0x80116001) / PGSIZE))) ++ [])).
Proof.
  apply (freerange_frees_every_page boot_end boot_KERNBASE boot_PHYSTOP early_kmem []
           0x80116001 0x80119000).
  - unfold boot_end. lia.
  - unfold boot_KERNBASE. lia.
  - vm_compute. discriminate.
  - vm_compute. discriminate.
  - vm_compute. discriminate.
  - vm_compute. discriminate.
  - vm_compute. reflexivity.
  - reflexivity.
  - constructor.
  - constructor.
Defined.

Lemma kfree_twice_hands_out_twice_witness :
  exists k1 k2,
    kfree boot_end boot_KERNBASE boot_PHYSTOP boot_kmem boot_page = Ok k1 /\
    kfree boot_end boot_KERNBASE boot_PHYSTOP k1 boot_page = Ok k2 /\
    forall n, exists k3,
        kalloc_times n k2 = Ok (replicate n boot_page, k3) /\ freelist k3 = boot_page.
Proof.
  apply (kfree_twice_hands_out_twice boot_end boot_KERNBASE boot_PHYSTOP boot_kmem boot_page).
  - unfold boot_end. lia.
  - right. reflexivity.
  - vm_compute. reflexivity.
  - unfold boot_page. lia.
Defined.

End Freelist.


(** * syscall.c: fetching strings *)

Module Fetchstr.

Import Syscall.

(** ** Bounds *)

Lemma fetchstr_loop_spec (m : memory) (pp : Z) (togo : nat) :
  forall (s : Z) (seen : list Z),
    0 <= pp <= s -> s + Z.of_nat togo <= 2 ^ 31 ->
    (forall i, pp <= i < s -> m i <> 0) ->
    let r := fetchstr_loop togo m pp s seen in
    out r = Some pp /\
    (exists t, touched r = seen ++ t /\
               forall a, a ∈ t -> s <= a < s + Z.of_nat togo) /\
    ((ret r = -1 /\ forall a, pp <= a < s + Z.of_nat togo -> m a <> 0) \/
     (0 <= ret r /\ pp + ret r < s + Z.of_nat togo /\ m (pp + ret r) = 0 /\
      forall i, 0 <= i < ret r -> m (pp + i) <> 0)).
Proof.
  induction togo as [|togo IH]; intros s seen Hs Hb Hnz; cbn [fetchstr_loop].
  - cbn. split; [reflexivity|]. split.
    + exists []. rewrite app_nil_r. split; [reflexivity|]. intros a Ha. inversion Ha.
    + left. split; [reflexivity|]. intros a Ha. apply Hnz. lia.
  - destruct (m s =? 0) eqn:Hz.
    + apply Z.eqb_eq in Hz. cbn. split; [reflexivity|]. split.
      * exists [s]. split; [reflexivity|]. intros a Ha.
        apply list_elem_of_singleton in Ha. lia.
      * right. rewrite int32_small by lia.
        replace (pp + (s - pp)) with s by lia.
        split; [lia|]. split; [lia|]. split; [exact Hz|].
        intros i Hi. apply Hnz. lia.
    + apply Z.eqb_neq in Hz. rewrite wrap32_small by lia.
      specialize (IH (s + 1) (seen ++ [s])). cbv zeta in IH.
      destruct IH as (Ho & (t & Ht & Hin) & Hres).
      * lia.
      * lia.
      * intros i Hi. destruct (Z.eq_dec i s) as [->|Hne]; [exact Hz | apply Hnz; lia].
      * split; [exact Ho|]. split.
        -- exists (s :: t). rewrite Ht, <- app_assoc. split; [reflexivity|].
           intros a Ha. apply elem_of_cons in Ha as [->|Ha]; [lia|].
           specialize (Hin a Ha). lia.
        -- destruct Hres as [[Hr Hall] | (Hr & Hlt & Hz' & Hall)].
           ++ left. split; [exact Hr|]. intros a Ha. apply Hall. lia.
           ++ right. split; [exact Hr|]. split; [lia|]. split; assumption.
Qed.

Lemma fetchstr_spec (p : proc) (addr : Z) :
  0 <= sz p <= 2 ^ 31 -> 0 <= addr ->
  let r := fetchstr p addr in
  (forall a, a ∈ touched r -> addr <= a < sz p) /\
  ((ret r = -1 /\ (sz p <= addr \/ forall a, addr <= a < sz p -> umem p a <> 0)) \/
   (0 <= ret r /\ out r = Some addr /\ addr + ret r < sz p /\
    umem p (addr + ret r) = 0 /\
    forall i, 0 <= i < ret r -> umem p (addr + i) <> 0)).
Proof.
  intros Hsz Ha. unfold fetchstr. destruct (addr >=? sz p) eqn:Hc.
  - apply Z.geb_le in Hc. cbn. split; [intros a H; inversion H|].
    left. split; [reflexivity | left; exact Hc].
  - rewrite Z.geb_leb in Hc. apply Z.leb_gt in Hc.
    pose proof (fetchstr_loop_spec (umem p) addr (Z.to_nat (sz p - addr)) addr []) as H.
    rewrite Z2Nat.id in H by lia. cbv zeta in H.
    destruct H as (Ho & (t & Ht & Hin) & Hres); [lia | lia | intros; lia |].
    replace (addr + (sz p - addr)) with (sz p) in * by lia.
    split.
    + intros a Hel. rewrite Ht in Hel. apply Hin, Hel.
    + destruct Hres as [[Hr Hall] | (Hr & Hlt & Hz & Hall)].
      * left. split; [exact Hr | right; exact Hall].
      * right. split; [exact Hr|]. split; [exact Ho|]. split; [exact Hlt|].
        split; assumption.
Qed.

(** X10. [fetchstr] and [argstr] read user memory only inside the
    process: every address they touch lies in [[0, sz)].  When they
    return a length, the string lies inside the process with its NUL,
    [len] bytes that are not 0 and then a 0; they return -1 when the
    string starts outside or runs to the end of the process without a
    NUL. *)
Theorem fetchstr_in_bounds (p : proc) (n addr : Z) :
  0 <= sz p <= 2 ^ 31 -> 0 <= addr ->
  (let r := fetchstr p addr in
   (forall a, a ∈ touched r -> addr <= a < sz p) /\
   ((ret r = -1 /\ (sz p <= addr \/ forall a, addr <= a < sz p -> umem p a <> 0)) \/
    (0 <= ret r /\ out r = Some addr /\ addr + ret r < sz p /\
     umem p (addr + ret r) = 0 /\
     forall i, 0 <= i < ret r -> umem p (addr + i) <> 0))) /\
  (let r := argstr p n in
   (forall a, a ∈ touched r -> 0 <= a < sz p) /\
   (ret r = -1 \/
    exists ptr, 0 <= ret r /\ out r = Some ptr /\ 0 <= ptr /\ ptr + ret r < sz p /\
                umem p (ptr + ret r) = 0 /\
                forall i, 0 <= i < ret r -> umem p (ptr + i) <> 0)).
Proof.
  intros Hsz Ha. split; [apply fetchstr_spec; assumption|].
  cbv zeta. unfold argstr, argint.
  pose proof (wrap32_range (esp p + 4 + 4 * n)) as Hw.
  destruct (fetchint_spec p (wrap32 (esp p + 4 + 4 * n)) Hsz Hw)
    as [(Hr & Ho & Ht & Hin) | (Hr & Ho & Ht & Hout)].
  - rewrite Hr, Ho, Ht. cbn [Z.ltb Z.compare default ret out touched].
    set (ptr := wrap32 _).
    assert (Hp : 0 <= wrap32 (id (int32 (load32 (umem p) ptr))))
      by apply wrap32_range.
    destruct (fetchstr_spec p _ Hsz Hp) as [Htouch Hres]. split.
    + intros a Hel. apply elem_of_app in Hel as [Hel|Hel].
      * apply list_elem_of_singleton in Hel. subst a. subst ptr. lia.
      * specialize (Htouch a Hel). lia.
    + destruct Hres as [[Hm _] | (H0 & Hout & Hlt & Hz & Hall)].
      * left. exact Hm.
      * right. eexists. split; [exact H0|]. split; [exact Hout|].
        split; [exact Hp|]. split; [exact Hlt|]. split; assumption.
  - rewrite Hr, Ht. cbn. split; [intros a H; inversion H | left; reflexivity].
Qed.

(** A process of one page with the pointer 4008 as argument 0 and the
    string ["hi"] there. *)
Definition hi_proc : proc :=
  {| sz := 4096; esp := 4000;
     umem := Strings.store8 (Strings.store8 (store32 (fun _ => 0) 4004 4008) 4008 104)
                            4009 105 |}.

Lemma fetchstr_in_bounds_witness :
  (let r := fetchstr hi_proc 4008 in
   (forall a, a ∈ touched r -> 4008 <= a < sz hi_proc) /\
   ((ret r = -1 /\
     (sz hi_proc <= 4008 \/ forall a, 4008 <= a < sz hi_proc -> umem hi_proc a <> 0)) \/
    (0 <= ret r /\ out r = Some 4008 /\ 4008 + ret r < sz hi_proc /\
     umem hi_proc (4008 + ret r) = 0 /\
     forall i, 0 <= i < ret r -> umem hi_proc (4008 + i) <> 0))) /\
  (let r := argstr hi_proc 0 in
   (forall a, a ∈ touched r -> 0 <= a < sz hi_proc) /\
   (ret r = -1 \/
    exists ptr, 0 <= ret r /\ out r = Some ptr /\ 0 <= ptr /\ ptr + ret r < sz hi_proc /\
                umem hi_proc (ptr + ret r) = 0 /\
                forall i, 0 <= i < ret r -> umem hi_proc (ptr + i) <> 0)).
Proof. apply (fetchstr_in_bounds hi_proc 0 4008); cbn; lia. Defined.

Example argstr_hi : ret (argstr hi_proc 0) = 2 /\ out (argstr hi_proc 0) = Some 4008.
Proof. split; vm_compute; reflexivity. Qed.

End Fetchstr.


(** * file.c: reading and writing open files *)

Module Fileio.

Import Pipe.

Definition set_off (f : file) (x : Z) : file :=
  {| type := type f; ref := ref f; readable := readable f; writable := writable f;
     fpipe := fpipe f; ip := ip f; off := x |}.

Section WithInodes.

(** The branches for [FD_INODE] belong to the file system, which has no
    part in the state here.  [inode_read ip off n] stands for
    [ilock(ip); r = readi(ip, addr, off, n); iunlock(ip);] and gives the
    bytes put at [addr] and [r]; [inode_write ip off bytes] stands for
    the loop of [filewrite] over its transactions and gives the new
    offset and the value returned. *)
Variable inode_read : Z -> Z -> Z -> result (list Z * Z).
Variable inode_write : Z -> Z -> list Z -> result (Z * Z).

(** [fileread(f, addr, n)]; [f->off] is a [uint]. *)
Definition fileread (s : fstate) (f : nat) (killed n : Z)
  : result (fstate * read_outcome) :=
  match ftable s !! f with
  | None => Undefined
  | Some fl =>
      if readable fl =? 0 then Ok (s, ReadReturn [] (-1))
      else
        match type fl with
        | FD_PIPE => piperead s (fpipe fl) killed n
        | FD_INODE =>
            '(out, r) ← inode_read (ip fl) (off fl) n;
            let fl := if r >? 0 then set_off fl (wrap32 (off fl + r)) else fl in
            Ok (set_ftable s (<[f := fl]> (ftable s)), ReadReturn out r)
        | FD_NONE => Panic "fileread"
        end
  end.

(** [filewrite(f, addr, n)], with [bytes] = [addr[0..n)]. *)
Definition filewrite (s : fstate) (f : nat) (killed : Z) (bytes : list Z) (n : Z)
  : result (fstate * write_outcome) :=
  match ftable s !! f with
  | None => Undefined
  | Some fl =>
      if writable fl =? 0 then Ok (s, WriteReturn (-1))
      else
        match type fl with
        | FD_PIPE => pipewrite s (fpipe fl) killed bytes n
        | FD_INODE =>
            '(o, r) ← inode_write (ip fl) (off fl) bytes;
            Ok (set_ftable s (<[f := set_off fl o]> (ftable s)), WriteReturn r)
        | FD_NONE => Panic "filewrite"
        end
  end.

End WithInodes.

(** ** The file table *)

(** No slot of the table that is free still has a type: [fileclose]
    sets [FD_NONE] when it takes the last reference. *)
Definition free_slots_clean (t : list file) : Prop :=
  forall i f, t !! i = Some f -> ref f = 0 -> type f = FD_NONE.

(** Slot [i] is free and no slot below it is. *)
Definition first_free (t : list file) (i : nat) : Prop :=
  (exists f, t !! i = Some f /\ ref f = 0) /\
  forall j f, (j < i)%nat -> t !! j = Some f -> ref f <> 0.

Lemma filealloc_scan_spec (t : list file) :
  forall base : nat,
    match filealloc_scan t base with
    | Some r => exists i, r = (base + i)%nat /\ first_free t i
    | None => forall j f, t !! j = Some f -> ref f <> 0
    end.
Proof.
  induction t as [|f t IH]; intros base; cbn [filealloc_scan].
  - intros j f H. rewrite lookup_nil in H. discriminate.
  - destruct (ref f =? 0) eqn:Hr.
    + apply Z.eqb_eq in Hr. exists 0%nat. split; [lia|]. split.
      * exists f. split; [reflexivity | exact Hr].
      * intros j g Hj. lia.
    + apply Z.eqb_neq in Hr. specialize (IH (S base)).
      destruct (filealloc_scan t (S base)) as [r|].
      * destruct IH as (i & -> & (g & Hg & Hg0) & Hlow).
        exists (S i). split; [lia|]. split.
        -- exists g. split; [exact Hg | exact Hg0].
        -- intros j h Hj Hh. destruct j as [|j]; cbn in Hh.
           ++ injection Hh as <-. exact Hr.
           ++ apply (Hlow j h); [lia | exact Hh].
      * intros j g Hg. destruct j as [|j]; cbn in Hg.
        -- injection Hg as <-. exact Hr.
        -- apply (IH j g Hg).
Qed.

Lemma filealloc_spec (s : fstate) :
  ftable_lock s = false ->
  (exists i, first_free (ftable s) i /\
             filealloc s =
               Ok (set_ftable_lock
                     (set_ftable s (alter (fun f => set_ref f 1) i (ftable s))) false,
                   Some i)) \/
  ((forall j f, ftable s !! j = Some f -> ref f <> 0) /\
   filealloc s = Ok (set_ftable_lock s false, None)).
Proof.
  intros Hlk. unfold filealloc. rewrite Hlk. cbn.
  pose proof (filealloc_scan_spec (ftable s) 0) as H.
  destruct (filealloc_scan (ftable s) 0) as [r|].
  - destruct H as (i & -> & Hff). left. exists i. split; [exact Hff | reflexivity].
  - right. split; [exact H | reflexivity].
Qed.

Lemma set_ftable_lock_same (s : fstate) :
  ftable_lock s = false -> set_ftable_lock s false = s.
Proof. destruct s. cbn. intros ->. reflexivity. Qed.

(** X11. [filealloc] hands out the lowest slot of the file table whose
    reference count is 0 and sets the count to 1, leaving the rest of
    the table, the pipes and the allocator as they were; with no such
    slot it returns 0 and changes nothing.  A slot in use is never
    handed out. *)
Theorem filealloc_lowest_free_slot (s : fstate) :
  ftable_lock s = false ->
  (exists i, first_free (ftable s) i /\
             filealloc s =
               Ok (set_ftable s (alter (fun f => set_ref f 1) i (ftable s)), Some i)) \/
  ((forall j f, ftable s !! j = Some f -> ref f <> 0) /\
   filealloc s = Ok (s, None)).
Proof.
  intros Hlk. destruct (filealloc_spec s Hlk) as [(i & Hff & Hrun) | [Hfull Hrun]].
  - left. exists i. split; [exact Hff|]. rewrite Hrun. f_equal. f_equal.
    apply set_ftable_lock_same. exact Hlk.
  - right. split; [exact Hfull|]. rewrite Hrun, set_ftable_lock_same by exact Hlk.
    reflexivity.
Qed.

Section Refs.

Variables (kernel_end KERNBASE PHYSTOP : Z).
Variable put_inode : Z -> result unit.

Lemma fstate_eq (s s' : fstate) :
  kmem s' = kmem s -> ftable_lock s' = ftable_lock s -> ftable s' = ftable s ->
  pipes s' = pipes s -> s' = s.
Proof. destruct s, s'. cbn. intros -> -> -> ->. reflexivity. Qed.

(** X12. Reference counts of open files.  [filedup] adds one to the
    count of a file in use and [fileclose] takes one off; as long as the
    count stays above 0, [fileclose] does nothing else, so a
    [fileclose] after a [filedup] leaves the state as it was.  Both
    panic on a slot that is not in use. *)
Theorem filedup_fileclose_round_trip (s : fstate) (f : nat) (fl : file) :
  ftable_lock s = false -> ftable s !! f = Some fl ->
  (ref fl < 1 ->
   filedup s f = Panic "filedup" /\
   fileclose kernel_end KERNBASE PHYSTOP put_inode s f = Panic "fileclose") /\
  (1 <= ref fl < 2 ^ 31 - 1 ->
   exists s1,
     filedup s f = Ok s1 /\
     ftable s1 = <[f := set_ref fl (ref fl + 1)]> (ftable s) /\
     pipes s1 = pipes s /\ kmem s1 = kmem s /\
     fileclose kernel_end KERNBASE PHYSTOP put_inode s1 f = Ok s) /\
  (2 <= ref fl < 2 ^ 31 ->
   exists s2,
     fileclose kernel_end KERNBASE PHYSTOP put_inode s f = Ok s2 /\
     ftable s2 = <[f := set_ref fl (ref fl - 1)]> (ftable s) /\
     pipes s2 = pipes s /\ kmem s2 = kmem s).
Proof.
  intros Hlk Hf. split; [|split].
  - intros Hr. unfold filedup, fileclose. rewrite Hf, Hlk. cbn.
    replace (ref fl <? 1) with true by (symmetry; apply Z.ltb_lt; lia).
    split; reflexivity.
  - intros Hr. unfold filedup. rewrite Hf, Hlk. cbn.
    replace (ref fl <? 1) with false by (symmetry; apply Z.ltb_ge; lia).
    rewrite int32_small by lia.
    eexists. split; [reflexivity|]. cbn [ftable set_ftable set_ftable_lock pipes kmem].
    split; [reflexivity|]. split; [reflexivity|]. split; [reflexivity|].
    unfold fileclose. cbn [ftable set_ftable set_ftable_lock ftable_lock].
    assert (Hlt : (f < length (ftable s))%nat) by (eapply lookup_lt_Some; eassumption).
    rewrite list_lookup_insert_eq by exact Hlt. cbn.
    replace (ref fl + 1 <? 1) with false by (symmetry; apply Z.ltb_ge; lia).
    replace (ref fl + 1 - 1) with (ref fl) by lia.
    rewrite int32_small by lia.
    replace (ref fl >? 0) with true by (symmetry; apply Z.gtb_lt; lia).
    cbn. f_equal. apply fstate_eq; cbn; [reflexivity | symmetry; exact Hlk | | reflexivity].
    rewrite list_insert_insert_eq.
    replace (set_ref (set_ref fl (ref fl + 1)) (ref fl)) with fl by (destruct fl; reflexivity).
    apply list_insert_id. exact Hf.
  - intros Hr. unfold fileclose. rewrite Hf, Hlk. cbn.
    replace (ref fl <? 1) with false by (symmetry; apply Z.ltb_ge; lia).
    rewrite int32_small by lia.
    replace (ref fl - 1 >? 0) with true by (symmetry; apply Z.gtb_lt; lia).
    cbn. eexists. split; [reflexivity|]. cbn. auto.
Qed.

Lemma fileclose_after_filedup (s s1 : fstate) (f : nat) :
  ftable_lock s = false ->
  (forall fl, ftable s !! f = Some fl -> ref fl < 2 ^ 31 - 1) ->
  filedup s f = Ok s1 ->
  fileclose kernel_end KERNBASE PHYSTOP put_inode s1 f = Ok s.
Proof.
  intros Hlk Hmax H. unfold filedup in H.
  destruct (ftable s !! f) as [fl|] eqn:Hf; [|discriminate].
  specialize (Hmax fl eq_refl). rewrite Hlk in H. cbn in H.
  destruct (ref fl <? 1) eqn:Hr; [discriminate|]. apply Z.ltb_ge in Hr.
  injection H as <-. rewrite int32_small by lia.
  unfold fileclose. cbn [ftable set_ftable set_ftable_lock ftable_lock].
  assert (Hlt : (f < length (ftable s))%nat) by (eapply lookup_lt_Some; eassumption).
  rewrite list_lookup_insert_eq by exact Hlt. cbn.
  replace (ref fl + 1 <? 1) with false by (symmetry; apply Z.ltb_ge; lia).
  replace (ref fl + 1 - 1) with (ref fl) by lia.
  rewrite int32_small by lia.
  replace (ref fl >? 0) with true by (symmetry; apply Z.gtb_lt; lia).
  cbn. f_equal. apply fstate_eq; cbn; [reflexivity | symmetry; exact Hlk | | reflexivity].
  rewrite list_insert_insert_eq.
  replace (set_ref (set_ref fl (ref fl + 1)) (ref fl)) with fl by (destruct fl; reflexivity).
  apply list_insert_id. exact Hf.
Qed.

End Refs.

(** ** A table of three files *)

(** The console, open twice, and two free slots; one page on the free
    list. *)
Definition three_files : fstate :=
  {| kmem := Kalloc.boot_kmem; ftable_lock := false;
     ftable := [Sysfile.console_file; Sysfile.free_file; Sysfile.free_file];
     pipes := ∅ |}.

Lemma three_files_clean : free_slots_clean (ftable three_files).
Proof.
  intros i f H Hr. destruct i as [|[|[|i]]]; cbn in H; try discriminate;
    injection H as <-; try reflexivity.
  discriminate.
Qed.

Lemma filealloc_lowest_free_slot_witness :
  (exists i, first_free (ftable three_files) i /\
             filealloc three_files =
               Ok (set_ftable three_files
                     (alter (fun f => set_ref f 1) i (ftable three_files)), Some i)) \/
  ((forall j f, ftable three_files !! j = Some f -> ref f <> 0) /\
   filealloc three_files = Ok (three_files, None)).
Proof. apply (filealloc_lowest_free_slot three_files). reflexivity. Defined.

Lemma filedup_fileclose_round_trip_witness :
  (ref Sysfile.console_file < 1 ->
   filedup three_files 0 = Panic "filedup" /\
   fileclose Kalloc.boot_end Kalloc.boot_KERNBASE Kalloc.boot_PHYSTOP (fun _ => Ok tt)
             three_files 0 = Panic "fileclose") /\
  (1 <= ref Sysfile.console_file < 2 ^ 31 - 1 ->
   exists s1,
     filedup three_files 0 = Ok s1 /\
     ftable s1 = <[0%nat := set_ref Sysfile.console_file (ref Sysfile.console_file + 1)]>
                   (ftable three_files) /\
     pipes s1 = pipes three_files /\ kmem s1 = kmem three_files /\
     fileclose Kalloc.boot_end Kalloc.boot_KERNBASE Kalloc.boot_PHYSTOP (fun _ => Ok tt)
               s1 0 = Ok three_files) /\
  (2 <= ref Sysfile.console_file < 2 ^ 31 ->
   exists s2,
     fileclose Kalloc.boot_end Kalloc.boot_KERNBASE Kalloc.boot_PHYSTOP (fun _ => Ok tt)
               three_files 0 = Ok s2 /\
     ftable s2 = <[0%nat := set_ref Sysfile.console_file (ref Sysfile.console_file - 1)]>
                   (ftable three_files) /\
     pipes s2 = pipes three_files /\ kmem s2 = kmem three_files).
Proof.
  apply (filedup_fileclose_round_trip Kalloc.boot_end Kalloc.boot_KERNBASE
           Kalloc.boot_PHYSTOP (fun _ => Ok tt) three_files 0 Sysfile.console_file);
    reflexivity.
Defined.

End Fileio.


(** * pipe.c: the life of a pipe *)

Module Pipes.

Import Pipe Fileio.

(** Slot [i] of the file table is free. *)
Definition is_free (t : list file) (i : nat) : Prop :=
  exists f, t !! i = Some f /\ ref f = 0.

(** The pipe [pipealloc] sets up in a fresh page. *)
Definition fresh_pipe : pipe :=
  {| lock := false; data := junk; nread := 0; nwrite := 0;
     readopen := 1; writeopen := 1 |}.

(** The two ends as [pipealloc] leaves them in the file table. *)
Definition read_end (f : file) (p : Z) : Prop :=
  type f = FD_PIPE /\ ref f = 1 /\ readable f = 1 /\ writable f = 0 /\ fpipe f = p.

Definition write_end (f : file) (p : Z) : Prop :=
  type f = FD_PIPE /\ ref f = 1 /\ readable f = 0 /\ writable f = 1 /\ fpipe f = p.

Lemma contents_set_lock (p : pipe) (lk : bool) : contents (set_lock p lk) = contents p.
Proof. reflexivity. Qed.

Lemma full_iff (p : pipe) :
  counters_ok p -> (nwrite p = wrap32 (nread p + PIPESIZE) <-> occupancy p = PIPESIZE).
Proof. unfold_counters. intros (Hr & Hw & Ho). split; intros; lia_mod. Qed.

(** A write that does not fit goes as far as the buffer has room. *)
Lemma pipewrite_run_stops (killed n : Z) (bs : list Z) :
  forall p : pipe,
    lock p = true -> pipe_wf p ->
    PIPESIZE < occupancy p + Z.of_nat (length bs) ->
    exists p',
      pipewrite_run p killed bs n =
        Ok (p', if (readopen p =? 0) || negb (killed =? 0)
                then WriteReturn (-1)
                else WriteAsleep (drop (Z.to_nat (PIPESIZE - occupancy p)) bs)) /\
      pipe_wf p' /\
      contents p' = contents p ++ take (Z.to_nat (PIPESIZE - occupancy p)) bs /\
      occupancy p' = PIPESIZE /\ lock p' = false /\
      readopen p' = readopen p /\ writeopen p' = writeopen p.
Proof.
  induction bs as [|c bs IH]; intros p Hlk Hwf Hover.
  - destruct Hwf as [(_ & _ & Ho) _]. cbn [length] in Hover. lia.
  - cbn [pipewrite_run]. pose proof Hwf as [Hok Hlen].
    destruct (nwrite p =? wrap32 (nread p + PIPESIZE)) eqn:Hfull.
    + apply Z.eqb_eq, (full_iff p Hok) in Hfull.
      rewrite Hfull, Z.sub_diag. cbn [Z.to_nat drop take]. rewrite app_nil_r.
      exists (set_lock p false).
      destruct ((readopen p =? 0) || negb (killed =? 0)); rewrite Hlk; cbn;
        (split; [reflexivity|]); (split; [exact Hwf|]); auto.
    + apply Z.eqb_neq in Hfull.
      destruct (counters_ok_put p c Hok Hfull) as [Hok' Hocc].
      assert (Hwf' : pipe_wf (put_byte p c)).
      { split; [exact Hok'|]. cbn [data put_byte]. rewrite length_insert. exact Hlen. }
      destruct (IH (put_byte p c) Hlk Hwf') as (p' & Hrun & H1 & H2 & H3 & H4 & H5 & H6).
      { rewrite Hocc. cbn [length] in Hover. lia. }
      assert (Hroom : 1 <= PIPESIZE - occupancy p).
      { rewrite (full_iff p Hok) in Hfull. destruct Hok as (_ & _ & Ho). lia. }
      exists p'. rewrite Hrun, Hocc. cbn [readopen put_byte].
      replace (Z.to_nat (PIPESIZE - occupancy p))
        with (S (Z.to_nat (PIPESIZE - (occupancy p + 1)))) by lia.
      cbn [drop take]. split; [reflexivity|]. split; [exact H1|].
      rewrite H2, Hocc, (contents_put p c Hwf Hfull), <- app_assoc. cbn [app].
      auto 10.
Qed.

(** X13. A write that is larger than the room left in the pipe puts as
    many bytes as fit behind the bytes already there and fills the
    buffer; then it goes to sleep with the bytes not yet written still
    to do, or, if the read end is closed or the writer killed, returns
    -1, the bytes that fitted staying in the pipe. *)
Theorem pipewrite_fills_the_buffer (p : pipe) (killed : Z) (bs : list Z) (n : Z) :
  lock p = false -> pipe_wf p ->
  PIPESIZE < occupancy p + Z.of_nat (length bs) ->
  exists p',
    pipewrite_pipe p killed bs n =
      Ok (p', if (readopen p =? 0) || negb (killed =? 0)
              then WriteReturn (-1)
              else WriteAsleep (drop (Z.to_nat (PIPESIZE - occupancy p)) bs)) /\
    contents p' = contents p ++ take (Z.to_nat (PIPESIZE - occupancy p)) bs /\
    occupancy p' = PIPESIZE.
Proof.
  intros Hlk Hwf Hover. unfold pipewrite_pipe. rewrite Hlk. cbn.
  destruct (pipewrite_run_stops killed n bs (set_lock p true) eq_refl Hwf Hover)
    as (p' & Hrun & _ & Hc & Ho & _).
  exists p'. split; [exact Hrun|]. split; assumption.
Qed.

Section WithLayout.

Variables (kernel_end KERNBASE PHYSTOP : Z).
Variable put_inode : Z -> result unit.

Lemma kalloc_empty (k : Kalloc.kmem) :
  Kalloc.lock_free k -> Kalloc.freelist k = 0 -> Kalloc.kalloc k = Ok (0, k).
Proof.
  intros Hlk Hz. rewrite (Kalloc.kalloc_ok k Hlk), Hz. cbn. do 2 f_equal.
  destruct k. cbn in *. subst. reflexivity.
Qed.

(** The last [fileclose] of a slot that has no type gives the slot
    back and does nothing else. *)
Lemma fileclose_untyped (s : fstate) (i : nat) (fl : file) :
  ftable_lock s = false -> ftable s !! i = Some fl ->
  ref fl = 1 -> type fl = FD_NONE ->
  fileclose kernel_end KERNBASE PHYSTOP put_inode s i =
    Ok (set_ftable s (<[i := set_ref fl 0]> (ftable s))).
Proof.
  intros Hlk Hi Hr Ht. unfold fileclose. rewrite Hi, Hlk, Hr. cbn.
  rewrite Ht. cbn. f_equal. apply fstate_eq; cbn; try reflexivity.
  - symmetry. exact Hlk.
  - f_equal. destruct fl. cbn in *. subst. reflexivity.
Qed.

Lemma alter_set_ref_back (t : list file) (i : nat) (f : file) :
  t !! i = Some f -> ref f = 0 ->
  <[i := set_ref (set_ref f 1) 0]> (alter (fun f => set_ref f 1) i t) = t.
Proof.
  intros Hi Hr. apply list_eq. intros j.
  destruct (decide (i = j)) as [<-|Hne].
  - rewrite list_lookup_insert_eq
      by (rewrite length_alter; eapply lookup_lt_Some; eassumption).
    rewrite Hi. f_equal. destruct f. cbn in *. subst. reflexivity.
  - rewrite list_lookup_insert_ne, list_lookup_alter_ne by exact Hne. reflexivity.
Qed.


Lemma is_free_alter_ne (t : list file) (i j : nat) :
  i <> j -> is_free (alter (fun f => set_ref f 1) i t) j <-> is_free t j.
Proof.
  intros Hne. unfold is_free. rewrite list_lookup_alter_ne by exact Hne. reflexivity.
Qed.

Lemma first_free_is_free (t : list file) (i : nat) : first_free t i -> is_free t i.
Proof. intros [H _]. exact H. Qed.

Lemma pipealloc_spec (s : fstate) :
  ftable_lock s = false -> free_slots_clean (ftable s) -> Kalloc.lock_free (kmem s) ->
  (exists i0 i1 s',
      pipealloc kernel_end KERNBASE PHYSTOP put_inode s = Ok (s', 0, Some i0, Some i1) /\
      i0 <> i1 /\ first_free (ftable s) i0 /\ is_free (ftable s) i1 /\
      Kalloc.freelist (kmem s) <> 0 /\
      (exists f0, ftable s' !! i0 = Some f0 /\ read_end f0 (Kalloc.freelist (kmem s))) /\
      (exists f1, ftable s' !! i1 = Some f1 /\ write_end f1 (Kalloc.freelist (kmem s))) /\
      (forall j, j <> i0 -> j <> i1 -> ftable s' !! j = ftable s !! j) /\
      pipes s' = <[Kalloc.freelist (kmem s) := fresh_pipe]> (pipes s) /\
      Kalloc.freelist (kmem s') =
        load32 (Kalloc.mem (kmem s)) (Kalloc.freelist (kmem s)) /\
      ftable_lock s' = false /\
      Kalloc.mem (kmem s') = Kalloc.mem (kmem s) /\
      Kalloc.lock (kmem s') = Kalloc.lock (kmem s) /\
      Kalloc.use_lock (kmem s') = Kalloc.use_lock (kmem s)) \/
  (exists g0 g1,
      pipealloc kernel_end KERNBASE PHYSTOP put_inode s = Ok (s, -1, g0, g1) /\
      ((forall i j, i <> j -> ~ (is_free (ftable s) i /\ is_free (ftable s) j)) \/
       Kalloc.freelist (kmem s) = 0)).
Proof.
  intros Hlk Hclean Hklk. unfold pipealloc.
  destruct (filealloc_spec s Hlk) as [(i0 & Hff0 & Hrun0) | [Hfull Hrun0]];
    rewrite Hrun0; cbn [mbind result_bind].
  - pose proof Hff0 as [(f0 & Hi0 & Hr0) _].
    pose proof (Hclean _ _ Hi0 Hr0) as Ht0.
    set (t1 := alter (fun f => set_ref f 1) i0 (ftable s)).
    set (s1 := set_ftable_lock _ false).
    assert (Hi0' : t1 !! i0 = Some (set_ref f0 1)).
    { unfold t1. rewrite list_lookup_alter_eq, Hi0. reflexivity. }
    destruct (filealloc_spec s1 eq_refl) as [(i1 & Hff1 & Hrun1) | [Hfull1 Hrun1]];
      rewrite Hrun1; cbn [mbind result_bind].
    + pose proof Hff1 as [(f1' & Hi1' & Hr1) _].
      change (ftable s1) with t1 in Hi1'.
      assert (Hne : i0 <> i1).
      { intros <-. rewrite Hi0' in Hi1'. injection Hi1' as <-. discriminate. }
      assert (Hi1 : ftable s !! i1 = Some f1').
      { unfold t1 in Hi1'. rewrite list_lookup_alter_ne in Hi1' by exact Hne. exact Hi1'. }
      pose proof (Hclean _ _ Hi1 Hr1) as Ht1.
      set (t2 := alter (fun f => set_ref f 1) i1 (ftable s1)).
      assert (Hlt0 : (i0 < length (ftable s))%nat) by (eapply lookup_lt_Some; eassumption).
      assert (Hlt1 : (i1 < length (ftable s))%nat) by (eapply lookup_lt_Some; eassumption).
      assert (H20 : t2 !! i0 = Some (set_ref f0 1)).
      { unfold t2. rewrite list_lookup_alter_ne by auto. exact Hi0'. }
      assert (H21 : t2 !! i1 = Some (set_ref f1' 1)).
      { unfold t2. rewrite list_lookup_alter_eq. change (ftable s1) with t1.
        rewrite Hi1'. reflexivity. }
      change (kmem (set_ftable_lock (set_ftable s1 t2) false)) with (kmem s).
      destruct (Z.eq_dec (Kalloc.freelist (kmem s)) 0) as [Hz|Hnz].
      * right. rewrite (kalloc_empty (kmem s) Hklk Hz). cbn [mbind result_bind].
        change (0 =? 0) with true. cbn iota. unfold pipealloc_bad.
        change (negb (0 =? 0)) with false. cbn iota. cbn [mbind result_bind].
        set (s2 := set_kmem _ (kmem s)).
        rewrite (fileclose_untyped s2 i0 (set_ref f0 1) eq_refl H20 eq_refl Ht0).
        cbn [mbind result_bind].
        set (s3 := set_ftable s2 _).
        rewrite (fileclose_untyped s3 i1 (set_ref f1' 1) eq_refl).
        -- cbn [mbind result_bind]. exists (Some i0), (Some i1).
           split; [|right; exact Hz]. do 4 f_equal.
           apply fstate_eq; cbn; [reflexivity | symmetry; exact Hlk | | reflexivity].
           apply list_eq. intros j.
           destruct (decide (j = i1)) as [->|Hj1].
           ++ rewrite list_lookup_insert_eq
                by (rewrite length_insert; unfold t2; rewrite length_alter; cbn;
                    unfold t1; rewrite length_alter; exact Hlt1).
              rewrite Hi1. f_equal. destruct f1'. cbn in *. subst. reflexivity.
           ++ rewrite list_lookup_insert_ne by auto.
              destruct (decide (j = i0)) as [->|Hj0].
              ** rewrite list_lookup_insert_eq
                   by (unfold t2; rewrite length_alter; cbn;
                       unfold t1; rewrite length_alter; exact Hlt0).
                 rewrite Hi0. f_equal. destruct f0. cbn in *. subst. reflexivity.
              ** rewrite list_lookup_insert_ne by auto.
                 unfold t2. rewrite list_lookup_alter_ne by auto. cbn.
                 unfold t1. rewrite list_lookup_alter_ne by auto. reflexivity.
        -- cbn. rewrite list_lookup_insert_ne by exact Hne. exact H21.
        -- reflexivity.
        -- exact Ht1.
      * left. rewrite (Kalloc.kalloc_ok (kmem s) Hklk). cbn [mbind result_bind].
        apply Z.eqb_neq in Hnz as Hnz'. rewrite Hnz'. cbn iota.
        eexists i0, i1, _. split; [reflexivity|].
        split; [exact Hne|]. split; [exact Hff0|]. split; [exists f1'; auto|].
        split; [exact Hnz|].
        cbn [ftable set_ftable pipes set_pipes set_kmem kmem set_ftable_lock
             Kalloc.freelist ftable_lock Kalloc.mem Kalloc.lock Kalloc.use_lock].
        fold t2. split; [|split; [|split; [|split; [|split; [|auto]]]]].
        -- eexists. rewrite list_lookup_alter_ne by auto.
           rewrite list_lookup_alter_eq, H20. split; [reflexivity|].
           cbn. repeat split; reflexivity.
        -- eexists. rewrite list_lookup_alter_eq, list_lookup_alter_ne by auto.
           rewrite H21. split; [reflexivity|]. cbn. repeat split; reflexivity.
        -- intros j Hj0 Hj1. rewrite !list_lookup_alter_ne by auto.
           unfold t2. rewrite list_lookup_alter_ne by auto. cbn.
           unfold t1. rewrite list_lookup_alter_ne by auto. reflexivity.
        -- reflexivity.
        -- reflexivity.
    + right. unfold pipealloc_bad.
      change (negb (0 =? 0)) with false. cbn iota. cbn [mbind result_bind].
      rewrite (fileclose_untyped (set_ftable_lock s1 false) i0 (set_ref f0 1)
                 eq_refl Hi0' eq_refl Ht0).
      cbn [mbind result_bind]. exists (Some i0), None. split.
      * do 4 f_equal.
        apply fstate_eq; cbn; [reflexivity | symmetry; exact Hlk | | reflexivity].
        fold t1. replace (set_ref (set_ref f0 1) 0) with f0
          by (destruct f0; cbn in *; subst; reflexivity).
        apply list_eq. intros j. destruct (decide (j = i0)) as [->|Hj0].
        -- rewrite list_lookup_insert_eq
             by (unfold t1; rewrite length_alter; eapply lookup_lt_Some; eassumption).
           symmetry. exact Hi0.
        -- rewrite list_lookup_insert_ne by auto.
           unfold t1. rewrite list_lookup_alter_ne by auto. reflexivity.
      * left. intros i j Hij [Hfi Hfj].
        assert (Hother : exists k, k <> i0 /\ is_free (ftable s) k).
        { destruct (decide (i = i0)) as [->|Hi]; [exists j | exists i]; auto. }
        destruct Hother as (k & Hk & g & Hg & Hg0).
        apply (Hfull1 k g); [|exact Hg0].
        change (ftable s1) with t1. unfold t1.
        rewrite list_lookup_alter_ne by auto. exact Hg.
  - right. unfold pipealloc_bad.
    change (negb (0 =? 0)) with false. cbn iota. cbn [mbind result_bind].
    exists None, None. split.
    + rewrite set_ftable_lock_same by exact Hlk. reflexivity.
    + left. intros i j _ [(g & Hg & Hg0) _]. exact (Hfull i g Hg Hg0).
Qed.

(** X14. [pipealloc] is all or nothing.  With two free slots in the
    file table and a page on the free list it returns 0: the two lowest
    free slots are the read end and the write end, each with one
    reference, of an empty pipe with both ends open in the page that was
    at the head of the free list; nothing else in the file table
    changes.  Otherwise it returns -1 and leaves the file table, the
    pipes and the allocator exactly as they were. *)
Theorem pipealloc_all_or_nothing (s : fstate) :
  ftable_lock s = false -> free_slots_clean (ftable s) -> Kalloc.lock_free (kmem s) ->
  (exists i0 i1 s',
      pipealloc kernel_end KERNBASE PHYSTOP put_inode s = Ok (s', 0, Some i0, Some i1) /\
      i0 <> i1 /\ first_free (ftable s) i0 /\ is_free (ftable s) i1 /\
      Kalloc.freelist (kmem s) <> 0 /\
      (exists f0, ftable s' !! i0 = Some f0 /\ read_end f0 (Kalloc.freelist (kmem s))) /\
      (exists f1, ftable s' !! i1 = Some f1 /\ write_end f1 (Kalloc.freelist (kmem s))) /\
      (forall j, j <> i0 -> j <> i1 -> ftable s' !! j = ftable s !! j) /\
      pipes s' = <[Kalloc.freelist (kmem s) := fresh_pipe]> (pipes s) /\
      Kalloc.freelist (kmem s') =
        load32 (Kalloc.mem (kmem s)) (Kalloc.freelist (kmem s))) \/
  (exists g0 g1,
      pipealloc kernel_end KERNBASE PHYSTOP put_inode s = Ok (s, -1, g0, g1) /\
      ((forall i j, i <> j -> ~ (is_free (ftable s) i /\ is_free (ftable s) j)) \/
       Kalloc.freelist (kmem s) = 0)).
Proof.
  intros Hlk Hclean Hklk.
  destruct (pipealloc_spec s Hlk Hclean Hklk)
    as [(i0 & i1 & s' & H1 & H2 & H3 & H4 & H5 & H6 & H7 & H8 & H9 & H10 & _) | H].
  - left. exists i0, i1, s'. auto 12.
  - right. exact H.
Qed.


(** The last [fileclose] of an end of a pipe clears the slot and goes
    on to [pipeclose]. *)
Lemma fileclose_pipe_end (s : fstate) (i : nat) (fl : file) :
  ftable_lock s = false -> ftable s !! i = Some fl ->
  ref fl = 1 -> type fl = FD_PIPE ->
  fileclose kernel_end KERNBASE PHYSTOP put_inode s i =
    pipeclose kernel_end KERNBASE PHYSTOP
      (set_ftable s (<[i := set_type (set_ref fl 0) FD_NONE]> (ftable s)))
      (fpipe fl) (writable fl).
Proof.
  intros Hlk Hi Hr Ht. unfold fileclose. rewrite Hi, Hlk, Hr. cbn.
  rewrite Ht. f_equal.
  apply fstate_eq; cbn; [reflexivity | symmetry; exact Hlk | | reflexivity].
  reflexivity.
Qed.

Lemma pipeclose_write_end_first (s : fstate) (p : Z) (pp : pipe) :
  pipes s !! p = Some pp -> lock pp = false -> readopen pp <> 0 ->
  pipeclose kernel_end KERNBASE PHYSTOP s p 1 =
    Ok (set_pipes s (<[p := set_writeopen pp 0]> (pipes s))).
Proof.
  intros Hp Hlk Hro. unfold pipeclose. rewrite Hp, Hlk. cbn.
  apply Z.eqb_neq in Hro. rewrite Hro. cbn. do 3 f_equal.
  destruct pp. cbn in *. subst. reflexivity.
Qed.

Lemma pipeclose_read_end_last (s : fstate) (p : Z) (pp : pipe) :
  pipes s !! p = Some pp -> lock pp = false -> writeopen pp = 0 ->
  pipeclose kernel_end KERNBASE PHYSTOP s p 0 =
    k ← Kalloc.kfree kernel_end KERNBASE PHYSTOP (kmem s) p;
    Ok (set_kmem (set_pipes s (delete p (pipes s))) k).
Proof.
  intros Hp Hlk Hwo. unfold pipeclose. rewrite Hp, Hlk. cbn.
  rewrite Hwo. cbn. reflexivity.
Qed.

(** X15. A pipe that is closed gives everything back.  After
    [pipealloc], closing the write end leaves the pipe in place for
    the reader, who now reads end of file (0) from the empty pipe;
    closing the read end as well takes the pipe away and puts its page
    back at the head of the free list, which is then the list it was
    before [pipealloc]; the two slots of the file table are free
    again. *)
Theorem pipe_closed_gives_all_back
        (inode_read : Z -> Z -> Z -> result (list Z * Z))
        (s : fstate) (l : list Z) (killed n : Z) :
  0 < kernel_end ->
  ftable_lock s = false -> free_slots_clean (ftable s) -> Kalloc.lock_free (kmem s) ->
  (exists i j, i <> j /\ is_free (ftable s) i /\ is_free (ftable s) j) ->
  Freelist.is_freelist (Kalloc.mem (kmem s)) (Kalloc.freelist (kmem s))
                       (Kalloc.freelist (kmem s) :: l) ->
  Forall Freelist.page (Kalloc.freelist (kmem s) :: l) ->
  Kalloc.freelist (kmem s) ∉ l ->
  Kalloc.kfree_accepts kernel_end KERNBASE PHYSTOP (Kalloc.freelist (kmem s)) = true ->
  pipes s !! Kalloc.freelist (kmem s) = None ->
  exists i0 i1 s1 s2 s3,
    pipealloc kernel_end KERNBASE PHYSTOP put_inode s = Ok (s1, 0, Some i0, Some i1) /\
    fileclose kernel_end KERNBASE PHYSTOP put_inode s1 i1 = Ok s2 /\
    fileread inode_read s2 i0 killed n = Ok (s2, ReadReturn [] 0) /\
    fileclose kernel_end KERNBASE PHYSTOP put_inode s2 i0 = Ok s3 /\
    pipes s3 = pipes s /\
    Freelist.is_freelist (Kalloc.mem (kmem s3)) (Kalloc.freelist (kmem s3))
                         (Kalloc.freelist (kmem s) :: l) /\
    (forall j f, ftable s3 !! j = Some f ->
                 exists g, ftable s !! j = Some g /\ ref f = ref g) /\
    free_slots_clean (ftable s3).
Proof.
  intros Hend Hlk Hclean Hklk Htwo Hl Hpg Hnin Hacc Hnone.
  set (p := Kalloc.freelist (kmem s)) in *.
  pose proof Hl as (_ & Hp0 & Hl').
  destruct (pipealloc_spec s Hlk Hclean Hklk)
    as [(i0 & i1 & s1 & Hrun & Hne & Hf0 & Hf1 & _ & (f0 & Hi0 & Hre) & (f1 & Hi1 & Hwe)
         & Hoth & Hpipes & Hfl & Hlk1 & Hmem & Hklock & Huse)
       | (g0 & g1 & _ & [Hno | Hz])].
  2: { destruct Htwo as (i & j & Hij & Hi & Hj). exfalso. exact (Hno i j Hij (conj Hi Hj)). }
  2: { contradiction. }
  fold p in Hre, Hwe, Hpipes, Hfl.
  destruct Hre as (Ht0 & Hr0 & Hrd0 & Hwr0 & Hp0').
  destruct Hwe as (Ht1 & Hr1 & Hrd1 & Hwr1 & Hp1').
  exists i0, i1, s1. 
  (* close the write end *)
  pose proof (fileclose_pipe_end s1 i1 f1 Hlk1 Hi1 Hr1 Ht1) as Hc1.
  rewrite Hwr1, Hp1' in Hc1.
  set (s1a := set_ftable s1 _) in Hc1.
  assert (Hpp : pipes s1a !! p = Some fresh_pipe).
  { cbn. rewrite Hpipes. apply lookup_insert_eq. }
  rewrite (pipeclose_write_end_first s1a p fresh_pipe Hpp eq_refl) in Hc1
    by discriminate.
  set (s2 := set_pipes s1a _) in Hc1.
  exists s2.
  assert (Hi0_2 : ftable s2 !! i0 = Some f0).
  { cbn. rewrite list_lookup_insert_ne by auto. exact Hi0. }
  assert (Hp2 : pipes s2 !! p = Some (set_writeopen fresh_pipe 0)).
  { cbn. apply lookup_insert_eq. }
  (* close the read end *)
  pose proof (fileclose_pipe_end s2 i0 f0 Hlk1 Hi0_2 Hr0 Ht0) as Hc0.
  rewrite Hwr0, Hp0' in Hc0.
  set (s2a := set_ftable s2 _) in Hc0.
  rewrite (pipeclose_read_end_last s2a p (set_writeopen fresh_pipe 0) Hp2 eq_refl eq_refl)
    in Hc0.
  assert (Hk2 : Kalloc.lock_free (kmem s2a)).
  { unfold Kalloc.lock_free in *. cbn. rewrite Hklock, Huse. exact Hklk. }
  assert (Hl2 : Freelist.is_freelist (Kalloc.mem (kmem s2a)) (Kalloc.freelist (kmem s2a)) l).
  { cbn. rewrite Hmem, Hfl. exact Hl'. }
  apply Forall_cons in Hpg as [Hpp0 Hpgl].
  destruct (Freelist.kfree_pushes kernel_end KERNBASE PHYSTOP (kmem s2a) l p
              Hend Hk2 Hl2 Hpgl Hacc (proj2 Hpp0) Hnin) as (k3 & Hk3 & Hl3 & _).
  rewrite Hk3 in Hc0. cbn [mbind result_bind] in Hc0.
  eexists. split; [exact Hrun|]. split; [exact Hc1|]. split; [|split; [exact Hc0|]].
  - unfold fileread. rewrite Hi0_2, Hrd0, Ht0. change (1 =? 0) with false. cbn iota.
    rewrite Hp0'. unfold piperead. rewrite Hp2. unfold piperead_pipe, piperead_run. cbn.
    rewrite piperead_copy_empty by reflexivity. cbn. do 2 f_equal.
    apply fstate_eq; cbn; try reflexivity.
    rewrite insert_insert_eq. reflexivity.
  - cbn [pipes set_kmem set_pipes kmem set_ftable ftable s2a s2 s1a].
    split; [|split; [exact Hl3|split]].
    + rewrite delete_insert_eq, Hpipes, delete_insert_eq.
      apply delete_id. exact Hnone.
    + intros j f Hj.
      destruct Hf0 as [(g0 & Hg0 & Hg0r) _]. destruct Hf1 as (g1 & Hg1 & Hg1r).
      destruct (decide (j = i0)) as [->|Hj0].
      * rewrite list_lookup_insert_eq in Hj
          by (rewrite length_insert; eapply lookup_lt_Some; eassumption).
        injection Hj as <-. exists g0. split; [exact Hg0 | cbn; congruence].
      * rewrite list_lookup_insert_ne in Hj by auto.
        destruct (decide (j = i1)) as [->|Hj1].
        -- rewrite list_lookup_insert_eq in Hj by (eapply lookup_lt_Some; eassumption).
           injection Hj as <-. exists g1. split; [exact Hg1 | cbn; congruence].
        -- rewrite list_lookup_insert_ne in Hj by auto.
           rewrite Hoth in Hj by auto. exists f. split; [exact Hj | reflexivity].
    + intros j f Hj Hr.
      destruct (decide (j = i0)) as [->|Hj0].
      * rewrite list_lookup_insert_eq in Hj
          by (rewrite length_insert; eapply lookup_lt_Some; eassumption).
        injection Hj as <-. reflexivity.
      * rewrite list_lookup_insert_ne in Hj by auto.
        destruct (decide (j = i1)) as [->|Hj1].
        -- rewrite list_lookup_insert_eq in Hj by (eapply lookup_lt_Some; eassumption).
           injection Hj as <-. reflexivity.
        -- rewrite list_lookup_insert_ne in Hj by auto.
           rewrite Hoth in Hj by auto. exact (Hclean j f Hj Hr).
Qed.

End WithLayout.

(** ** A pipe with one byte of room *)

Definition nearly_full : pipe :=
  {| lock := false; data := junk; nread := 0; nwrite := 511;
     readopen := 1; writeopen := 1 |}.

Lemma nearly_full_wf : pipe_wf nearly_full.
Proof. split; [unfold_counters; cbn; lia_mod | reflexivity]. Qed.

Lemma pipewrite_fills_the_buffer_witness :
  exists p',
    pipewrite_pipe nearly_full 0 [7; 8; 9] 3 =
      Ok (p', if (readopen nearly_full =? 0) || negb (0 =? 0)
              then WriteReturn (-1)
              else WriteAsleep
                     (drop (Z.to_nat (PIPESIZE - occupancy nearly_full)) [7; 8; 9])) /\
    contents p' =
      contents nearly_full ++
      take (Z.to_nat (PIPESIZE - occupancy nearly_full)) [7; 8; 9] /\
    occupancy p' = PIPESIZE.
Proof.
  apply (pipewrite_fills_the_buffer nearly_full 0 [7; 8; 9] 3).
  - reflexivity.
  - exact nearly_full_wf.
  - vm_compute. reflexivity.
Defined.

Lemma pipealloc_all_or_nothing_witness :
  (exists i0 i1 s',
      pipealloc Kalloc.boot_end Kalloc.boot_KERNBASE Kalloc.boot_PHYSTOP (fun _ => Ok tt)
                three_files = Ok (s', 0, Some i0, Some i1) /\
      i0 <> i1 /\ first_free (ftable three_files) i0 /\ is_free (ftable three_files) i1 /\
      Kalloc.freelist (kmem three_files) <> 0 /\
      (exists f0, ftable s' !! i0 = Some f0 /\
                  read_end f0 (Kalloc.freelist (kmem three_files))) /\
      (exists f1, ftable s' !! i1 = Some f1 /\
                  write_end f1 (Kalloc.freelist (kmem three_files))) /\
      (forall j, j <> i0 -> j <> i1 -> ftable s' !! j = ftable three_files !! j) /\
      pipes s' = <[Kalloc.freelist (kmem three_files) := fresh_pipe]> (pipes three_files) /\
      Kalloc.freelist (kmem s') =
        load32 (Kalloc.mem (kmem three_files)) (Kalloc.freelist (kmem three_files))) \/
  (exists g0 g1,
      pipealloc Kalloc.boot_end Kalloc.boot_KERNBASE Kalloc.boot_PHYSTOP (fun _ => Ok tt)
                three_files = Ok (three_files, -1, g0, g1) /\
      ((forall i j, i <> j ->
                    ~ (is_free (ftable three_files) i /\ is_free (ftable three_files) j)) \/
       Kalloc.freelist (kmem three_files) = 0)).
Proof.
  apply (pipealloc_all_or_nothing Kalloc.boot_end Kalloc.boot_KERNBASE
           Kalloc.boot_PHYSTOP (fun _ => Ok tt) three_files).
  - reflexivity.
  - exact three_files_clean.
  - right. reflexivity.
Defined.

Lemma pipe_closed_gives_all_back_witness :
  exists i0 i1 s1 s2 s3,
    pipealloc Kalloc.boot_end Kalloc.boot_KERNBASE Kalloc.boot_PHYSTOP (fun _ => Ok tt)
              three_files = Ok (s1, 0, Some i0, Some i1) /\
    fileclose Kalloc.boot_end Kalloc.boot_KERNBASE Kalloc.boot_PHYSTOP (fun _ => Ok tt)
              s1 i1 = Ok s2 /\
    fileread (fun _ _ _ => Ok ([], 0)) s2 i0 0 5 = Ok (s2, ReadReturn [] 0) /\
    fileclose Kalloc.boot_end Kalloc.boot_KERNBASE Kalloc.boot_PHYSTOP (fun _ => Ok tt)
              s2 i0 = Ok s3 /\
    pipes s3 = pipes three_files /\
    Freelist.is_freelist (Kalloc.mem (kmem s3)) (Kalloc.freelist (kmem s3))
                         (Kalloc.freelist (kmem three_files) :: []) /\
    (forall j f, ftable s3 !! j = Some f ->
                 exists g, ftable three_files !! j = Some g /\ ref f = ref g) /\
    free_slots_clean (ftable s3).
Proof.
  apply (pipe_closed_gives_all_back Kalloc.boot_end Kalloc.boot_KERNBASE
           Kalloc.boot_PHYSTOP (fun _ => Ok tt) (fun _ _ _ => Ok ([], 0))
           three_files [] 0 5).
  - unfold Kalloc.boot_end. lia.
  - reflexivity.
  - exact three_files_clean.
  - right. reflexivity.
  - exists 1%nat, 2%nat. split; [lia|].
    split; (eexists; split; reflexivity).
  - exact Freelist.boot_kmem_list.
  - apply Forall_cons. split; [split; [reflexivity | cbn; lia] | constructor].
  - intros H. inversion H.
  - vm_compute. reflexivity.
  - reflexivity.
Defined.

End Pipes.


(** * sysfile.c: read, write and close *)

Module Sysio.

Import Sysfile.

(** [addr[0..n)] as a call reads it from user memory. *)
Definition read_bytes (m : memory) (addr : Z) (n : nat) : list Z :=
  map (fun j => m (wrap32 (addr + Z.of_nat j))) (seq 0 n).

(** [addr[i] = ...] for the bytes of [bs], from [addr] on. *)
Fixpoint write_bytes (m : memory) (addr : Z) (bs : list Z) : memory :=
  match bs with
  | [] => m
  | b :: bs' => write_bytes (Strings.store8 m addr b) (wrap32 (addr + 1)) bs'
  end.

Section WithLayout.

Variables (kernel_end KERNBASE PHYSTOP : Z).
Variable put_inode : Z -> result unit.
Variable inode_read : Z -> Z -> Z -> result (list Z * Z).
Variable inode_write : Z -> Z -> list Z -> result (Z * Z).

(** [sys_read]; [killed] is [myproc()->killed] as [piperead] reads it.
    The value returned is [None] while the call sleeps in
    [piperead]. *)
Definition sys_read (s : kstate) (killed : Z) : result (kstate * option Z) :=
  match argfd s 0 with
  | None => Ok (s, Some (-1))
  | Some (_, f) =>
      let a := Syscall.argint (proc s) 2 in
      if Syscall.ret a <? 0 then Ok (s, Some (-1))
      else
        let n := default 0 (Syscall.out a) in
        let b := Syscall.argptr (proc s) 1 n in
        if Syscall.ret b <? 0 then Ok (s, Some (-1))
        else
          let p := default 0 (Syscall.out b) in
          '(fs, o) ← Fileio.fileread inode_read (files s) f killed n;
          match o with
          | Pipe.ReadReturn out r =>
              Ok (set_umem (set_files s fs)
                           (write_bytes (Syscall.umem (proc s)) p out), Some r)
          | Pipe.ReadAsleep => Ok (set_files s fs, None)
          end
  end.

(** [sys_write]; the outcome is that of [filewrite]. *)
Definition sys_write (s : kstate) (killed : Z) : result (kstate * Pipe.write_outcome) :=
  match argfd s 0 with
  | None => Ok (s, Pipe.WriteReturn (-1))
  | Some (_, f) =>
      let a := Syscall.argint (proc s) 2 in
      if Syscall.ret a <? 0 then Ok (s, Pipe.WriteReturn (-1))
      else
        let n := default 0 (Syscall.out a) in
        let b := Syscall.argptr (proc s) 1 n in
        if Syscall.ret b <? 0 then Ok (s, Pipe.WriteReturn (-1))
        else
          let p := default 0 (Syscall.out b) in
          let bytes := read_bytes (Syscall.umem (proc s)) p (Z.to_nat n) in
          '(fs, o) ← Fileio.filewrite inode_write (files s) f killed bytes n;
          Ok (set_files s fs, o)
  end.

Definition sys_close (s : kstate) : result (kstate * Z) :=
  match argfd s 0 with
  | None => Ok (s, -1)
  | Some (fd, f) =>
      let s := set_ofile s (<[Z.to_nat fd := None]> (ofile s)) in
      fs ← Pipe.fileclose kernel_end KERNBASE PHYSTOP put_inode (files s) f;
      Ok (set_files s fs, 0)
  end.

End WithLayout.

(** ** Arguments on the user stack *)

(** Argument [i] of the call is the [int] [v]. *)
Definition arg_is (p : Syscall.proc) (i v : Z) : Prop :=
  Syscall.ret (Syscall.argint p i) = 0 /\ Syscall.out (Syscall.argint p i) = Some v.

(** Argument [i] is a pointer to [n] bytes of the process, at [buf]. *)
Definition argptr_is (p : Syscall.proc) (i n buf : Z) : Prop :=
  Syscall.ret (Syscall.argptr p i n) = 0 /\ Syscall.out (Syscall.argptr p i n) = Some buf.

Lemma argfd_open (s : kstate) (fd : Z) (f : nat) :
  arg_is (proc s) 0 fd -> 0 <= fd -> ofile s !! Z.to_nat fd = Some (Some f) ->
  argfd s 0 = Some (fd, f).
Proof.
  intros [Hr Ho] Hfd Hof. unfold argfd. rewrite Hr, Ho. cbn.
  assert (Hlt : (Z.to_nat fd < length (ofile s))%nat) by (eapply lookup_lt_Some; eassumption).
  replace (fd <? 0) with false by (symmetry; apply Z.ltb_ge; lia).
  replace (fd >=? Z.of_nat (length (ofile s))) with false
    by (symmetry; rewrite Z.geb_leb; apply Z.leb_gt; lia).
  cbn. rewrite Hof. reflexivity.
Qed.

Lemma write_bytes_spec (bs : list Z) :
  forall m addr,
    0 <= addr -> addr + Z.of_nat (length bs) < 2 ^ 32 ->
    (forall j, (j < length bs)%nat ->
               write_bytes m addr bs (addr + Z.of_nat j) = default 0 (bs !! j)) /\
    (forall a, ~ (addr <= a < addr + Z.of_nat (length bs)) -> write_bytes m addr bs a = m a).
Proof.
  induction bs as [|b bs IH]; intros m addr Ha Hb; cbn [length write_bytes] in *.
  - split; [intros; lia | reflexivity].
  - rewrite wrap32_small by lia.
    destruct (IH (Strings.store8 m addr b) (addr + 1)) as [Hin Hout]; try lia.
    split.
    + intros j Hj. destruct j as [|j].
      * rewrite Z.add_0_r, Hout by lia. cbn. apply Strings.store8_eq.
      * specialize (Hin j ltac:(lia)).
        replace (addr + Z.of_nat (S j)) with (addr + 1 + Z.of_nat j) by lia.
        exact Hin.
    + intros a Hna. rewrite Hout by lia. apply Strings.store8_ne. lia.
Qed.

Lemma read_write_bytes (m : memory) (addr : Z) (bs : list Z) :
  0 <= addr -> addr + Z.of_nat (length bs) < 2 ^ 32 ->
  read_bytes (write_bytes m addr bs) addr (length bs) = bs.
Proof.
  intros Ha Hb. destruct (write_bytes_spec bs m addr Ha Hb) as [Hin _].
  apply list_eq. intros j. unfold read_bytes.
  rewrite list_lookup_fmap.
  destruct (decide (j < length bs)%nat) as [Hj|Hj].
  - rewrite lookup_seq_lt by exact Hj. cbn.
    rewrite wrap32_small by lia. rewrite Hin by exact Hj.
    destruct (lookup_lt_is_Some_2 bs j Hj) as [x Hx]. rewrite Hx. reflexivity.
  - rewrite lookup_seq_ge by lia. cbn. symmetry. apply lookup_ge_None. lia.
Qed.


Lemma read_bytes_length (m : memory) (addr : Z) (n : nat) :
  length (read_bytes m addr n) = n.
Proof. unfold read_bytes. rewrite length_map, length_seq. reflexivity. Qed.

Lemma contents_empty (pp : Pipe.pipe) :
  Pipe.nread pp = Pipe.nwrite pp -> Pipe.contents pp = [] /\ Pipe.occupancy pp = 0.
Proof.
  intros He. unfold Pipe.contents, Pipe.occupancy. rewrite He, Z.sub_diag.
  split; reflexivity.
Qed.

Section Through.

Variable inode_read : Z -> Z -> Z -> result (list Z * Z).
Variable inode_write : Z -> Z -> list Z -> result (Z * Z).

(** X16. Bytes go through a pipe unchanged.  A process calls
    [write(fdw, bufw, n)] on the write end of an empty pipe, with
    [1 <= n <= PIPESIZE]; the call returns [n].  A process that then
    calls [read(fdr, bufr, m)] on the read end, with [m >= n], gets [n]
    back and finds in [bufr] the [n] bytes the writer had in [bufw]. *)
Theorem write_then_read_through_pipe
        (sw : kstate) (pr : Syscall.proc) (ofr : list (option nat))
        (killed fdw fdr n m bufw bufr : Z) (fw fr : nat) (flw flr : Pipe.file)
        (P : Z) (pp : Pipe.pipe) :
  arg_is (proc sw) 0 fdw -> arg_is (proc sw) 2 n -> argptr_is (proc sw) 1 n bufw ->
  0 <= fdw -> ofile sw !! Z.to_nat fdw = Some (Some fw) ->
  Pipe.ftable (files sw) !! fw = Some flw ->
  Pipe.type flw = Pipe.FD_PIPE -> Pipe.writable flw <> 0 -> Pipe.fpipe flw = P ->
  arg_is pr 0 fdr -> arg_is pr 2 m -> argptr_is pr 1 m bufr ->
  0 <= fdr -> ofr !! Z.to_nat fdr = Some (Some fr) ->
  Pipe.ftable (files sw) !! fr = Some flr ->
  Pipe.type flr = Pipe.FD_PIPE -> Pipe.readable flr <> 0 -> Pipe.fpipe flr = P ->
  Pipe.pipes (files sw) !! P = Some pp -> Pipe.lock pp = false -> Pipe.pipe_wf pp ->
  Pipe.nread pp = Pipe.nwrite pp ->
  1 <= n <= Pipe.PIPESIZE -> n <= m -> 0 <= bufr -> bufr + n < 2 ^ 32 ->
  exists sw' sr',
    sys_write inode_write sw killed = Ok (sw', Pipe.WriteReturn n) /\
    ofile sw' = ofile sw /\ proc sw' = proc sw /\
    sys_read inode_read {| proc := pr; ofile := ofr; files := files sw' |} killed =
      Ok (sr', Some n) /\
    read_bytes (Syscall.umem (proc sr')) bufr (Z.to_nat n) =
      read_bytes (Syscall.umem (proc sw)) bufw (Z.to_nat n).
Proof.
  intros Hw0 Hw2 Hw1 Hfdw Hofw Hfw Htw Hww Hpw Hr0 Hr2 Hr1 Hfdr Hofr Hfr Htr Hrr Hpr
         Hp Hlk Hwf He Hn Hm Hbr Hbr'.
  destruct (contents_empty pp He) as [Hc0 Ho0].
  set (bytes := read_bytes (Syscall.umem (proc sw)) bufw (Z.to_nat n)).
  assert (Hlen : length bytes = Z.to_nat n) by apply read_bytes_length.
  (* the write *)
  destruct (Pipe.pipewrite_run_fits killed n bytes (Pipe.set_lock pp true) eq_refl Hwf)
    as (p1 & Hrun1 & Hwf1 & Hc1 & Hlk1 & _ & _ & Hwo1).
  { change (Pipe.occupancy (Pipe.set_lock pp true)) with (Pipe.occupancy pp).
    rewrite Ho0, Hlen. lia. }
  change (Pipe.contents (Pipe.set_lock pp true)) with (Pipe.contents pp) in Hc1.
  rewrite Hc0 in Hc1. cbn [app] in Hc1.
  assert (Hwrite : sys_write inode_write sw killed =
            Ok (set_files sw (Pipe.set_pipes (files sw) (<[P := p1]> (Pipe.pipes (files sw)))),
                Pipe.WriteReturn n)).
  { unfold sys_write. rewrite (argfd_open sw fdw fw Hw0 Hfdw Hofw).
    destruct Hw2 as [-> ->]. cbn [Z.ltb Z.compare default]. unfold id.
    destruct Hw1 as [-> ->]. cbn [Z.ltb Z.compare default]. unfold id. fold bytes. unfold Fileio.filewrite. rewrite Hfw.
    apply Z.eqb_neq in Hww. rewrite Hww, Htw, Hpw.
    unfold Pipe.pipewrite. rewrite Hp. unfold Pipe.pipewrite_pipe. rewrite Hlk.
    cbn [acquire mbind result_bind]. rewrite Hrun1. reflexivity. }
  (* the read *)
  set (fs1 := Pipe.set_pipes (files sw) (<[P := p1]> (Pipe.pipes (files sw)))).
  set (sr := {| proc := pr; ofile := ofr; files := files (set_files sw fs1) |}).
  assert (Hp1 : Pipe.pipes (files sr) !! P = Some p1) by (cbn; apply lookup_insert_eq).
  assert (Hne : (Pipe.nread p1 =? Pipe.nwrite p1) && negb (Pipe.writeopen p1 =? 0) = false).
  { apply andb_false_iff. left. apply Z.eqb_neq. intros Heq.
    destruct (contents_empty p1 Heq) as [Hnil _]. rewrite Hc1 in Hnil.
    apply (f_equal length) in Hnil. rewrite Hlen in Hnil. cbn in Hnil. lia. }
  destruct (Pipe.piperead_pipe_reads p1 killed m Hlk1 (proj1 Hwf1) Hne)
    as (p2 & Hrun2 & _).
  rewrite Hc1 in Hrun2.
  assert (Hall : take (Z.to_nat m) bytes = bytes) by (apply take_ge; lia).
  rewrite Hall, Hlen, Z2Nat.id in Hrun2 by lia.
  assert (Hread : sys_read inode_read sr killed =
            Ok (set_umem (set_files sr (Pipe.set_pipes (files sr)
                                          (<[P := p2]> (Pipe.pipes (files sr)))))
                         (write_bytes (Syscall.umem pr) bufr bytes), Some n)).
  { unfold sys_read. rewrite (argfd_open sr fdr fr Hr0 Hfdr Hofr).
    cbn [proc sr]. destruct Hr2 as [-> ->]. cbn [Z.ltb Z.compare default]. unfold id.
    destruct Hr1 as [-> ->]. cbn [Z.ltb Z.compare default]. unfold id.
    assert (Hfr' : Pipe.ftable (files sr) !! fr = Some flr) by exact Hfr.
    unfold Fileio.fileread. rewrite Hfr'.
    apply Z.eqb_neq in Hrr. rewrite Hrr, Htr, Hpr.
    unfold Pipe.piperead. rewrite Hp1, Hrun2. reflexivity. }
  exists (set_files sw fs1). eexists.
  split; [exact Hwrite|]. split; [reflexivity|]. split; [reflexivity|].
  split; [exact Hread|].
  cbn [proc set_umem set_files Syscall.umem].
  rewrite <- Hlen. apply read_write_bytes; [exact Hbr | rewrite Hlen; lia].
Qed.

End Through.


Section Closing.

Variables (kernel_end KERNBASE PHYSTOP : Z).
Variable put_inode : Z -> result unit.
Variable inode_read : Z -> Z -> Z -> result (list Z * Z).
Variable inode_write : Z -> Z -> list Z -> result (Z * Z).

(** X17. [close] undoes [dup].  When [dup] has returned the descriptor
    [fd], a [close(fd)] returns 0 and leaves the descriptors of the
    process and the file table as they were before the [dup]. *)
Theorem close_undoes_dup (s s1 : kstate) (fd : Z) (p' : Syscall.proc) :
  Pipe.ftable_lock (files s) = false ->
  (forall f fl, Pipe.ftable (files s) !! f = Some fl -> Pipe.ref fl < 2 ^ 31 - 1) ->
  sys_dup s = Ok (s1, fd) -> 0 <= fd ->
  arg_is p' 0 fd ->
  sys_close kernel_end KERNBASE PHYSTOP put_inode
            {| proc := p'; ofile := ofile s1; files := files s1 |} =
    Ok ({| proc := p'; ofile := ofile s; files := files s |}, 0).
Proof.
  intros Hlk Hmax H Hfd Harg. unfold sys_dup in H.
  destruct (argfd s 0) as [[g f]|] eqn:Hg.
  2: { injection H as <- <-. lia. }
  destruct (fdalloc_cases (ofile s) f) as [[Hrun _]|(fd0 & Hlow & Hrun)];
    rewrite Hrun in H.
  { cbn in H. injection H as <- <-. lia. }
  replace (Z.of_nat fd0 <? 0) with false in H by (symmetry; apply Z.ltb_ge; lia).
  bind_inv H. injection H as <- <-. rename a into fs1.
  cbn [ofile files set_files set_ofile].
  pose proof (lowest_free_lt _ _ Hlow) as Hlt. destruct Hlow as [Hnone _].
  unfold sys_close.
  rewrite (argfd_open {| proc := p'; ofile := <[fd0 := Some f]> (ofile s); files := fs1 |}
                      (Z.of_nat fd0) f Harg Hfd).
  2: { cbn [ofile]. rewrite Nat2Z.id. apply list_lookup_insert_eq. exact Hlt. }
  cbn [ofile files set_files set_ofile proc]. rewrite Nat2Z.id.
  rewrite (Fileio.fileclose_after_filedup kernel_end KERNBASE PHYSTOP put_inode
             (files s) fs1 f Hlk (Hmax f) E).
  cbn. do 2 f_equal. unfold set_files, set_ofile. cbn. f_equal.
  rewrite list_insert_insert_eq. apply list_insert_id. exact Hnone.
Qed.

(** The three checks of [argfd]. *)
Definition not_open (s : kstate) : Prop :=
  Syscall.ret (Syscall.argint (proc s) 0) < 0 \/
  exists fd, Syscall.out (Syscall.argint (proc s) 0) = Some fd /\
             (fd < 0 \/ Z.of_nat (length (ofile s)) <= fd \/
              ofile s !! Z.to_nat fd = Some None).

Lemma argfd_not_open (s : kstate) : not_open s -> argfd s 0 = None.
Proof.
  intros [Hr | (fd & Ho & Hbad)]; unfold argfd.
  - apply Z.ltb_lt in Hr. rewrite Hr. reflexivity.
  - destruct (Syscall.ret (Syscall.argint (proc s) 0) <? 0); [reflexivity|].
    rewrite Ho. cbn [default]. unfold id.
    destruct (fd <? 0) eqn:H1; [reflexivity|]. apply Z.ltb_ge in H1.
    destruct (fd >=? Z.of_nat (length (ofile s))) eqn:H2; [reflexivity|].
    rewrite Z.geb_leb in H2. apply Z.leb_gt in H2. cbn.
    destruct Hbad as [Hb | [Hb | Hb]]; [lia | lia |]. rewrite Hb. reflexivity.
Qed.

(** X18. A call on a descriptor that is not open fails and changes
    nothing.  When argument 0 cannot be read, or is negative, or is
    [NOFILE] or more, or names a free slot of [ofile], each of [read],
    [write], [close] and [dup] returns -1 with the state as it was;
    [ofile] is not indexed outside [[0, NOFILE)].  The same holds for a
    [read] on a file that is not readable and a [write] on one that is
    not writable, such as the wrong end of a pipe. *)
Theorem bad_descriptor_changes_nothing (s : kstate) (killed : Z) :
  (not_open s ->
   sys_read inode_read s killed = Ok (s, Some (-1)) /\
   sys_write inode_write s killed = Ok (s, Pipe.WriteReturn (-1)) /\
   sys_close kernel_end KERNBASE PHYSTOP put_inode s = Ok (s, -1) /\
   sys_dup s = Ok (s, -1)) /\
  (forall fd f fl n buf,
      argfd s 0 = Some (fd, f) -> arg_is (proc s) 2 n -> argptr_is (proc s) 1 n buf ->
      Pipe.ftable (files s) !! f = Some fl ->
      (Pipe.readable fl = 0 -> sys_read inode_read s killed = Ok (s, Some (-1))) /\
      (Pipe.writable fl = 0 ->
       sys_write inode_write s killed = Ok (s, Pipe.WriteReturn (-1)))).
Proof.
  split.
  - intros H. apply argfd_not_open in H.
    unfold sys_read, sys_write, sys_close, sys_dup. rewrite H. auto.
  - intros fd f fl n buf Hfd [H2r H2o] [H1r H1o] Hf.
    unfold sys_read, sys_write. rewrite Hfd, H2r, H2o.
    cbn [Z.ltb Z.compare default]. unfold id. rewrite H1r, H1o.
    cbn [Z.ltb Z.compare default]. unfold id.
    unfold Fileio.fileread, Fileio.filewrite. rewrite Hf.
    split; intros ->; cbn; destruct s as [[] ? ?]; reflexivity.
Qed.

End Closing.

(** ** Two processes at the ends of a pipe *)

Definition pipe_page : Z := 0x803ff000.

Definition pipe_read_end : Pipe.file :=
  {| Pipe.type := Pipe.FD_PIPE; Pipe.ref := 1; Pipe.readable := 1;
     Pipe.writable := 0; Pipe.fpipe := pipe_page; Pipe.ip := 0; Pipe.off := 0 |}.

Definition pipe_write_end : Pipe.file :=
  {| Pipe.type := Pipe.FD_PIPE; Pipe.ref := 1; Pipe.readable := 0;
     Pipe.writable := 1; Pipe.fpipe := pipe_page; Pipe.ip := 0; Pipe.off := 0 |}.

(** The user stack of a call with the arguments [a0], [a1], [a2]. *)
Definition call3 (m : memory) (a0 a1 a2 : Z) : Syscall.proc :=
  {| Syscall.sz := 4096; Syscall.esp := 4000;
     Syscall.umem := store32 (store32 (store32 m 4004 a0) 4008 a1) 4012 a2 |}.

(** The writer calls [write(1, 3000, 3)], with ["hi!"] at 3000. *)
Definition pipe_writer : kstate :=
  {| proc := call3 (Strings.store8 (Strings.store8 (Strings.store8 (fun _ => 0)
                      3000 104) 3001 105) 3002 33) 1 3000 3;
     ofile := [Some 0%nat; Some 1%nat];
     files := {| Pipe.kmem := Kalloc.boot_kmem; Pipe.ftable_lock := false;
                 Pipe.ftable := [pipe_read_end; pipe_write_end];
                 Pipe.pipes := {[ pipe_page := Pipes.fresh_pipe ]} |} |}.

(** The reader calls [read(0, 3100, 10)]. *)
Definition pipe_reader : Syscall.proc := call3 (fun _ => 0) 0 3100 10.

Lemma fresh_pipe_wf : Pipe.pipe_wf Pipes.fresh_pipe.
Proof. split; [Pipe.unfold_counters; cbn; lia_mod | reflexivity]. Qed.

Lemma write_then_read_through_pipe_witness :
  exists sw' sr',
    sys_write (fun _ _ _ => Ok (0, 0)) pipe_writer 0 = Ok (sw', Pipe.WriteReturn 3) /\
    ofile sw' = ofile pipe_writer /\ proc sw' = proc pipe_writer /\
    sys_read (fun _ _ _ => Ok ([], 0))
             {| proc := pipe_reader; ofile := [Some 0%nat; Some 1%nat];
                files := files sw' |} 0 = Ok (sr', Some 3) /\
    read_bytes (Syscall.umem (proc sr')) 3100 (Z.to_nat 3) =
      read_bytes (Syscall.umem (proc pipe_writer)) 3000 (Z.to_nat 3).
Proof.
  apply (write_then_read_through_pipe (fun _ _ _ => Ok ([], 0)) (fun _ _ _ => Ok (0, 0))
           pipe_writer pipe_reader [Some 0%nat; Some 1%nat] 0 1 0 3 10 3000 3100
           1%nat 0%nat pipe_write_end pipe_read_end pipe_page Pipes.fresh_pipe).
  - split; vm_compute; reflexivity.
  - split; vm_compute; reflexivity.
  - split; vm_compute; reflexivity.
  - lia.
  - reflexivity.
  - reflexivity.
  - reflexivity.
  - discriminate.
  - reflexivity.
  - split; vm_compute; reflexivity.
  - split; vm_compute; reflexivity.
  - split; vm_compute; reflexivity.
  - lia.
  - reflexivity.
  - reflexivity.
  - reflexivity.
  - discriminate.
  - reflexivity.
  - reflexivity.
  - reflexivity.
  - exact fresh_pipe_wf.
  - reflexivity.
  - unfold Pipe.PIPESIZE. lia.
  - lia.
  - lia.
  - lia.
Defined.

(** What the reader finds at 3100 after the two calls. *)
Definition hi_read : option (list Z) :=
  match sys_write (fun _ _ _ => Ok (0, 0)) pipe_writer 0 with
  | Ok (sw', Pipe.WriteReturn 3) =>
      match sys_read (fun _ _ _ => Ok ([], 0))
                     {| proc := pipe_reader; ofile := [Some 0%nat; Some 1%nat];
                        files := files sw' |} 0 with
      | Ok (sr', Some 3) => Some (read_bytes (Syscall.umem (proc sr')) 3100 3)
      | _ => None
      end
  | _ => None
  end.

(** The three bytes arrive. *)
Example hi_through_pipe : hi_read = Some [104; 105; 33].
Proof. vm_compute. reflexivity. Qed.

(** ** [dup(2)] and then [close(1)] *)

Lemma close_undoes_dup_witness :
  sys_close Kalloc.boot_end Kalloc.boot_KERNBASE Kalloc.boot_PHYSTOP (fun _ => Ok tt)
            {| proc := call3 (fun _ => 0) 1 0 0;
               ofile := [Some 0%nat; Some 0%nat; Some 0%nat; None];
               files := Pipe.set_ftable (files (two_open 2))
                          [Pipe.set_ref console_file 3; free_file; free_file] |} =
    Ok ({| proc := call3 (fun _ => 0) 1 0 0; ofile := ofile (two_open 2);
           files := files (two_open 2) |}, 0).
Proof.
  apply (close_undoes_dup Kalloc.boot_end Kalloc.boot_KERNBASE Kalloc.boot_PHYSTOP
           (fun _ => Ok tt) (two_open 2)
           {| proc := proc (two_open 2);
              ofile := [Some 0%nat; Some 0%nat; Some 0%nat; None];
              files := Pipe.set_ftable (files (two_open 2))
                         [Pipe.set_ref console_file 3; free_file; free_file] |}
           1 (call3 (fun _ => 0) 1 0 0)).
  - reflexivity.
  - intros [|[|[|f]]] fl H; cbn in H; try discriminate;
      injection H as <-; cbn; lia.
  - reflexivity.
  - lia.
  - split; vm_compute; reflexivity.
Defined.

(** ** A call on descriptor 1, which is not open *)

Lemma bad_descriptor_changes_nothing_witness :
  sys_read (fun _ _ _ => Ok ([], 0)) (two_open 1) 0 = Ok (two_open 1, Some (-1)) /\
  sys_write (fun _ _ _ => Ok (0, 0)) (two_open 1) 0 =
    Ok (two_open 1, Pipe.WriteReturn (-1)) /\
  sys_close Kalloc.boot_end Kalloc.boot_KERNBASE Kalloc.boot_PHYSTOP (fun _ => Ok tt)
            (two_open 1) = Ok (two_open 1, -1) /\
  sys_dup (two_open 1) = Ok (two_open 1, -1).
Proof.
  apply (bad_descriptor_changes_nothing Kalloc.boot_end Kalloc.boot_KERNBASE
           Kalloc.boot_PHYSTOP (fun _ => Ok tt) (fun _ _ _ => Ok ([], 0))
           (fun _ _ _ => Ok (0, 0)) (two_open 1) 0).
  right. exists 1. split; [vm_compute; reflexivity|]. right. right. reflexivity.
Defined.

End Sysio.


(** * log.c: log_write *)

Module Logwrite.

Import Log.

Definition set_block (l : log) (blk : list Z) : log :=
  {| lock := lock l; start := start l; size := size l;
     outstanding := outstanding l; committing := committing l;
     dev := dev l; lh := {| n := n (lh l); block := blk |} |}.

(** [for (i = 0; i < log.lh.n; i++) if (log.lh.block[i] == b->blockno) break;]
    with [togo] rounds left; the value is [i] after the loop. *)
Fixpoint log_write_scan (togo i : nat) (blk : list Z) (blockno : Z) : result nat :=
  match togo with
  | O => Ok i
  | S togo' =>
      match blk !! i with
      | None => Undefined
      | Some x => if x =? blockno then Ok i
                  else log_write_scan togo' (S i) blk blockno
      end
  end.

Section WithParams.

(** param.h and buf.h are not among the sources: the size of the array
    [block] and the flag stay parameters. *)
Variables (LOGSIZE B_DIRTY : Z).

(** [log_write(b)], with [blockno] for [b->blockno] and [flags] for
    [b->flags]; the flags of the buffer are given back. *)
Definition log_write (l : log) (blockno flags : Z) : result (log * Z) :=
  if (n (lh l) >=? LOGSIZE) || (n (lh l) >=? size l - 1)
  then Panic "too big a transaction"
  else if outstanding l <? 1 then Panic "log_write outside of trans"
  else
    lk ← acquire (lock l);
    let l := set_lock l lk in
    i ← log_write_scan (Z.to_nat (n (lh l))) 0 (block (lh l)) blockno;
    if (i <? length (block (lh l)))%nat then
      let l := set_block l (<[i := blockno]> (block (lh l))) in
      let l := if Z.of_nat i =? n (lh l) then set_n l (int32 (n (lh l) + 1)) else l in
      lk ← release (lock l);
      Ok (set_lock l lk, Z.lor flags B_DIRTY)   (* prevent eviction *)
    else Undefined.

End WithParams.

(** ** The blocks of the transaction *)

(** The block numbers the header holds: the first [n] of the array. *)
Definition logged (l : log) : list Z := take (Z.to_nat (n (lh l))) (block (lh l)).

Lemma log_write_scan_spec (blk : list Z) (b : Z) (togo : nat) :
  forall i : nat,
    (i + togo <= length blk)%nat ->
    b ∉ take i blk ->
    exists j, log_write_scan togo i blk b = Ok j /\ (i <= j <= i + togo)%nat /\
              (b ∉ take j blk) /\
              ((j < i + togo)%nat /\ blk !! j = Some b \/
               j = (i + togo)%nat).
Proof.
  induction togo as [|togo IH]; intros i Hlen Hnot; cbn [log_write_scan].
  - exists i. split; [reflexivity|]. split; [lia|]. split; [exact Hnot|]. right. lia.
  - destruct (lookup_lt_is_Some_2 blk i ltac:(lia)) as [x Hx]. rewrite Hx.
    destruct (x =? b) eqn:Hxb.
    + apply Z.eqb_eq in Hxb. subst x. exists i. split; [reflexivity|].
      split; [lia|]. split; [exact Hnot|]. left. split; [lia | exact Hx].
    + apply Z.eqb_neq in Hxb.
      destruct (IH (S i)) as (j & Hrun & Hj & Hnj & Hcase).
      * lia.
      * rewrite (take_S_r _ _ _ Hx). intros Hin.
        apply elem_of_app in Hin as [Hin|Hin]; [exact (Hnot Hin)|].
        apply list_elem_of_singleton in Hin. congruence.
      * exists j. split; [exact Hrun|]. split; [lia|]. split; [exact Hnj|].
        destruct Hcase as [[Hlt Hb]|Heq]; [left; split; [lia | exact Hb] | right; lia].
Qed.

Section Absorption.

Variables (LOGSIZE B_DIRTY : Z).

(** X19. [log_write] absorbs a block that the transaction has written
    before.  Inside a transaction with room in the log the call
    returns with the buffer marked dirty and the block among the
    logged ones; a block that was already logged leaves the header as
    it was, and a new one is put behind the others, [n] growing by
    one.  Blocks logged once stay logged once.  A header that is full
    makes [log_write] panic, also for a block that is already in it. *)
Theorem log_write_absorbs (l : log) (blockno flags : Z) :
  lock l = false -> 1 <= outstanding l ->
  0 <= n (lh l) < LOGSIZE -> n (lh l) < size l - 1 ->
  length (block (lh l)) = Z.to_nat LOGSIZE -> LOGSIZE < 2 ^ 31 ->
  (exists l',
      log_write LOGSIZE B_DIRTY l blockno flags = Ok (l', Z.lor flags B_DIRTY) /\
      blockno ∈ logged l' /\
      (blockno ∈ logged l -> l' = l) /\
      (blockno ∉ logged l ->
       n (lh l') = n (lh l) + 1 /\ logged l' = logged l ++ [blockno]) /\
      (NoDup (logged l) -> NoDup (logged l')) /\
      lock l' = false /\ outstanding l' = outstanding l /\
      committing l' = committing l /\
      length (block (lh l')) = length (block (lh l))) /\
  (forall l0 : log,
      LOGSIZE <= n (lh l0) ->
      log_write LOGSIZE B_DIRTY l0 blockno flags = Panic "too big a transaction").
Proof.
  intros Hlk Hout Hn Hsz Hlen Hmax. split.
  2: { intros l0 Hfull. unfold log_write.
       replace (n (lh l0) >=? LOGSIZE) with true
         by (symmetry; rewrite Z.geb_leb; apply Z.leb_le; exact Hfull).
       reflexivity. }
  unfold log_write.
  replace (n (lh l) >=? LOGSIZE) with false
    by (symmetry; rewrite Z.geb_leb; apply Z.leb_gt; lia).
  replace (n (lh l) >=? size l - 1) with false
    by (symmetry; rewrite Z.geb_leb; apply Z.leb_gt; lia).
  replace (outstanding l <? 1) with false by (symmetry; apply Z.ltb_ge; lia).
  rewrite Hlk. cbn [orb acquire mbind result_bind set_lock lh lock].
  destruct (log_write_scan_spec (block (lh l)) blockno (Z.to_nat (n (lh l))) 0)
    as (j & Hrun & Hj & Hnj & Hcase).
  { lia. }
  { rewrite take_0. apply not_elem_of_nil. }
  rewrite Hrun. cbn [mbind result_bind].
  replace (j <? length (block (lh l)))%nat with true
    by (symmetry; apply Nat.ltb_lt; lia).
  destruct l as [lk st sz os cm dv [hn hb]]. cbn [lh n block lock outstanding size] in *.
  subst lk. unfold logged. cbn [lh n block set_block set_n set_lock lock outstanding
                                 committing start size dev].
  destruct Hcase as [[Hlt Hb]|Heq].
  - (* absorbed *)
    replace (Z.of_nat j =? hn) with false by (symmetry; apply Z.eqb_neq; lia).
    cbn [lh n block set_block set_n set_lock lock outstanding committing start size dev
         release mbind result_bind].
    rewrite (list_insert_id _ _ _ Hb).
    eexists. split; [reflexivity|].
    unfold set_lock, set_n, set_block. cbn [lh n block lock outstanding committing].
    assert (Hin : blockno ∈ take (Z.to_nat hn) hb).
    { apply list_elem_of_lookup. exists j. rewrite lookup_take_lt by lia. exact Hb. }
    split; [exact Hin|]. split; [reflexivity|].
    split; [intros Hno; destruct (Hno Hin)|]. auto.
  - (* a new block *)
    subst j. rewrite Nat.add_0_l, Z2Nat.id by lia. rewrite Z.eqb_refl.
    cbn [lh n block set_block set_n set_lock lock outstanding committing start size dev
         release mbind result_bind].
    rewrite int32_small by lia.
    eexists. split; [reflexivity|].
    unfold set_lock, set_n, set_block. cbn [lh n block lock outstanding committing].
    rewrite Nat.add_0_l in Hnj.
    assert (Htk : take (Z.to_nat (hn + 1)) (<[Z.to_nat hn := blockno]> hb)
                  = take (Z.to_nat hn) hb ++ [blockno]).
    { replace (Z.to_nat (hn + 1)) with (S (Z.to_nat hn)) by lia.
      rewrite (take_S_r _ _ blockno).
      - rewrite take_insert_ge by lia. reflexivity.
      - apply list_lookup_insert_eq. lia. }
    rewrite Htk.
    split; [apply elem_of_app; right; apply list_elem_of_singleton; reflexivity|].
    split; [intros Hin; destruct (Hnj Hin)|].
    split; [intros _; split; reflexivity|].
    split.
    + intros Hnd. apply NoDup_app. split; [exact Hnd|]. split.
      * intros x Hx Hx'. apply list_elem_of_singleton in Hx'. subst x. exact (Hnj Hx).
      * apply NoDup_singleton.
    + rewrite length_insert. auto.
Qed.

End Absorption.

(** ** A transaction that has logged blocks 33 and 46 *)

Definition two_logged : log :=
  {| lock := false; start := 2; size := 30; outstanding := 1; committing := 0;
     dev := 1; lh := {| n := 2; block := [33; 46] ++ replicate 28 0 |} |}.

Lemma log_write_absorbs_witness :
  (exists l',
      log_write 30 4 two_logged 46 0 = Ok (l', Z.lor 0 4) /\
      46 ∈ logged l' /\
      (46 ∈ logged two_logged -> l' = two_logged) /\
      (46 ∉ logged two_logged ->
       n (lh l') = n (lh two_logged) + 1 /\ logged l' = logged two_logged ++ [46]) /\
      (NoDup (logged two_logged) -> NoDup (logged l')) /\
      lock l' = false /\ outstanding l' = outstanding two_logged /\
      committing l' = committing two_logged /\
      length (block (lh l')) = length (block (lh two_logged))) /\
  (forall l0 : log,
      30 <= n (lh l0) -> log_write 30 4 l0 46 0 = Panic "too big a transaction").
Proof.
  apply (log_write_absorbs 30 4 two_logged 46 0).
  - reflexivity.
  - cbn. lia.
  - cbn. lia.
  - cbn. lia.
  - reflexivity.
  - lia.
Defined.

(** Writing block 46 again changes nothing; block 7 takes slot 2. *)
Example log_write_46_then_7 :
  log_write 30 4 two_logged 46 0 = Ok (two_logged, 4) /\
  (exists l', log_write 30 4 two_logged 7 0 = Ok (l', 4) /\ logged l' = [33; 46; 7]).
Proof. split; [reflexivity | eexists; split; reflexivity]. Qed.

End Logwrite.


(** * proc.c: kill and wakeup *)

Module Signals.

Import Proc.

Definition set_killed (p : proc) (x : Z) : proc :=
  {| sz := sz p; pgdir := pgdir p; kstack := kstack p; state := state p; pid := pid p;
     parent := parent p; tf := tf p; chan := chan p; killed := x;
     ofile := ofile p; cwd := cwd p; name := name p |}.

(** [p->killed = 1; if(p->state == SLEEPING) p->state = RUNNABLE;] *)
Definition kill_proc (p : proc) : proc :=
  let p := set_killed p 1 in
  if decide (state p = SLEEPING) then set_state p RUNNABLE else p.

(** The scan of [kill]: the first slot with [p->pid == pid]. *)
Fixpoint kill_scan (ps : list proc) (i : nat) (n : Z) : option nat :=
  match ps with
  | [] => None
  | p :: ps' => if pid p =? n then Some i else kill_scan ps' (S i) n
  end.

(** [kill(pid)] *)
Definition kill (s : kstate) (n : Z) : result (kstate * Z) :=
  lk ← acquire (ptable_lock s);
  let s := set_ptable_lock s lk in
  match kill_scan (procs s) 0 n with
  | Some i =>
      let s := update_proc s i kill_proc in
      lk ← release (ptable_lock s);
      Ok (set_ptable_lock s lk, 0)
  | None =>
      lk ← release (ptable_lock s);
      Ok (set_ptable_lock s lk, -1)
  end.

(** [wakeup(chan)] *)
Definition wakeup (s : kstate) (c : ptr) : result kstate :=
  lk ← acquire (ptable_lock s);
  let s := set_ptable_lock s lk in
  let s := set_procs s (wakeup1 (procs s) c) in
  lk ← release (ptable_lock s);
  Ok (set_ptable_lock s lk).

(** ** The scan *)

(** Slot [i] is the first with the pid [n]. *)
Definition first_with_pid (ps : list proc) (n : Z) (i : nat) : Prop :=
  (exists p, ps !! i = Some p /\ pid p = n) /\
  forall j q, (j < i)%nat -> ps !! j = Some q -> pid q <> n.

Lemma kill_scan_spec (n : Z) (ps : list proc) :
  forall b : nat,
    match kill_scan ps b n with
    | Some k => exists i, k = (b + i)%nat /\ first_with_pid ps n i
    | None => forall p, p ∈ ps -> pid p <> n
    end.
Proof.
  induction ps as [|p ps IH]; intros b; cbn [kill_scan].
  - intros p Hp. inversion Hp.
  - destruct (pid p =? n) eqn:Hp.
    + apply Z.eqb_eq in Hp. exists 0%nat. split; [lia|]. split.
      * exists p. split; [reflexivity | exact Hp].
      * intros j q Hj. lia.
    + apply Z.eqb_neq in Hp. specialize (IH (S b)).
      destruct (kill_scan ps (S b) n) as [k|].
      * destruct IH as (i & -> & (q & Hq & Hqn) & Hfirst).
        exists (S i). split; [lia|]. split.
        -- exists q. split; [exact Hq | exact Hqn].
        -- intros [|j] r Hj Hr.
           ++ injection Hr as <-. exact Hp.
           ++ apply (Hfirst j r); [lia | exact Hr].
      * intros q Hq. apply elem_of_cons in Hq as [->|Hq]; [exact Hp | apply IH, Hq].
Qed.

Lemma first_with_pid_unique (ps : list proc) (n : Z) (i j : nat) :
  first_with_pid ps n i -> first_with_pid ps n j -> i = j.
Proof.
  intros [(p & Hp & Hpn) Hi] [(q & Hq & Hqn) Hj].
  destruct (Nat.lt_trichotomy i j) as [H | [H | H]]; [|exact H|].
  - destruct (Hj i p H Hp Hpn).
  - destruct (Hi j q H Hq Hqn).
Qed.

Lemma unlock_relock (s : kstate) :
  ptable_lock s = false -> set_ptable_lock (set_ptable_lock s true) false = s.
Proof. destruct s. cbn. intros ->. reflexivity. Qed.

(** X20. [kill(pid)] marks one process and no other.  It takes the
    first slot of the table whose [pid] is the one asked for, whatever
    the state of the slot, sets [killed] there, and makes the process
    [RUNNABLE] if it was [SLEEPING]; a process in any other state
    keeps its state.  Every other slot, and every other field of the
    slot, stays as it was, and the call returns 0 with the lock
    released.  When no slot has the pid the call returns -1 and the
    table is as it was. *)
Theorem kill_marks_first_match (s : kstate) (n : Z) :
  ptable_lock s = false ->
  (forall i p,
      procs s !! i = Some p -> first_with_pid (procs s) n i ->
      exists p',
        kill s n = Ok (set_procs s (<[i := p']> (procs s)), 0) /\
        killed p' = 1 /\
        state p' = (if decide (state p = SLEEPING) then RUNNABLE else state p) /\
        set_state (set_killed p' (killed p)) (state p) = p) /\
  ((forall p, p ∈ procs s -> pid p <> n) -> kill s n = Ok (s, -1)).
Proof.
  intros Hlk. pose proof (kill_scan_spec n (procs s) 0) as Hscan. split.
  - intros i p Hp Hfirst. exists (kill_proc p).
    unfold kill. rewrite Hlk. cbn [acquire mbind result_bind set_ptable_lock procs].
    destruct (kill_scan (procs s) 0 n) as [k|].
    + destruct Hscan as (i' & -> & Hfirst').
      rewrite (first_with_pid_unique _ _ _ _ Hfirst' Hfirst). cbn [Nat.add].
      unfold update_proc. cbn [procs set_procs ptable_lock release mbind result_bind].
      split.
      * assert (Hal : alter kill_proc i (procs s) = <[i := kill_proc p]> (procs s)).
        2: { destruct s as [fl lk ps np ip cu]. cbn in *. subst lk.
             unfold set_procs, set_ptable_lock. cbn. rewrite Hal. reflexivity. }
        apply list_eq. intros j. destruct (decide (j = i)) as [->|Hne].
        -- rewrite list_lookup_alter_eq, Hp. cbn.
           symmetry. apply list_lookup_insert_eq. eapply lookup_lt_Some, Hp.
        -- rewrite list_lookup_alter_ne, list_lookup_insert_ne by congruence. reflexivity.
      * unfold kill_proc. cbn [set_killed state].
        destruct (decide (state p = SLEEPING)) as [Hs|Hs]; cbn;
          (split; [reflexivity|]); (split; [reflexivity|]);
          destruct p; cbn in *; try subst; reflexivity.
    + destruct Hfirst as [(q & Hq & Hqn) _].
      destruct (Hscan q); [eapply list_elem_of_lookup_2; exact Hq | exact Hqn].
  - intros Hnone. unfold kill. rewrite Hlk.
    cbn [acquire mbind result_bind set_ptable_lock procs].
    destruct (kill_scan (procs s) 0 n) as [k|].
    + destruct Hscan as (i & _ & (q & Hq & Hqn) & _).
      destruct (Hnone q); [eapply list_elem_of_lookup_2; exact Hq | exact Hqn].
    + cbn. rewrite (unlock_relock s Hlk). reflexivity.
Qed.

(** ** Waking *)

Definition sleeps_on (p : proc) (c : ptr) : Prop := state p = SLEEPING /\ chan p = c.

Lemma wakeup1_lookup (ps : list proc) (c : ptr) (i : nat) :
  wakeup1 ps c !! i =
    (fun p => if decide (state p = SLEEPING /\ chan p = c)
              then set_state p RUNNABLE else p) <$> ps !! i.
Proof. unfold wakeup1. apply list_lookup_fmap. Qed.

Lemma wakeup1_idempotent (ps : list proc) (c : ptr) :
  wakeup1 (wakeup1 ps c) c = wakeup1 ps c.
Proof.
  unfold wakeup1. rewrite <- list_fmap_compose. apply list_fmap_ext.
  intros _ p _. cbn.
  destruct (decide (state p = SLEEPING /\ chan p = c)) as [H|H].
  - destruct (decide (state (set_state p RUNNABLE) = SLEEPING /\
                      chan (set_state p RUNNABLE) = c)) as [[H' _]|_];
      [discriminate H' | reflexivity].
  - destruct (decide (state p = SLEEPING /\ chan p = c)); [contradiction | reflexivity].
Qed.

(** X21. [wakeup(chan)] wakes every process that sleeps on [chan] and
    touches nothing else.  After the call no process sleeps on [chan];
    those that did are [RUNNABLE] and otherwise as they were; every
    other process, asleep on another channel or not asleep, is as it
    was.  A second [wakeup(chan)] changes nothing, so a process that
    goes to sleep after the call is not woken by it. *)
Theorem wakeup_wakes_all_sleepers (s : kstate) (c : ptr) :
  ptable_lock s = false ->
  exists s',
    wakeup s c = Ok s' /\ ptable_lock s' = false /\ files s' = files s /\
    length (procs s') = length (procs s) /\
    (forall p, p ∈ procs s' -> ~ sleeps_on p c) /\
    (forall i p, procs s !! i = Some p -> sleeps_on p c ->
                 procs s' !! i = Some (set_state p RUNNABLE)) /\
    (forall i p, procs s !! i = Some p -> ~ sleeps_on p c -> procs s' !! i = Some p) /\
    wakeup s' c = Ok s'.
Proof.
  intros Hlk. unfold wakeup at 1. rewrite Hlk.
  cbn [acquire release mbind result_bind set_ptable_lock set_procs ptable_lock procs].
  eexists. split; [reflexivity|].
  unfold set_ptable_lock, set_procs. cbn [ptable_lock files procs].
  split; [reflexivity|]. split; [reflexivity|].
  split; [unfold wakeup1; apply length_fmap|]. split; [|split; [|split]].
  - intros p Hp. unfold wakeup1 in Hp. apply list_elem_of_fmap in Hp as (q & -> & _).
    unfold sleeps_on.
    destruct (decide (state q = SLEEPING /\ chan q = c)) as [H|H];
      [intros [H' _]; discriminate H' | exact H].
  - intros i p Hp Hs. rewrite wakeup1_lookup, Hp. cbn.
    destruct (decide (state p = SLEEPING /\ chan p = c)); [reflexivity | contradiction].
  - intros i p Hp Hs. rewrite wakeup1_lookup, Hp. cbn.
    destruct (decide (state p = SLEEPING /\ chan p = c)); [contradiction | reflexivity].
  - unfold wakeup.
    cbn [acquire release mbind result_bind set_ptable_lock set_procs ptable_lock procs
         files nextpid initproc cur].
    rewrite wakeup1_idempotent. reflexivity.
Qed.

(** ** A shell asleep in [wait], and its child *)

Definition asleep : kstate :=
  {| files := files_with 1; ptable_lock := false;
     procs := [init_proc; set_chan (sh_proc SLEEPING) (ProcPtr 1); child_proc; unused_slot];
     nextpid := 4; initproc := ProcPtr 0; cur := 2 |}.

Lemma kill_marks_first_match_witness :
  exists p',
    kill asleep 2 = Ok (set_procs asleep (<[1%nat := p']> (procs asleep)), 0) /\
    killed p' = 1 /\
    state p' = (if decide (state (set_chan (sh_proc SLEEPING) (ProcPtr 1)) = SLEEPING)
                then RUNNABLE else state (set_chan (sh_proc SLEEPING) (ProcPtr 1))) /\
    set_state (set_killed p' (killed (set_chan (sh_proc SLEEPING) (ProcPtr 1))))
              (state (set_chan (sh_proc SLEEPING) (ProcPtr 1)))
      = set_chan (sh_proc SLEEPING) (ProcPtr 1).
Proof.
  destruct (kill_marks_first_match asleep 2 eq_refl) as [H _].
  apply (H 1%nat (set_chan (sh_proc SLEEPING) (ProcPtr 1)) eq_refl).
  split.
  - eexists. split; [reflexivity | reflexivity].
  - intros [|j] q Hj Hq; [|lia]. injection Hq as <-. discriminate.
Defined.

Lemma wakeup_wakes_all_sleepers_witness :
  exists s',
    wakeup asleep (ProcPtr 1) = Ok s' /\ ptable_lock s' = false /\
    files s' = files asleep /\
    length (procs s') = length (procs asleep) /\
    (forall p, p ∈ procs s' -> ~ sleeps_on p (ProcPtr 1)) /\
    (forall i p, procs asleep !! i = Some p -> sleeps_on p (ProcPtr 1) ->
                 procs s' !! i = Some (set_state p RUNNABLE)) /\
    (forall i p, procs asleep !! i = Some p -> ~ sleeps_on p (ProcPtr 1) ->
                 procs s' !! i = Some p) /\
    wakeup s' (ProcPtr 1) = Ok s'.
Proof. apply (wakeup_wakes_all_sleepers asleep (ProcPtr 1)). reflexivity. Defined.

(** [kill] does not look at the state of a slot: [kill(0)] finds the
    slot that is [UNUSED], whose pid is 0, and returns 0. *)
Example kill_0_finds_unused_slot :
  exists s', kill asleep 0 = Ok (s', 0) /\
             (killed <$> procs s') = [0; 0; 0; 1] /\
             (state <$> procs s') = [SLEEPING; SLEEPING; RUNNING; UNUSED].
Proof. eexists. split; [reflexivity|]. split; reflexivity. Qed.

End Signals.


(** * vm.c: uva2ka and clearpteu *)

Module Uvm.

Import Vm.

(** Modelled from the spec: the macro [PTE_ADDR] of mmu.h, which is
    not among the sources.  An entry carries a frame address above
    twelve flag bits; the macro is the entry with the flag bits
    cleared. *)
Definition PTE_ADDR (pte : Z) : Z := Z.land pte (Z.lnot 0xFFF).

Section WithLayout.

Variable KERNBASE : Z.

(** Modelled from the spec: the macro [P2V] of memlayout.h, which is
    not among the sources.  The kernel maps physical memory from
    [KERNBASE] on, so the kernel address of the physical address [a]
    is [a + KERNBASE], in [uint] arithmetic. *)
Definition P2V (a : Z) : Z := wrap32 (a + KERNBASE).

(** What [uva2ka] makes of the entry it finds. *)
Definition user_frame (e : Z) : Z :=
  if Z.land e PTE_P =? 0 then 0
  else if Z.land e PTE_U =? 0 then 0
  else P2V (PTE_ADDR e).

(** [uva2ka(pgdir, uva)].  [walkpgdir] is called with [alloc = 0] and
    leaves the allocator and the directory alone.  The pointer it
    returns is followed without a test. *)
Definition uva2ka (k : Kalloc.kmem) (pd : pgdir) (uva : Z) : result Z :=
  '(_, _, pte) ← walkpgdir KERNBASE k pd uva false;
  match pte with
  | None => Undefined
  | Some at_ =>
      match read_pte pd at_ with
      | None => Undefined
      | Some e => Ok (user_frame e)
      end
  end.

(** [clearpteu(pgdir, uva)] *)
Definition clearpteu (k : Kalloc.kmem) (pd : pgdir) (uva : Z) : result pgdir :=
  '(_, _, pte) ← walkpgdir KERNBASE k pd uva false;
  match pte with
  | None => Panic "clearpteu"
  | Some at_ =>
      match read_pte pd at_ with
      | None => Undefined
      | Some e => Ok (write_pte pd at_ (Z.land e (Z.lnot PTE_U)))
      end
  end.

(** ** Through [pte_at] *)

Lemma walk_no_alloc (k : Kalloc.kmem) (pd : pgdir) (a : Z) :
  pgdir_wf pd ->
  exists slot,
    pd !! Z.to_nat (PDX a) = Some slot /\
    (present (pde slot) = true ->
     length (tab slot) = Z.to_nat NPTENTRIES /\
     walkpgdir KERNBASE k pd a false
       = Ok (k, pd, Some (Z.to_nat (PDX a), Z.to_nat (PTX a))) /\
     exists e, pte_at pd a = Some e /\
               read_pte pd (Z.to_nat (PDX a), Z.to_nat (PTX a)) = Some e) /\
    (present (pde slot) = false ->
     walkpgdir KERNBASE k pd a false = Ok (k, pd, None) /\ pte_at pd a = None).
Proof.
  intros [Hlen Htab]. pose proof (PDX_range a) as Hd. pose proof (PTX_range a) as Ht.
  destruct (lookup_lt_is_Some_2 pd (Z.to_nat (PDX a))) as [slot Hs].
  { rewrite Hlen. unfold NPDENTRIES. lia. }
  exists slot. split; [exact Hs|]. unfold walkpgdir, pte_at, read_pte. rewrite Hs.
  cbn [fst snd mbind option_bind]. split; intros Hp; rewrite Hp.
  - pose proof (Htab _ _ Hs Hp) as Hl. split; [exact Hl|]. split; [reflexivity|].
    destruct (lookup_lt_is_Some_2 (tab slot) (Z.to_nat (PTX a))) as [e He].
    { rewrite Hl. unfold NPTENTRIES. lia. }
    exists e. split; [exact He|]. cbn [fst snd]. rewrite Hs. exact He.
  - split; reflexivity.
Qed.

Lemma uva2ka_pte_at (k : Kalloc.kmem) (pd : pgdir) (a : Z) :
  pgdir_wf pd ->
  uva2ka k pd a = match pte_at pd a with
                  | Some e => Ok (user_frame e)
                  | None => Undefined
                  end.
Proof.
  intros Hwf. destruct (walk_no_alloc k pd a Hwf) as (slot & Hs & Hyes & Hno).
  unfold uva2ka. destruct (present (pde slot)) eqn:Hp.
  - destruct (Hyes eq_refl) as (_ & -> & e & -> & Hr). cbn [mbind result_bind].
    rewrite Hr. reflexivity.
  - destruct (Hno eq_refl) as [-> ->]. reflexivity.
Qed.

Lemma clearpteu_pte_at (k : Kalloc.kmem) (pd : pgdir) (a : Z) :
  pgdir_wf pd ->
  clearpteu k pd a =
    match pte_at pd a with
    | Some e => Ok (write_pte pd (Z.to_nat (PDX a), Z.to_nat (PTX a))
                              (Z.land e (Z.lnot PTE_U)))
    | None => Panic "clearpteu"
    end.
Proof.
  intros Hwf. destruct (walk_no_alloc k pd a Hwf) as (slot & Hs & Hyes & Hno).
  unfold clearpteu. destruct (present (pde slot)) eqn:Hp.
  - destruct (Hyes eq_refl) as (_ & -> & e & -> & Hr). cbn [mbind result_bind].
    rewrite Hr. reflexivity.
  - destruct (Hno eq_refl) as [-> ->]. reflexivity.
Qed.

(** ** The bits of an entry *)

Lemma clear_U_bits (e : Z) :
  Z.land (Z.land e (Z.lnot PTE_U)) PTE_U = 0 /\
  Z.land (Z.land e (Z.lnot PTE_U)) PTE_P = Z.land e PTE_P /\
  Z.land (Z.land e (Z.lnot PTE_U)) PTE_W = Z.land e PTE_W /\
  PTE_ADDR (Z.land e (Z.lnot PTE_U)) = PTE_ADDR e.
Proof.
  unfold PTE_ADDR. rewrite <- !Z.land_assoc.
  change (Z.land (Z.lnot PTE_U) PTE_U) with 0.
  change (Z.land (Z.lnot PTE_U) PTE_P) with PTE_P.
  change (Z.land (Z.lnot PTE_U) PTE_W) with PTE_W.
  change (Z.land (Z.lnot PTE_U) (Z.lnot 0xFFF)) with (Z.lnot 0xFFF).
  rewrite Z.land_0_r. auto.
Qed.

Lemma aligned_low_bit (x : Z) (n : Z) :
  x mod 4096 = 0 -> 0 <= n < 12 -> Z.testbit x n = false.
Proof.
  intros Hx Hn. change 4096 with (2 ^ 12) in Hx.
  rewrite <- (Z.mod_pow2_bits_low x 12 n) by lia. rewrite Hx. apply Z.bits_0.
Qed.

Lemma flags_high_bit (x : Z) (n : Z) :
  0 <= x < 4096 -> 12 <= n -> Z.testbit x n = false.
Proof.
  intros Hx Hn. destruct (Z.eq_dec x 0) as [->|Hne]; [apply Z.bits_0|].
  apply Z.bits_above_log2; [lia|].
  assert (Z.log2 x < 12); [|lia]. apply Z.log2_lt_pow2; [lia|].
  change (2 ^ 12) with 4096. lia.
Qed.

Lemma entry_U (x perm : Z) :
  x mod 4096 = 0 ->
  Z.land (Z.lor (Z.lor x perm) PTE_P) PTE_U = Z.land perm PTE_U.
Proof.
  intros Hx. rewrite !Z.land_lor_distr_l.
  change (Z.land PTE_P PTE_U) with 0. rewrite Z.lor_0_r.
  replace (Z.land x PTE_U) with 0; [reflexivity|].
  symmetry. apply Z.bits_inj'. intros n Hn. rewrite Z.land_spec, Z.bits_0.
  destruct (Z.lt_ge_cases n 12) as [Hlt|Hge].
  - rewrite (aligned_low_bit x n Hx) by lia. reflexivity.
  - rewrite (flags_high_bit PTE_U n) by (unfold PTE_U; lia). apply andb_false_r.
Qed.

Lemma entry_ADDR (x perm : Z) :
  x mod 4096 = 0 -> 0 <= perm < 4096 ->
  PTE_ADDR (Z.lor (Z.lor x perm) PTE_P) = x.
Proof.
  intros Hx Hp. unfold PTE_ADDR. apply Z.bits_inj'. intros n Hn.
  rewrite Z.land_spec, !Z.lor_spec.
  change 0xFFF with (Z.ones 12). rewrite Z.lnot_spec by lia.
  destruct (Z.lt_ge_cases n 12) as [Hlt|Hge].
  - rewrite Z.ones_spec_low by lia. rewrite (aligned_low_bit x n Hx) by lia.
    cbn. apply andb_false_r.
  - rewrite Z.ones_spec_high by lia.
    rewrite (flags_high_bit perm n Hp Hge).
    rewrite (flags_high_bit PTE_P n) by (unfold PTE_P; lia).
    cbn. rewrite !orb_false_r, andb_true_r. reflexivity.
Qed.

Lemma wrap32_aligned (x : Z) : x mod 4096 = 0 -> wrap32 x mod 4096 = 0.
Proof. unfold wrap32. change (2 ^ 32) with 4294967296. intros H. lia_mod. Qed.

(** X22. [clearpteu] takes a page away from user code and from
    nothing else.  When the directory has a page table for [uva], the
    call clears [PTE_U] in the entry of [uva] and leaves its address
    and its other flags; from then on [uva2ka] gives 0 for every
    address of that page, and for every address of any other page
    what it gave before.  When the directory has no page table for
    [uva], [clearpteu] panics, and [uva2ka] follows the null pointer
    [walkpgdir] has returned. *)
Theorem clearpteu_hides_page (k : Kalloc.kmem) (pd : pgdir) (uva : Z) :
  pgdir_wf pd ->
  (forall e, pte_at pd uva = Some e ->
     exists pd',
       clearpteu k pd uva = Ok pd' /\ pgdir_wf pd' /\
       pte_at pd' uva = Some (Z.land e (Z.lnot PTE_U)) /\
       Z.land (Z.land e (Z.lnot PTE_U)) PTE_U = 0 /\
       Z.land (Z.land e (Z.lnot PTE_U)) PTE_P = Z.land e PTE_P /\
       Z.land (Z.land e (Z.lnot PTE_U)) PTE_W = Z.land e PTE_W /\
       PTE_ADDR (Z.land e (Z.lnot PTE_U)) = PTE_ADDR e /\
       (forall x, same_entry x uva = true -> uva2ka k pd' x = Ok 0) /\
       (forall x, same_entry x uva = false -> uva2ka k pd' x = uva2ka k pd x)) /\
  (pte_at pd uva = None ->
   clearpteu k pd uva = Panic "clearpteu" /\ uva2ka k pd uva = Undefined).
Proof.
  intros Hwf. split.
  - intros e He. rewrite (clearpteu_pte_at k pd uva Hwf), He.
    destruct (walk_no_alloc k pd uva Hwf) as (slot & Hs & Hyes & Hno).
    destruct (present (pde slot)) eqn:Hp.
    2: { destruct (Hno eq_refl) as [_ Hnone]. congruence. }
    destruct (Hyes eq_refl) as (Hl & _).
    set (e' := Z.land e (Z.lnot PTE_U)).
    set (pd' := write_pte pd (Z.to_nat (PDX uva), Z.to_nat (PTX uva)) e').
    assert (Hwf' : pgdir_wf pd') by (apply write_pte_wf, Hwf).
    assert (Hat : forall x, pte_at pd' x = if same_entry x uva then Some e' else pte_at pd x)
      by (intros x; apply (pte_at_write pd uva e' x slot Hs Hp Hl)).
    destruct (clear_U_bits e) as (HU & HP & HW & HA).
    exists pd'. split; [reflexivity|]. split; [exact Hwf'|].
    split.
    { rewrite Hat. unfold same_entry. rewrite !Z.eqb_refl. reflexivity. }
    split; [exact HU|]. split; [exact HP|]. split; [exact HW|]. split; [exact HA|].
    split.
    + intros x Hx. rewrite (uva2ka_pte_at k pd' x Hwf'), Hat, Hx.
      unfold user_frame. fold e' in HU. rewrite HU.
      destruct (Z.land e' PTE_P =? 0); reflexivity.
    + intros x Hx. rewrite (uva2ka_pte_at k pd' x Hwf'), (uva2ka_pte_at k pd x Hwf).
      rewrite Hat, Hx. reflexivity.
  - intros Hnone. rewrite (clearpteu_pte_at k pd uva Hwf), (uva2ka_pte_at k pd uva Hwf).
    rewrite Hnone. split; reflexivity.
Qed.

(** X23. What [mappages] has mapped, [uva2ka] finds.  After
    [mappages(pgdir, va, size, pa, perm)] has returned 0, with [pa] on
    a page boundary and [perm] made of flag bits, [uva2ka] gives for
    page [j] of the range the kernel address of [pa + j*PGSIZE] when
    [perm] has [PTE_U], and 0 when it has not. *)
Theorem uva2ka_after_mappages (k k' : Kalloc.kmem) (pd pd' : pgdir)
        (va size pa perm : Z) :
  pgdir_wf pd -> Kalloc.lock_free k ->
  0 <= va < 2 ^ 32 -> 0 <= pa < 2 ^ 32 -> pa mod 4096 = 0 -> 0 <= perm < 4096 ->
  mappages KERNBASE k pd va size pa perm = Some (Ok (k', pd', 0)) ->
  forall j, (j < npages va size)%nat ->
    uva2ka k' pd' (page_of va j) =
      Ok (if Z.land perm PTE_U =? 0 then 0
          else P2V (wrap32 (pa + Z.of_nat j * PGSIZE))).
Proof.
  intros Hwf Hlk Hva Hpa Hal Hperm Hrun j Hj.
  destruct (mappages_terminates KERNBASE k pd va size pa perm Hwf Hlk Hva Hpa)
    as (r & Hr & Hpost).
  rewrite Hrun in Hr. injection Hr as <-. cbn [mappages_post] in Hpost.
  destruct Hpost as (Hwf' & _ & [[Hret _] | [_ Hall]]); [discriminate Hret|].
  destruct (Hall j Hj) as [_ Hat].
  rewrite (uva2ka_pte_at k' pd' _ Hwf'), Hat. unfold user_frame.
  assert (Hal' : wrap32 (pa + Z.of_nat j * PGSIZE) mod 4096 = 0).
  { apply wrap32_aligned. unfold PGSIZE. lia_mod. }
  pose proof (present_lor_P (Z.lor (wrap32 (pa + Z.of_nat j * PGSIZE)) perm)) as HP.
  unfold present in HP. apply negb_true_iff in HP. rewrite HP.
  rewrite (entry_U _ perm Hal'), (entry_ADDR _ perm Hal' Hperm). reflexivity.
Qed.

End WithLayout.

(** ** A directory with the page at 0 mapped for user code *)

Definition one_user_page : pgdir :=
  <[0%nat := {| pde := 0x3ff007; tab := <[0%nat := 0x1007]> (replicate 1024 0) |}]>
    empty_pgdir.

Lemma one_user_page_wf : pgdir_wf one_user_page.
Proof.
  split; [reflexivity|]. intros i slot Hi Hp. destruct i as [|i].
  - injection Hi as <-. reflexivity.
  - change (one_user_page !! S i) with (empty_pgdir !! S i) in Hi.
    apply lookup_replicate_1 in Hi as [-> _]. discriminate.
Qed.

Lemma clearpteu_hides_page_witness :
  (forall e, pte_at one_user_page 0x123 = Some e ->
     exists pd',
       clearpteu Kalloc.boot_KERNBASE Kalloc.boot_kmem one_user_page 0x123 = Ok pd' /\
       pgdir_wf pd' /\
       pte_at pd' 0x123 = Some (Z.land e (Z.lnot PTE_U)) /\
       Z.land (Z.land e (Z.lnot PTE_U)) PTE_U = 0 /\
       Z.land (Z.land e (Z.lnot PTE_U)) PTE_P = Z.land e PTE_P /\
       Z.land (Z.land e (Z.lnot PTE_U)) PTE_W = Z.land e PTE_W /\
       PTE_ADDR (Z.land e (Z.lnot PTE_U)) = PTE_ADDR e /\
       (forall x, same_entry x 0x123 = true ->
                  uva2ka Kalloc.boot_KERNBASE Kalloc.boot_kmem pd' x = Ok 0) /\
       (forall x, same_entry x 0x123 = false ->
                  uva2ka Kalloc.boot_KERNBASE Kalloc.boot_kmem pd' x =
                  uva2ka Kalloc.boot_KERNBASE Kalloc.boot_kmem one_user_page x)) /\
  (pte_at one_user_page 0x123 = None ->
   clearpteu Kalloc.boot_KERNBASE Kalloc.boot_kmem one_user_page 0x123
     = Panic "clearpteu" /\
   uva2ka Kalloc.boot_KERNBASE Kalloc.boot_kmem one_user_page 0x123 = Undefined).
Proof.
  apply (clearpteu_hides_page Kalloc.boot_KERNBASE Kalloc.boot_kmem one_user_page 0x123).
  exact one_user_page_wf.
Defined.

(** The byte at 0x123 is at 0x80001123 for the kernel; after
    [clearpteu] user code has no way to it. *)
Example uva2ka_before_and_after :
  uva2ka Kalloc.boot_KERNBASE Kalloc.boot_kmem one_user_page 0x123 = Ok 0x80001000 /\
  (exists pd', clearpteu Kalloc.boot_KERNBASE Kalloc.boot_kmem one_user_page 0x123 = Ok pd' /\
               pte_at pd' 0x123 = Some 0x1003 /\
               uva2ka Kalloc.boot_KERNBASE Kalloc.boot_kmem pd' 0x123 = Ok 0) /\
  clearpteu Kalloc.boot_KERNBASE Kalloc.boot_kmem one_user_page 0x400000
    = Panic "clearpteu".
Proof.
  split; [vm_compute; reflexivity|]. split; [|vm_compute; reflexivity].
  eexists. split; [reflexivity|]. split; vm_compute; reflexivity.
Qed.

(** [mappages] of the page at 0 onto the frame at 0x1000, for user
    code, in a directory without any table. *)
Definition user_page_mapped : Kalloc.kmem * pgdir :=
  match mappages Kalloc.boot_KERNBASE Kalloc.boot_kmem empty_pgdir
                 0 4096 0x1000 (Z.lor PTE_W PTE_U) with
  | Some (Ok (k', pd', _)) => (k', pd')
  | _ => (Kalloc.boot_kmem, empty_pgdir)
  end.

Lemma uva2ka_after_mappages_witness :
  uva2ka Kalloc.boot_KERNBASE user_page_mapped.1 user_page_mapped.2 (page_of 0 0) =
    Ok (if Z.land (Z.lor PTE_W PTE_U) PTE_U =? 0 then 0
        else P2V Kalloc.boot_KERNBASE (wrap32 (0x1000 + Z.of_nat 0 * PGSIZE))).
Proof.
  apply (uva2ka_after_mappages Kalloc.boot_KERNBASE Kalloc.boot_kmem
           user_page_mapped.1 empty_pgdir user_page_mapped.2
           0 4096 0x1000 (Z.lor PTE_W PTE_U)).
  - exact empty_pgdir_wf.
  - right. reflexivity.
  - lia.
  - lia.
  - reflexivity.
  - change (Z.lor PTE_W PTE_U) with 6. lia.
  - vm_compute. reflexivity.
  - unfold npages. lia.
Defined.

(** The page at 0 is then at 0x80001000 for the kernel. *)
Example uva2ka_page_0 :
  uva2ka Kalloc.boot_KERNBASE user_page_mapped.1 user_page_mapped.2 0x123
    = Ok 0x80001000.
Proof. vm_compute. reflexivity. Qed.

End Uvm.
